(** * xdress.doxygen: a shallow embedding of [doxygen.py]

    The plugin parses the XML written by dOxygen into nested dictionaries,
    renders them as numpydoc docstrings and stores the text in the
    description registry [rc.env] of the xdress pipeline.

    Python dictionaries are finite maps ([gmap]); a dictionary with a fixed
    set of keys is a record whose fields tell whether the key is present.
    An exception is a [Raise] in the [result] monad.  The two external
    libraries the module relies on, [textwrap] and [etree], enter as
    section variables: [fill] is [TextWrapper.fill] and [read_xml] is
    [etree.parse] on the files dOxygen wrote. *)

From Stdlib Require Import String Ascii List Bool Arith Lia Sorted.
From stdpp Require Import base option list strings gmap pretty.
Import ListNotations.

#[local] Set Warnings "-register-all".

(** ** Exceptions and the result monad *)

(** The exceptions of Python the module can raise.  [LoopBound] is not one
    of them: it marks the bound of the model on the one [while] loop of the
    module, and [mem_key_total] shows that the loop ends before it. *)
Inductive exn : Type :=
| KeyError
| TypeError
| AttributeError
| IndexError
| IOError
| NameError
| LoopBound.

Inductive result (A : Type) : Type :=
| Ok (a : A)
| Raise (e : exn).
Arguments Ok {A} a.
Arguments Raise {A} e.

#[global] Instance result_ret : MRet result := fun A a => Ok a.
#[global] Instance result_bind : MBind result :=
  fun A B f m => match m with Ok a => f a | Raise e => Raise e end.

(** [o.attr] where [o] may be [None]: Python raises [AttributeError]. *)
Definition attr_of {A} (o : option A) : result A :=
  match o with Some a => Ok a | None => Raise AttributeError end.

(** [d[k]] on a dictionary. *)
Definition getitem {K V} `{Countable K} (d : gmap K V) (k : K) : result V :=
  match d !! k with Some v => Ok v | None => Raise KeyError end.

(** [l[0]] on a list. *)
Definition first_item {A} (l : list A) : result A :=
  match l with x :: _ => Ok x | [] => Raise IndexError end.

(** [[f(x) for x in l]] where [f] may raise. *)
Fixpoint for_each {A B} (f : A -> result B) (l : list A) : result (list B) :=
  match l with
  | [] => Ok []
  | x :: l' => y ← f x; ys ← for_each f l'; Ok (y :: ys)
  end.

(** [filter(p, l)] where the predicate may raise. *)
Fixpoint filter_raising {A} (p : A -> result bool) (l : list A)
  : result (list A) :=
  match l with
  | [] => Ok []
  | x :: l' =>
      b ← p x; r ← filter_raising p l';
      Ok (if b : bool then x :: r else r)
  end.

(** ** Python strings *)

Definition nl : string := String (ascii_of_nat 10) EmptyString.

Definition dquote : string := String (ascii_of_nat 34) EmptyString.

(** [str(o)] and [%s] formatting of a value that is a string or [None]. *)
Definition py_str (o : option string) : string :=
  match o with Some s => s | None => "None" end.

(** [c * n] for a one-character string. *)
Fixpoint str_repeat (c : ascii) (n : nat) : string :=
  match n with O => EmptyString | S k => String c (str_repeat c k) end.

(** [sub in s] on strings. *)
Definition str_in (sub s : string) : bool :=
  match String.index 0 sub s with Some _ => true | None => false end.

(** [s.startswith(p)]. *)
Definition startswith (s p : string) : bool := String.prefix p s.

Fixpoint str_rev_onto (s acc : string) : string :=
  match s with
  | EmptyString => acc
  | String c s' => str_rev_onto s' (String c acc)
  end.
Definition str_rev (s : string) : string := str_rev_onto s EmptyString.

(** [s.endswith(p)]. *)
Definition endswith (s p : string) : bool :=
  String.prefix (str_rev p) (str_rev s).

(** The whitespace of [str.strip()]: space, tab, newline, vertical tab,
    form feed and carriage return. *)
Definition is_space (c : ascii) : bool :=
  let n := nat_of_ascii c in
  (n =? 32) || ((9 <=? n) && (n <=? 13)).

Fixpoint lstrip (s : string) : string :=
  match s with
  | EmptyString => EmptyString
  | String c s' => if is_space c then lstrip s' else s
  end.
Definition strip (s : string) : string :=
  str_rev (lstrip (str_rev (lstrip s))).

(** [sep.join(l)]. *)
Definition join (sep : string) (l : list string) : string :=
  String.concat sep l.

(** [s[:-1]]. *)
Definition drop_last (s : string) : string :=
  String.substring 0 (String.length s - 1) s.

(** [s.split(sep)] for a non-empty separator: [skip] counts the characters
    of a separator still to be passed over, [cur] is the piece being read,
    reversed. *)
Fixpoint split_go (sep : string) (skip : nat) (cur : string) (s : string)
  : list string :=
  match s with
  | EmptyString => [str_rev cur]
  | String c s' =>
      match skip with
      | S k => split_go sep k cur s'
      | O =>
          if String.prefix sep s
          then str_rev cur :: split_go sep (String.length sep - 1) EmptyString s'
          else split_go sep 0 (String c cur) s'
      end
  end.
Definition split (sep s : string) : list string :=
  split_go sep 0 EmptyString s.

(** [l[-1]] and [l[:-1]]. *)
Definition last_item {A} (l : list A) : result A :=
  match List.rev l with x :: _ => Ok x | [] => Raise IndexError end.
Definition all_but_last {A} (l : list A) : list A := List.removelast l.

(** [str.splitlines(s)]: lines end at a newline, a carriage return or the
    pair of them; the line ends are dropped and a final line end opens no
    empty line. *)
Fixpoint splitlines_go (cur : string) (s : string) : list string :=
  match s with
  | EmptyString =>
      match cur with EmptyString => [] | _ => [str_rev cur] end
  | String c s' =>
      if Nat.eqb (nat_of_ascii c) 10 then
        str_rev cur :: splitlines_go EmptyString s'
      else if Nat.eqb (nat_of_ascii c) 13 then
        match s' with
        | String c' s'' =>
            if Nat.eqb (nat_of_ascii c') 10
            then str_rev cur :: splitlines_go EmptyString s''
            else str_rev cur :: splitlines_go EmptyString s'
        | EmptyString => [str_rev cur]
        end
      else splitlines_go (String c cur) s'
  end.
Definition splitlines (s : string) : list string :=
  splitlines_go EmptyString s.

(** A dictionary key or list item read from the XML is the text of a name
    element: a string, or [None] for an element without text. *)
Abbreviation pyname := (option string).

(** The order of Python 2 on such values: [None] is below every string,
    and strings compare character by character. *)
Definition name_leb (a b : pyname) : bool :=
  match a, b with
  | None, _ => true
  | Some _, None => false
  | Some x, Some y => String.leb x y
  end.

(** [list.sort()]: Python's sort is stable, as is insertion sort. *)
Fixpoint sort_insert (x : pyname) (l : list pyname) : list pyname :=
  match l with
  | [] => [x]
  | y :: l' => if name_leb x y then x :: l else y :: sort_insert x l'
  end.
Fixpoint py_sort (l : list pyname) : list pyname :=
  match l with
  | [] => []
  | x :: l' => sort_insert x (py_sort l')
  end.

(** [list(set(l))]: the distinct elements, in the order of the set. *)
Definition list_of_set (l : list pyname) : list pyname :=
  elements (list_to_set l : gset pyname).

(** [l.pop()] and [l.insert(i, x)]; an index past the end appends. *)
Definition py_pop {A} (l : list A) : result (A * list A) :=
  match List.rev l with
  | x :: r => Ok (x, List.rev r)
  | [] => Raise IndexError
  end.
Definition py_insert {A} (i : nat) (x : A) (l : list A) : list A :=
  List.firstn i l ++ x :: List.skipn i l.

(** ** The element trees of [etree]

    An element has a tag, attributes, an optional text and children.  The
    text of an element without character data is [None]. *)

Inductive element : Type :=
| Element (tag : string) (attrib : gmap string string)
    (text : option string) (children : list element).

Definition tag (e : element) : string :=
  match e with Element t _ _ _ => t end.
Definition attrib (e : element) : gmap string string :=
  match e with Element _ a _ _ => a end.
Definition text (e : element) : option string :=
  match e with Element _ _ x _ => x end.
Definition children (e : element) : list element :=
  match e with Element _ _ _ c => c end.

Definition has_tag (t : string) (e : element) : bool := String.eqb (tag e) t.

(** [e.findall(t)]: the children with that tag, in document order. *)
Definition findall (t : string) (e : element) : list element :=
  List.filter (has_tag t) (children e).

(** [e.find(t)]: the first such child, or [None]. *)
Definition find (t : string) (e : element) : option element :=
  List.head (findall t e).

(** [e.iter(t)]: the element itself and all its descendants with that tag,
    in document order. *)
Fixpoint descendants (e : element) : list element :=
  match e with
  | Element _ _ _ cs =>
      e :: (fix over (l : list element) : list element :=
              match l with
              | [] => []
              | c :: l' => descendants c ++ over l'
              end) cs
  end.
Definition iter (t : string) (e : element) : list element :=
  List.filter (has_tag t) (descendants e).

(** [e.find(t).text]: an [AttributeError] when there is no such child. *)
Definition find_text (t : string) (e : element) : result (option string) :=
  c ← attr_of (find t e); Ok (text c).

(** ** Member dictionaries

    [_parse_func], [_parse_variable] and [_parse_common] fill a dictionary
    key by key.  A field below is [None] while its key is absent; under a
    key the dictionary holds a text, [None] for an element without text,
    or, under ['args'], [None] or the dictionary of the parameters.  A
    parameter is a dictionary with the key ['type'] and, when the detailed
    description lists the parameters, the key ['desc']: [a_desc] is [None]
    while that key is absent. *)

Record arg_entry : Type := {
  a_type : option string;
  a_desc : option (option string)
}.

Record member : Type := {
  detaileddescription : option (option string);
  ret_type : option (option string);
  type_ : option (option string);
  args : option (option (gmap pyname arg_entry));
  arg_string : option (option string);
  briefdescription : option string;
  definition : option (option string)
}.

Definition empty_member : member :=
  {| detaileddescription := None; ret_type := None; type_ := None;
     args := None; arg_string := None; briefdescription := None;
     definition := None |}.

Definition set_detaileddescription (v : option string) (m : member) : member :=
  {| detaileddescription := Some v; ret_type := ret_type m; type_ := type_ m;
     args := args m; arg_string := arg_string m;
     briefdescription := briefdescription m; definition := definition m |}.
Definition set_ret_type (v : option string) (m : member) : member :=
  {| detaileddescription := detaileddescription m; ret_type := Some v;
     type_ := type_ m; args := args m; arg_string := arg_string m;
     briefdescription := briefdescription m; definition := definition m |}.
Definition set_type (v : option string) (m : member) : member :=
  {| detaileddescription := detaileddescription m; ret_type := ret_type m;
     type_ := Some v; args := args m; arg_string := arg_string m;
     briefdescription := briefdescription m; definition := definition m |}.
Definition set_args (v : option (gmap pyname arg_entry)) (m : member) : member :=
  {| detaileddescription := detaileddescription m; ret_type := ret_type m;
     type_ := type_ m; args := Some v; arg_string := arg_string m;
     briefdescription := briefdescription m; definition := definition m |}.
Definition set_arg_string (v : option string) (m : member) : member :=
  {| detaileddescription := detaileddescription m; ret_type := ret_type m;
     type_ := type_ m; args := args m; arg_string := Some v;
     briefdescription := briefdescription m; definition := definition m |}.
Definition set_briefdescription (v : string) (m : member) : member :=
  {| detaileddescription := detaileddescription m; ret_type := ret_type m;
     type_ := type_ m; args := args m; arg_string := arg_string m;
     briefdescription := Some v; definition := definition m |}.
Definition set_definition (v : option string) (m : member) : member :=
  {| detaileddescription := detaileddescription m; ret_type := ret_type m;
     type_ := type_ m; args := args m; arg_string := arg_string m;
     briefdescription := briefdescription m; definition := Some v |}.

(** [d[k]] for a key of a member dictionary. *)
Definition field {A} (f : option A) : result A :=
  match f with Some v => Ok v | None => Raise KeyError end.

(** An operand that must be a string: [None] raises [TypeError]. *)
Definition as_str (o : option string) : result string :=
  match o with Some s => Ok s | None => Raise TypeError end.

(** A [for] loop whose body may raise, threading the loop's variables. *)
Fixpoint for_loop {A S} (body : S -> A -> result S) (l : list A) (s : S)
  : result S :=
  match l with
  | [] => Ok s
  | x :: l' => s' ← body s x; for_loop body l' s'
  end.

(** ** [_parse_func] *)

(** The loop over the [parameteritem]s of the second paragraph. *)
Definition _parse_func_item (arg_dict : gmap pyname (option string))
    (i : element) : result (gmap pyname (option string)) :=
  names ← attr_of (find "parameternamelist" i);
  a_name ← find_text "parametername" names;
  descr ← attr_of (find "parameterdescription" i);
  a_desc ← find_text "para" descr;
  Ok (<[a_name := a_desc]> arg_dict).

Definition _parse_func_arg_dict (arg_para : element)
  : result (gmap pyname (option string)) :=
  plist ← attr_of (find "parameterlist" arg_para);
  for_loop _parse_func_item (findall "parameteritem" plist) ∅.

(** The detailed description: the text and [arg_dict], which is [None]
    unless there are exactly two paragraphs. *)
Definition _parse_func_detailed (f_xml : element)
  : result (option string * option (gmap pyname (option string))) :=
  mem_dd ← attr_of (find "detaileddescription" f_xml);
  let dd_paras := findall "para" mem_dd in
  match dd_paras with
  | [p0] => Ok (text p0, None)
  | [p0; arg_para] =>
      arg_dict ← _parse_func_arg_dict arg_para;
      Ok (text p0, Some arg_dict)
  | _ => Ok (Some EmptyString, None)
  end.

(** The loop over the [param] children. *)
Definition _parse_func_param (arg_dict : option (gmap pyname (option string)))
    (args : gmap pyname arg_entry) (param : element)
  : result (gmap pyname arg_entry) :=
  arg_name ← find_text "declname" param;
  arg_type ← find_text "type" param;
  match arg_dict with
  | Some ad =>
      d ← getitem ad arg_name;
      Ok (<[arg_name := {| a_type := arg_type; a_desc := Some d |}]> args)
  | None =>
      Ok (<[arg_name := {| a_type := arg_type; a_desc := None |}]> args)
  end.

Definition _parse_func (f_xml : element) : result member :=
  let mem_dict := empty_member in
  '(mem_ddstr, arg_dict) ← _parse_func_detailed f_xml;
  let mem_dict := set_detaileddescription mem_ddstr mem_dict in
  ret ← find_text "type" f_xml;
  let mem_dict := set_ret_type ret mem_dict in
  args ← for_loop (_parse_func_param arg_dict) (findall "param" f_xml) ∅;
  let args := if decide (size args = 0) then None else Some args in
  let mem_dict := set_args args mem_dict in
  mem_argstr ← find_text "argsstring" f_xml;
  Ok (set_arg_string mem_argstr mem_dict).

(** ** [_parse_variable] and [_parse_common] *)

(** [try: x = e.find('para').text / except AttributeError: x = ''], where
    [e] itself may be [None]. *)
Definition para_text_or_empty (e : option element) : option string :=
  match e with
  | Some d =>
      match find "para" d with
      | Some p => text p
      | None => Some EmptyString
      end
  | None => Some EmptyString
  end.

Definition _parse_variable (v_xml : element) : result member :=
  let mem_dict := empty_member in
  let mem_ddstr := para_text_or_empty (find "detaileddescription" v_xml) in
  let mem_dict := set_detaileddescription mem_ddstr mem_dict in
  ty ← find_text "type" v_xml;
  Ok (set_type ty mem_dict).

Definition _parse_common (xml : element) (the_dict : member) : result member :=
  let mem_bdstr :=
    match para_text_or_empty (find "briefdescription" xml) with
    | Some s => s
    | None => EmptyString
    end in
  let the_dict := set_briefdescription mem_bdstr the_dict in
  def ← find_text "definition" xml;
  Ok (set_definition def the_dict).

(** ** Class dictionaries

    [parse_class] returns a dictionary with one entry per section of the
    class (a dictionary from member names to member dictionaries) and the
    four keys ['kls_name'], ['members'], ['file_name'] and ['namespace'].
    The sections are the map [sections]; the other four keys are fields. *)

Record class_data : Type := {
  sections : gmap string (gmap pyname member);
  kls_name : string;
  members_methods : list pyname;
  members_variables : list pyname;
  file_name : string;
  namespace : string
}.

(** [class_dict.keys()]. *)
Definition meta_keys : list string :=
  ["kls_name"; "members"; "file_name"; "namespace"].
Definition class_keys (class_dict : class_data) : list string :=
  (map_to_list (sections class_dict)).*1 ++ meta_keys.

(** [dict(items)]: a later item replaces an earlier one with its key. *)
Definition dict_of_items {K V} `{Countable K} (items : list (K * V))
  : gmap K V :=
  fold_left (fun d kv => <[kv.1 := kv.2]> d) items ∅.

(** [items = []; for i in keys: items += class_dict[i].items()] followed
    by [dict(items)]. *)
Definition flatten_groups (class_dict : class_data) (keys : list string)
  : result (gmap pyname member) :=
  items ← for_loop
    (fun items i =>
       sec ← getitem (sections class_dict) i;
       Ok (items ++ map_to_list sec))
    keys [];
  Ok (dict_of_items items).

(** ** The wrappers of [textwrap] *)

Record TextWrapper : Type := {
  width : nat;
  initial_indent : string;
  subsequent_indent : string
}.

Definition wrap_68 : TextWrapper :=
  {| width := 68; initial_indent := EmptyString;
     subsequent_indent := EmptyString |}.
Definition wrap_64 : TextWrapper :=
  {| width := 64; initial_indent := EmptyString;
     subsequent_indent := EmptyString |}.
Definition attrib_wrap : TextWrapper :=
  {| width := 64; initial_indent := EmptyString;
     subsequent_indent := "    " |}.

Definition _overload_msg (f_type : string) : string :=
  nl +:+ "This " +:+ f_type
     +:+ " was overloaded in the C-based source. To overcome this we" +:+ nl
     +:+ "ill put the relevant docstring for each version below. Each version will begin"
     +:+ nl +:+ "with a line of # characters." +:+ nl.

(** [methods.sort(); methods.insert(1, methods.pop())]. *)
Definition order_methods (methods : list pyname) : result (list pyname) :=
  let methods := py_sort methods in
  '(last, methods) ← py_pop methods;
  Ok (py_insert 1 last methods).

Section Docstrings.

(** [fill w s] is [w.fill(s)] of [textwrap.TextWrapper]. *)
Variable fill : TextWrapper -> string -> string.

(** [w.fill(x)] where [x] may be [None]: [textwrap] calls
    [x.expandtabs()]. *)
Definition fill_text (w : TextWrapper) (x : option string) : result string :=
  match x with Some s => Ok (fill w s) | None => Raise AttributeError end.

(** *** [class_docstr] *)

(** The body of the loop over [variables]. *)
Definition class_docstr_attribute (ivars : gmap pyname member)
    (msg : string) (i : pyname) : result string :=
  iv ← getitem ivars i;
  desc ← field (briefdescription iv);
  dd ← field (detaileddescription iv);
  dd ← as_str dd;
  let desc := desc +:+ " " +:+ dd in
  ty ← field (type_ iv);
  let var_msg :=
    py_str i +:+ " (" +:+ py_str ty +:+ ") : " +:+ strip desc in
  let msg := msg +:+ fill attrib_wrap var_msg in
  Ok (msg +:+ nl).

(** The body of the loop over the ordered [methods]. *)
Definition class_docstr_method (desc_funcs : bool)
    (funcs : gmap pyname member) (msg : string) (i : pyname)
  : result string :=
  f ← getitem funcs i;
  desc ← field (briefdescription f);
  let fun_msg :=
    if (String.length desc =? 0) || negb desc_funcs then i
    else Some (py_str i +:+ " : " +:+ strip desc) in
  line ← fill_text attrib_wrap fun_msg;
  let msg := msg +:+ line in
  Ok (msg +:+ nl).

Definition class_docstr (class_dict : class_data) (desc_funcs : bool)
  : result string :=
  class_name ← last_item (split "::" (kls_name class_dict));
  pub ← getitem (sections class_dict) "public-func";
  ctor ← getitem pub (Some class_name);
  cls_msg ← field (detaileddescription ctor);
  msg ← fill_text wrap_68 cls_msg;
  let methods := list_of_set (members_methods class_dict) in
  let variables := members_variables class_dict in
  let ivar_keys := List.filter (str_in "attrib") (class_keys class_dict) in
  let func_grp_keys := List.filter (str_in "func") (class_keys class_dict) in
  ivars ← flatten_groups class_dict ivar_keys;
  funcs ← flatten_groups class_dict func_grp_keys;
  let msg := msg +:+ nl +:+ nl in
  let msg := msg +:+ fill wrap_68 "Attributes" in
  let msg := msg +:+ nl in
  let msg := msg +:+ fill wrap_68 "----------" in
  let msg := msg +:+ nl in
  msg ← for_loop (class_docstr_attribute ivars) variables msg;
  let msg := msg +:+ nl +:+ nl in
  let msg := msg +:+ fill wrap_68 "Methods" in
  let msg := msg +:+ nl in
  let msg := msg +:+ fill wrap_68 "-------" in
  let msg := msg +:+ nl in
  methods ← order_methods methods;
  msg ← for_loop (class_docstr_method desc_funcs funcs) methods msg;
  let msg := msg +:+ nl in
  let msg := msg +:+ fill wrap_68 "Notes" in
  let msg := msg +:+ nl in
  let msg := msg +:+ fill wrap_68 "-----" in
  let msg := msg +:+ nl in
  let def_msg := "This class was defined in " +:+ file_name class_dict in
  let msg := msg +:+ fill wrap_68 def_msg in
  let msg := msg +:+ nl +:+ nl in
  let msg := msg +:+ fill wrap_68
    ("The class is found in the " +:+ dquote +:+ namespace class_dict
       +:+ dquote +:+ " namespace") in
  Ok msg.

(** *** [func_docstr] *)

(** [params]: the literal ['None'] without parameters, else one text per
    parameter, the description on a line of its own. *)
Definition func_docstr_param (arg : pyname) (e : arg_entry) : string :=
  let arg_str := py_str arg +:+ " : " +:+ py_str (a_type e) in
  match a_desc e with
  | Some d => arg_str +:+ nl +:+ py_str d
  | None => arg_str
  end.
Definition func_docstr_params (args : option (gmap pyname arg_entry))
  : list string :=
  match args with
  | None => ["None"]
  | Some args =>
      List.map (fun kv => func_docstr_param kv.1 kv.2) (map_to_list args)
  end.

(** [rets]: the literal ['None'] without a return type, else the entry
    [res1].  The return type is a text, so the branch of the source for
    a value that is no [str] is not taken. *)
Definition func_docstr_rets (returning : option string) : list string :=
  match returning with
  | None => ["None"]
  | Some r => ["res" +:+ pretty 1 +:+ " : " +:+ r]
  end.

(** The body of the loop that adds the parameters. *)
Definition func_docstr_add_param (wrapper : TextWrapper) (msg : string)
    (p : string) : result string :=
  let lines := splitlines p in
  l0 ← first_item lines;
  let msg := msg +:+ fill wrapper l0 in
  let msg := msg +:+ nl in
  let msg := fold_left (fun msg l => msg +:+ fill wrapper l) (tail lines) msg in
  let more := negb (List.length (tail lines) =? 0) in
  Ok (if more then msg +:+ nl +:+ nl else msg +:+ nl).

(** The body of the loop that adds the return values. *)
Definition func_docstr_add_ret (wrapper : TextWrapper) (msg : string)
    (r : string) : result string :=
  let lines := splitlines r in
  l0 ← first_item lines;
  let msg := msg +:+ fill wrapper l0 in
  let msg := msg +:+ nl in
  let msg := fold_left (fun msg l => msg +:+ fill wrapper l) (tail lines) msg in
  Ok (msg +:+ nl).

Definition func_docstr (func_dict : member) (is_method : bool)
  : result string :=
  let wrapper := if is_method then wrap_64 else wrap_68 in
  detailed_desc ← field (detaileddescription func_dict);
  brief_desc ← field (briefdescription func_dict);
  detailed_desc ← as_str detailed_desc;
  let desc := strip (join (nl +:+ nl) [brief_desc; detailed_desc]) in
  args ← field (args func_dict);
  let params := func_docstr_params args in
  returning ← field (ret_type func_dict);
  let rets := func_docstr_rets returning in
  let msg := fill wrapper desc in
  let msg := msg +:+ nl +:+ nl in
  let msg := msg +:+ fill wrapper "Parameters" in
  let msg := msg +:+ nl in
  let msg := msg +:+ fill wrapper "----------" in
  let msg := msg +:+ nl in
  msg ← for_loop (func_docstr_add_param wrapper) params msg;
  let msg := msg +:+ fill wrapper "Returns" in
  let msg := msg +:+ nl in
  let msg := msg +:+ fill wrapper "-------" in
  let msg := msg +:+ nl in
  for_loop (func_docstr_add_ret wrapper) rets msg.

End Docstrings.

(** ** The name index ([parse_index_xml]) *)

Record kls_entry : Type := {
  k_file_name : string;
  k_namespace : string;
  k_vars : list pyname;
  k_methods : list pyname
}.

Record func_entry : Type := {
  f_file_name : string;
  f_refid : string;
  f_namespace : pyname
}.

(** [os.path.sep]. *)
Definition sep : string := "/".

(** [filter(lambda i: i.attrib['kind'] == k, l)]. *)
Definition of_kind (k : string) (l : list element) : result (list element) :=
  filter_raising
    (fun i => kind ← getitem (attrib i) "kind"; Ok (String.eqb kind k)) l.

(** The body of the loop over the functions of a namespace;
    [f_name_cnts] counts the names seen in the namespace. *)
Definition index_function (ns_file_name : string) (ns_name : pyname)
    (st : gmap pyname nat * gmap pyname func_entry) (k : element)
  : result (gmap pyname nat * gmap pyname func_entry) :=
  let '(f_name_cnts, funcs) := st in
  f_name ← find_text "name" k;
  refid ← getitem (attrib k) "refid";
  '(f_name, f_name_cnts) ←
    match f_name_cnts !! f_name with
    | Some cnt =>
        orig ← as_str f_name;
        Ok (Some (orig +:+ pretty cnt), <[Some orig := S cnt]> f_name_cnts)
    | None => Ok (f_name, <[f_name := 1]> f_name_cnts)
    end;
  Ok (f_name_cnts,
      <[f_name := {| f_file_name := ns_file_name; f_refid := refid;
                     f_namespace := ns_name |}]> funcs).

(** The body of the loop over the namespaces. *)
Definition index_namespace (funcs : gmap pyname func_entry) (i : element)
  : result (gmap pyname func_entry) :=
  ns_name ← find_text "name" i;
  let ns_file_name := "namespace" +:+ py_str ns_name +:+ ".xml" in
  ns_funcs ← of_kind "function" (iter "member" i);
  '(_, funcs) ← for_loop (index_function ns_file_name ns_name) ns_funcs (∅, funcs);
  Ok funcs.

(** The body of the loop over the members of a class. *)
Definition index_member (kls_dict : kls_entry) (mem : element)
  : result kls_entry :=
  mem_name ← find_text "name" mem;
  kind ← getitem (attrib mem) "kind";
  if String.eqb kind "variable" then
    Ok {| k_file_name := k_file_name kls_dict;
          k_namespace := k_namespace kls_dict;
          k_vars := k_vars kls_dict ++ [mem_name];
          k_methods := k_methods kls_dict |}
  else if String.eqb kind "function" then
    Ok {| k_file_name := k_file_name kls_dict;
          k_namespace := k_namespace kls_dict;
          k_vars := k_vars kls_dict;
          k_methods := k_methods kls_dict ++ [mem_name] |}
  else Ok kls_dict.

(** The body of the loop over the classes. *)
Definition index_class (classes : gmap string kls_entry) (kls : element)
  : result (gmap string kls_entry) :=
  name ← find_text "name" kls;
  name ← attr_of name;
  let kls_defn := split "::" name in
  let kls_ns := join "::" (all_but_last kls_defn) in
  kls_name ← last_item kls_defn;
  file_name ← getitem (attrib kls) "refid";
  let kls_dict := {| k_file_name := file_name; k_namespace := kls_ns;
                     k_vars := []; k_methods := [] |} in
  kls_dict ← for_loop index_member (iter "member" kls) kls_dict;
  Ok (<[kls_name := kls_dict]> classes).

(** ** Parsing the files of dOxygen *)

(** A cell for the variable [mem_dict] of [parse_class] and the member
    dictionaries it has named so far.  The dictionaries are objects:
    [objects] maps a reference to the dictionary it holds, and a section
    maps a member name to a reference. *)
Record class_parse : Type := {
  objects : gmap nat member;
  mem_dict_var : option nat
}.

Definition new_object (m : member) (st : class_parse) : class_parse :=
  let r := fresh (dom (objects st)) in
  {| objects := <[r := m]> (objects st); mem_dict_var := Some r |}.

(** The renaming loop of [parse_class]:
    [i = 1; while mem_name in sec_dict.keys(): ...].  [None] stands for
    a loop that has not ended after [fuel] tests. *)
Fixpoint mem_name_loop {V} (fuel : nat) (sec_dict : gmap pyname V) (i : nat)
    (mem_name : pyname) : option (result pyname) :=
  match fuel with
  | O => None
  | S fuel' =>
      match sec_dict !! mem_name with
      | Some _ =>
          match mem_name with
          | Some s =>
              let s := if 1 <? i then drop_last s else s in
              mem_name_loop fuel' sec_dict (S i) (Some (s +:+ pretty i))
          | None => Some (Raise TypeError)
          end
      | None => Some (Ok mem_name)
      end
  end.

(** The longest key of a section, as a bound for the loop. *)
Definition longest_key {V} (sec_dict : gmap pyname V) : nat :=
  list_max (List.map (fun k => String.length (py_str k))
              (map_to_list sec_dict).*1).

Definition mem_name_fuel {V} (sec_dict : gmap pyname V) : nat :=
  longest_key sec_dict + 11.

(** The key under which [parse_class] stores a member. *)
Definition mem_key {V} (sec_dict : gmap pyname V) (mem_name : pyname)
  : result pyname :=
  match mem_name_loop (mem_name_fuel sec_dict) sec_dict 1 mem_name with
  | Some r => r
  | None => Raise LoopBound
  end.

Section Files.

(** [read_xml path] is [etree.parse(path)]: the root element of the
    file, or [IOError].  [parse_class] first rewrites its file with
    [fix_xml_links], which removes the links from the types of the
    parameters; for such a file [read_xml] is the tree of the file as
    rewritten. *)
Variable read_xml : string -> result element.

Definition parse_index_xml (index_path : string)
  : result (gmap string kls_entry * gmap pyname func_entry) :=
  index_path ←
    (if endswith index_path "index.xml" then Ok index_path
     else
       match index_path with
       | EmptyString => Raise IndexError
       | _ =>
           if endswith index_path sep then Ok (index_path +:+ "index.xml")
           else Ok (index_path +:+ sep +:+ "index.xml")
       end);
  root ← read_xml index_path;
  class_list ← of_kind "class" (iter "compound" root);
  namespaces ← of_kind "namespace" (iter "compound" root);
  funcs ← for_loop index_namespace namespaces ∅;
  classes ← for_loop index_class class_list ∅;
  Ok (classes, funcs).

Definition parse_function (func_dict : func_entry) : result member :=
  root ← read_xml (f_file_name func_dict);
  let f_id := f_refid func_dict in
  compd_def ← attr_of (find "compounddef" root);
  secs ← of_kind "func" (iter "sectiondef" compd_def);
  func_sec ← first_item secs;
  funs ← filter_raising
    (fun x => id ← getitem (attrib x) "id"; Ok (String.eqb id f_id))
    (iter "memberdef" func_sec);
  this_func ← first_item funs;
  ret_dict ← _parse_func this_func;
  _parse_common this_func ret_dict.

(** The body of the loop over the members of a section.  A member that
    is neither a function nor a variable leaves the variable [mem_dict]
    as it is: unbound for the first member of the class, else bound to
    the dictionary of the member before, which [_parse_common] then
    updates in place. *)
Definition parse_class_member (st : class_parse * gmap pyname nat)
    (mem : element) : result (class_parse * gmap pyname nat) :=
  let '(objs, sec_dict) := st in
  m_kind ← getitem (attrib mem) "kind";
  objs ←
    (if String.eqb m_kind "function" then
       mem_dict ← _parse_func mem; Ok (new_object mem_dict objs)
     else if String.eqb m_kind "variable" then
       mem_dict ← _parse_variable mem; Ok (new_object mem_dict objs)
     else Ok objs);
  r ← match mem_dict_var objs with Some r => Ok r | None => Raise NameError end;
  the_dict ← getitem (objects objs) r;
  the_dict ← _parse_common mem the_dict;
  let objs := {| objects := <[r := the_dict]> (objects objs);
                 mem_dict_var := Some r |} in
  mem_name ← find_text "name" mem;
  mem_name ← mem_key sec_dict mem_name;
  Ok (objs, <[mem_name := r]> sec_dict).

(** The body of the loop over the sections. *)
Definition parse_class_section
    (st : class_parse * gmap string (gmap pyname nat)) (sec : element)
  : result (class_parse * gmap string (gmap pyname nat)) :=
  let '(objs, data) := st in
  sec_name ← getitem (attrib sec) "kind";
  '(objs, sec_dict) ← for_loop parse_class_member (iter "memberdef" sec) (objs, ∅);
  Ok (objs, <[sec_name := sec_dict]> data).

(** The dictionaries behind the references of a section. *)
Definition deref (objs : class_parse) (sec_dict : gmap pyname nat)
  : gmap pyname member :=
  omap (fun r => objects objs !! r) sec_dict.

Definition parse_class (class_dict : kls_entry) : result class_data :=
  let fn := k_file_name class_dict +:+ ".xml" in
  croot ← read_xml fn;
  compd_def ← attr_of (find "compounddef" croot);
  '(objs, data) ← for_loop parse_class_section (iter "sectiondef" compd_def)
                    ({| objects := ∅; mem_dict_var := None |}, ∅);
  name ← find_text "compoundname" compd_def;
  loc ← attr_of (find "location" compd_def);
  file ← getitem (attrib loc) "file";
  c_fn ← last_item (split sep file);
  name ← attr_of name;
  let ns := join "::" (all_but_last (split "::" name)) in
  Ok {| sections := deref objs <$> foldr delete data meta_keys;
        kls_name := name;
        members_methods := k_methods class_dict;
        members_variables := k_vars class_dict;
        file_name := c_fn;
        namespace := ns |}.

End Files.

(** ** The registry of the pipeline ([rc.env]) *)

(** An item of [rc.classes] or [rc.functions]: a tuple whose item 0 is the
    name of the class or function and whose item 2 is its module. *)
Record api_tuple : Type := {
  item0 : string;
  item1 : string;
  item2 : string
}.

(** [rc.env[mod][name]['docstrings']]: the keys ['class'] and ['methods']. *)
Record docstrings : Type := {
  ds_class : option string;
  ds_methods : option (gmap string string)
}.

(** [rc.env[mod][name]]: of the keys of a description the plugin reads
    ['methods'] (a dictionary keyed by tuples that start with the name of
    the method; [d_methods] lists its keys) and writes ['docstrings'] and
    ['docstring'].  A field is [None] while its key is absent. *)
Record description : Type := {
  d_methods : option (list (string * list (string * string)));
  d_docstrings : option docstrings;
  d_docstring : option string
}.

Definition set_docstrings (ds : docstrings) (d : description) : description :=
  {| d_methods := d_methods d; d_docstrings := Some ds;
     d_docstring := d_docstring d |}.
Definition set_docstring (s : string) (d : description) : description :=
  {| d_methods := d_methods d; d_docstrings := d_docstrings d;
     d_docstring := Some s |}.

Abbreviation registry := (gmap string (gmap string description)).

(** [env[mod][name]] and the assignment to it. *)
Definition env_get (env : registry) (mod_ name : string) : result description :=
  m ← getitem env mod_; getitem m name.
Definition env_set (env : registry) (mod_ name : string) (d : description)
  : registry :=
  match env !! mod_ with
  | Some m => <[mod_ := <[name := d]> m]> env
  | None => env
  end.

(** The state of a run: the index of the classes (whose entries the loop
    over the classes updates), the registry and the lines printed. *)
Record run : Type := {
  classes : gmap string kls_entry;
  env : registry;
  out : list string
}.

Definition print (line : string) (st : run) : run :=
  {| classes := classes st; env := env st; out := out st ++ [line] |}.
Definition with_env (e : registry) (st : run) : run :=
  {| classes := classes st; env := e; out := out st |}.
Definition with_classes (c : gmap string kls_entry) (st : run) : run :=
  {| classes := c; env := env st; out := out st |}.

(** The left operand of [in] and the key of a lookup in the loop over the
    functions: a string or a tuple. *)
Inductive operand : Type :=
| Str (s : string)
| Tuple (t : api_tuple).

(** [item in x] for a key [x] of the index: Python raises [TypeError] for
    a tuple on the left of a string, and for [None] on the right. *)
Definition py_in (item : operand) (x : pyname) : result bool :=
  match x, item with
  | Some s, Str sub => Ok (str_in sub s)
  | Some _, Tuple _ => Raise TypeError
  | None, _ => Raise TypeError
  end.

(** [funcs[k]]: no key of the index is a tuple. *)
Definition py_getitem {V} (funcs : gmap pyname V) (k : operand) : result V :=
  match k with
  | Str s => getitem funcs (Some s)
  | Tuple _ => Raise KeyError
  end.

(** [try: r / except KeyError: h]. *)
Definition except_KeyError {A} (r : result A) (h : result A) : result A :=
  match r with
  | Raise KeyError => h
  | _ => r
  end.

Section Plugin.

Variable fill : TextWrapper -> string -> string.
Variable read_xml : string -> result element.

(** The matches of a method name [m]: the members of the function
    groups whose key starts with [m]. *)
Definition method_matches (parsed : class_data) (func_grp_keys : list string)
    (m : string) : result (list member) :=
  for_loop
    (fun matches key =>
       except_KeyError
         (sec ← getitem (sections parsed) key;
          m_names ← filter_raising
            (fun x => x ← attr_of x; Ok (startswith x m))
            (map_to_list sec).*1;
          found ← for_each (getitem sec) m_names;
          Ok (matches ++ found))
         (Ok matches))
    func_grp_keys [].

Definition store_method (m m_ds : string) (d : description)
  : result description :=
  ds ← field (d_docstrings d);
  meths ← field (ds_methods ds);
  Ok (set_docstrings
        {| ds_class := ds_class ds; ds_methods := Some (<[m := m_ds]> meths) |}
        d).

(** The body of the loop over [rc_methods]; [d] is
    [rc.env[kls_mod][kls]]. *)
Definition execute_method (parsed : class_data) (func_grp_keys : list string)
    (st : description * list string) (m : string)
  : result (description * list string) :=
  let '(d, printed) := st in
  matches ← method_matches parsed func_grp_keys m;
  if List.length matches =? 1 then
    m0 ← first_item matches;
    m_ds ← func_docstr fill m0 true;
    d ← store_method m m_ds d;
    Ok (d, printed)
  else if 1 <? List.length matches then
    ds_list ← for_each (fun i => func_docstr fill i true) matches;
    let m_ds := _overload_msg "method" in
    let m_ds := fill wrap_64 m_ds in
    let m_ds := m_ds +:+ nl +:+ nl in
    let ds := join (str_repeat "#" 64 +:+ nl +:+ nl) ds_list in
    let m_ds := m_ds +:+ ds in
    d ← store_method m m_ds d;
    Ok (d, printed)
  else
    Ok (d, printed ++
          ["Couldn't find method " +:+ m +:+ " in xml. Skipping it"
             +:+ " - it will not appear in wrapper docstrings."]).

(** The body of the loop over [rc.classes]. *)
Definition execute_class (build_dir : string) (st : run) (c : api_tuple)
  : result run :=
  let kls := item0 c in
  let kls_mod := item2 c in
  match classes st !! kls with
  | None =>
      Ok (print ("Couldn't find class " +:+ kls +:+ " in xml. Skipping it - "
                   +:+ "it will not appear in wrapper docstrings.") st)
  | Some this_kls =>
      let prepend_fn := build_dir +:+ sep +:+ "xml" +:+ sep in
      let this_kls :=
        {| k_file_name := prepend_fn +:+ k_file_name this_kls;
           k_namespace := k_namespace this_kls;
           k_vars := k_vars this_kls;
           k_methods := k_methods this_kls |} in
      let st := with_classes (<[kls := this_kls]> (classes st)) st in
      parsed ← parse_class read_xml this_kls;
      d ← env_get (env st) kls_mod kls;
      let d :=
        match d_docstrings d with
        | None => set_docstrings {| ds_class := None; ds_methods := Some ∅ |} d
        | Some _ => d
        end in
      cls_ds ← class_docstr fill parsed false;
      ds ← field (d_docstrings d);
      let d := set_docstrings
                 {| ds_class := Some cls_ds; ds_methods := ds_methods ds |} d in
      methods ← field (d_methods d);
      let rc_methods := methods.*1 in
      let func_grp_keys := List.filter (str_in "func") (class_keys parsed) in
      '(d, printed) ← for_loop (execute_method parsed func_grp_keys)
                        rc_methods (d, out st);
      Ok {| classes := classes st; env := env_set (env st) kls_mod kls d;
            out := printed |}
  end.

(** The body of the loop over [rc.functions]. *)
Definition execute_function (funcs : gmap pyname func_entry) (st : run)
    (f : api_tuple) : result run :=
  let func := item0 f in
  let func_mod := item2 f in
  matches ← filter_raising (fun x => py_in (Tuple f) x) (map_to_list funcs).*1;
  (* [filter] returns a list, which is not [None] *)
  match Some matches with
  | Some matches =>
      '(f_ds, st) ←
        (if List.length matches =? 1 then
           fd ← py_getitem funcs (Tuple f);
           parsed ← parse_function read_xml fd;
           f_ds ← func_docstr fill parsed false;
           Ok (f_ds, st)
         else
           let st := print "HERE OVERLOADING!" st in
           ds_list ← for_each
             (fun i =>
                fd ← getitem funcs i;
                parsed ← parse_function read_xml fd;
                func_docstr fill parsed false)
             matches;
           let f_ds := _overload_msg "function" in
           let f_ds := fill wrap_68 f_ds in
           let f_ds := f_ds +:+ nl +:+ nl in
           let ds := join (nl +:+ nl +:+ str_repeat "#" 72 +:+ nl +:+ nl)
                       ds_list in
           Ok (f_ds +:+ ds, st));
      d ← env_get (env st) func_mod func;
      Ok (with_env (env_set (env st) func_mod func (set_docstring f_ds d)) st)
  | None =>
      Ok (print ("Couldn't find function " +:+ func +:+ " in xml. Skipping it"
                   +:+ " - it will not appear in wrapper docstrings.") st)
  end.

(** [execute], from the parse of the index on: the registry and the
    lines printed when no exception is raised. *)
Definition execute (build_dir : string) (rc_classes rc_functions : list api_tuple)
    (rc_env : registry) : result (registry * list string) :=
  let printed := ["doxygen: Running dOxygen"] in
  let xml_dir := build_dir +:+ sep +:+ "xml" in
  let printed := printed ++ ["doxygen: Adding dOxygen to docstrings"] in
  '(classes, funcs) ← parse_index_xml read_xml (xml_dir +:+ sep +:+ "index.xml");
  st ← for_loop (execute_class build_dir) rc_classes
         {| classes := classes; env := rc_env; out := printed |};
  st ← for_loop (execute_function funcs) rc_functions st;
  Ok (env st, out st).

End Plugin.

(** ** [merge_configs]

    The configurations are dictionaries that the caller holds by
    reference: a heap maps a reference to the dictionary it holds.  A
    value of the configuration is a string or a boolean. *)

Inductive config_value : Type :=
| CStr (s : string)
| CBool (b : bool).

Abbreviation config := (gmap string config_value).

(** [dict(old)]: a new dictionary with the items of [old]. *)
Definition dict_copy (old : nat) (h : gmap nat config) : option (nat * gmap nat config) :=
  m ← h !! old;
  let d := fresh (dom h) in
  Some (d, <[d := m]> h).

(** [d.update(new)]: every item of [new] is stored in [d]. *)
Definition dict_update (d new : nat) (h : gmap nat config) : option (gmap nat config) :=
  target ← h !! d;
  items ← h !! new;
  Some (<[d := items ∪ target]> h).

(** [merge_configs old new] on a heap in which both references are
    allocated ([None] otherwise): the reference returned and the heap
    after the call. *)
Definition merge_configs (old new : nat) (h : gmap nat config)
  : option (nat * gmap nat config) :=
  '(d, h) ← dict_copy old h;
  h ← dict_update d new h;
  Some (d, h).

(** ** A wrapper to run the renderers

    [textwrap] is not part of the module.  [greedy_fill] follows its
    greedy algorithm (whitespace becomes a blank, a line takes the chunks
    that fit, the whitespace at a break is dropped, lines are joined by a
    newline) and serves as the [fill] of the examples; unlike [textwrap]
    it neither breaks at hyphens nor breaks a word longer than a line. *)

Fixpoint chunks_go (cur : string) (cur_blank : bool) (s : string)
  : list string :=
  match s with
  | EmptyString =>
      match cur with EmptyString => [] | _ => [str_rev cur] end
  | String c s' =>
      let blank := is_space c in
      let c' := if blank then " "%char else c in
      match cur with
      | EmptyString => chunks_go (String c' EmptyString) blank s'
      | _ =>
          if Bool.eqb blank cur_blank then chunks_go (String c' cur) blank s'
          else str_rev cur :: chunks_go (String c' EmptyString) blank s'
      end
  end.
Definition chunks (s : string) : list string := chunks_go EmptyString false s.

Definition is_blank (chunk : string) : bool :=
  match chunk with String c _ => is_space c | EmptyString => false end.

(** The line made of the chunks [cur] (the last one first), without the
    whitespace at its end; no line when nothing is left. *)
Definition close_line (indent : string) (cur : list string) : list string :=
  let cur :=
    match cur with
    | c :: rest => if is_blank c then rest else cur
    | [] => []
    end in
  match cur with
  | [] => []
  | _ => [indent +:+ String.concat EmptyString (List.rev cur)]
  end.

Fixpoint wrap_go (w : TextWrapper) (first : bool) (cur : list string)
    (cur_len : nat) (l : list string) : list string :=
  let indent := if first then initial_indent w else subsequent_indent w in
  let room := width w - String.length indent in
  match l with
  | [] => close_line indent cur
  | c :: l' =>
      if is_blank c && negb first && (List.length cur =? 0) then
        wrap_go w first cur cur_len l'
      else if cur_len + String.length c <=? room then
        wrap_go w first (c :: cur) (cur_len + String.length c) l'
      else
        let done := close_line indent cur in
        let first := first && (List.length done =? 0) in
        done ++
          (if is_blank c then wrap_go w first [] 0 l'
           else wrap_go w first [c] (String.length c) l')
  end.

Definition greedy_fill (w : TextWrapper) (s : string) : string :=
  join nl (wrap_go w true [] 0 (chunks s)).

(** ** Well-formed fragments

    What the parsers read from a fragment, as partial functions of the
    fragment: the name and type of a [param], the name and description of
    a [parameteritem]. *)

Definition declared (param : element) : option (pyname * option string) :=
  d ← find "declname" param;
  t ← find "type" param;
  Some (text d, text t).

Definition listed (i : element) : option (pyname * option string) :=
  names ← find "parameternamelist" i;
  n ← find "parametername" names;
  descr ← find "parameterdescription" i;
  p ← find "para" descr;
  Some (text n, text p).

(** The part of a function fragment outside its descriptions: a return
    type, the string of the arguments and, for each parameter, a declared
    name and a type. *)
Definition signature_ok (f_xml : element) : Prop :=
  is_Some (find "type" f_xml)
  /\ is_Some (find "argsstring" f_xml)
  /\ Forall (fun p => is_Some (declared p)) (findall "param" f_xml).


(** ** Example fragments

    Fragments as dOxygen writes them, for the examples below. *)

Definition node (t : string) (cs : list element) : element :=
  Element t ∅ None cs.
Definition leaf (t s : string) : element := Element t ∅ (Some s) [].
Definition with_kind (t kind : string) (cs : list element) : element :=
  Element t {[ "kind" := kind ]} None cs.

Definition param_xml (ty name : string) : element :=
  node "param" [leaf "type" ty; leaf "declname" name].
Definition parameteritem_xml (name desc : string) : element :=
  node "parameteritem"
    [node "parameternamelist" [leaf "parametername" name];
     node "parameterdescription" [leaf "para" desc]].

(** The [memberdef] of a function: its name, return type, parameters and
    the paragraphs of its brief and detailed descriptions. *)
Definition function_xml (name ty : string) (params brief detailed : list element)
  : element :=
  Element "memberdef" {[ "kind" := "function"; "id" := "id_" +:+ name ]} None
    ([leaf "type" ty; leaf "definition" (ty +:+ " " +:+ name);
      leaf "argsstring" "(...)"; leaf "name" name]
       ++ params
       ++ [node "briefdescription" brief;
           node "detaileddescription" detailed]).

(** [int scale(int x)], one paragraph of detail. *)
Definition one_para_detail : element :=
  node "detaileddescription" [leaf "para" "Scales the value."].
Definition one_para_fragment : element :=
  function_xml "scale" "int" [param_xml "int" "x"]
    [leaf "para" "Scale."] [leaf "para" "Scales the value."].

(** [int add(int x, int y)], both parameters documented. *)
Definition add_parameterlist : element :=
  node "parameterlist"
    [parameteritem_xml "x" "the first term";
     parameteritem_xml "y" "the second term"].
Definition add_fragment : element :=
  function_xml "add" "int" [param_xml "int" "x"; param_xml "int" "y"]
    [leaf "para" "Add."]
    [leaf "para" "Adds two numbers."; node "para" [add_parameterlist]].

(** [int neg(int x)], whose documentation also lists a name [z] that is
    no parameter of the function. *)
Definition neg_parameterlist : element :=
  node "parameterlist"
    [parameteritem_xml "x" "the number";
     parameteritem_xml "z" "not a parameter"].
Definition neg_fragment : element :=
  function_xml "neg" "int" [param_xml "int" "x"]
    [leaf "para" "Negate."]
    [leaf "para" "Negates a number."; node "para" [neg_parameterlist]].

(** [int sub(int x, int y)], of which only [x] is documented. *)
Definition sub_fragment : element :=
  function_xml "sub" "int" [param_xml "int" "x"; param_xml "int" "y"]
    [leaf "para" "Subtract."]
    [leaf "para" "Subtracts.";
     node "para" [node "parameterlist" [parameteritem_xml "x" "the minuend"]]].

(** Two configurations on a heap. *)
Definition example_heap : gmap nat config :=
  {[ 0 := {[ "PROJECT_NAME" := CStr "project"; "GENERATE_LATEX" := CStr "NO" ]};
     1 := {[ "GENERATE_LATEX" := CBool true; "EXTRACT_ALL" := CBool false ]} ]}.

(** A file system without files, and a run that starts with an empty
    index. *)
Definition no_files (path : string) : result element := Raise IOError.
Definition empty_description : description :=
  {| d_methods := None; d_docstrings := None; d_docstring := None |}.
Definition example_registry : registry :=
  {[ "mod" := {[ "Cls" := empty_description; "add" := empty_description ]} ]}.
Definition empty_index_run : run :=
  {| classes := ∅; env := example_registry; out := [] |}.
Definition cls_symbol : api_tuple :=
  {| item0 := "Cls"; item1 := "cls"; item2 := "mod" |}.
Definition add_symbol : api_tuple :=
  {| item0 := "add"; item1 := "arith"; item2 := "mod" |}.


(** The dictionary of a constructor without parameters: no ['args'], no
    return type. *)
Definition ctor_member : member :=
  {| detaileddescription := Some (Some "Builds the class.");
     ret_type := Some None;
     type_ := None;
     args := Some None;
     arg_string := Some (Some "()");
     briefdescription := Some "Constructor.";
     definition := Some (Some "Cls::Cls") |}.


(** ** Example class dictionaries *)

Definition method_member (brief detailed ret : string) : member :=
  {| detaileddescription := Some (Some detailed);
     ret_type := Some (Some ret);
     type_ := None;
     args := Some None;
     arg_string := Some (Some "()");
     briefdescription := Some brief;
     definition := Some (Some ret) |}.

Definition variable_member (brief detailed ty : string) : member :=
  {| detaileddescription := Some (Some detailed);
     ret_type := None;
     type_ := Some (Some ty);
     args := None;
     arg_string := None;
     briefdescription := Some brief;
     definition := Some (Some ty) |}.

Definition example_sections : gmap string (gmap pyname member) :=
  {[ "public-func" :=
       {[ Some "Cls" := ctor_member;
          Some "foo" := method_member "Foo it." "Does foo." "int";
          Some "~Cls" := method_member "Destructor." "Frees it." "void";
          Some "bar" := method_member "" "Does bar." "double" ]};
     "public-attrib" :=
       {[ Some "a" := variable_member "The a." "Counts." "int";
          Some "b" := variable_member "The b." "Scales." "double" ]} ]}.

(** The class of the specification: variables [a] and [b], methods [foo],
    [~Cls] and [bar]. *)
Definition example_class : class_data :=
  {| sections := example_sections;
     kls_name := "ns::Cls";
     members_methods := [Some "foo"; Some "~Cls"; Some "bar"];
     members_variables := [Some "a"; Some "b"];
     file_name := "cls.h";
     namespace := "ns" |}.

(** The same class when ['members'] also lists a variable [c] that no
    section describes. *)
Definition orphan_class : class_data :=
  {| sections := example_sections;
     kls_name := "ns::Cls";
     members_methods := [Some "foo"; Some "~Cls"; Some "bar"];
     members_variables := [Some "a"; Some "b"; Some "c"];
     file_name := "cls.h";
     namespace := "ns" |}.


(** A class with an overloaded method: dOxygen describes [Foo] twice, and
    [parse_class] has named the second description [Foo1]. *)
Definition overload_class : class_data :=
  {| sections :=
       {[ "public-func" :=
            {[ Some "Foo" := method_member "Foo of an int." "First version." "int";
               Some "Foo1" := method_member "Foo of a double." "Second version." "int";
               Some "Bar" := method_member "Bar." "Does bar." "void" ]} ]};
     kls_name := "Cls";
     members_methods := [Some "Foo"; Some "Foo"; Some "Bar"];
     members_variables := [];
     file_name := "cls.h";
     namespace := EmptyString |}.

(** The description of a class in the registry once the loop over the
    classes has made its ['docstrings'] entry. *)
Definition fresh_docstrings : description :=
  {| d_methods := Some [("Foo", []); ("Bar", []); ("Baz", [])];
     d_docstrings := Some {| ds_class := None; ds_methods := Some ∅ |};
     d_docstring := None |}.


(** ** Example files *)

(** An index without a namespace: the functions of the project are
    global, so dOxygen lists them under their files and the index of the
    free functions that [parse_index_xml] builds is empty. *)
Definition global_index : element :=
  node "doxygenindex"
    [with_kind "compound" "file"
       [leaf "name" "arith.h";
        with_kind "member" "function" [leaf "name" "add"]]].
Definition global_files (path : string) : result element :=
  if String.eqb path "build/xml/index.xml" then Ok global_index
  else Raise IOError.

(** An index with the namespace [arith] and its function [add]. *)
Definition namespace_index : element :=
  node "doxygenindex"
    [with_kind "compound" "namespace"
       [leaf "name" "arith";
        Element "member" {[ "kind" := "function"; "refid" := "id_add" ]} None
          [leaf "name" "add"]]].
Definition namespace_files (path : string) : result element :=
  if String.eqb path "build/xml/index.xml" then Ok namespace_index
  else Raise IOError.


(** A class with twelve overloads of [Foo] in one section; the brief
    description of each tells its position, from 0 on. *)
Definition overload_xml (k : nat) : element :=
  function_xml "Foo" "void" []
    [leaf "para" ("Overload " +:+ pretty k)] [leaf "para" "One of many."].
Definition twelve_overloads : element :=
  node "doxygen"
    [node "compounddef"
       [leaf "compoundname" "Cls";
        with_kind "sectiondef" "public-func" (List.map overload_xml (seq 0 12));
        Element "location" {[ "file" := "/src/cls.h" ]} None []]].
Definition twelve_files (path : string) : result element :=
  if String.eqb path "cls.xml" then Ok twelve_overloads else Raise IOError.
Definition cls_entry : kls_entry :=
  {| k_file_name := "cls"; k_namespace := EmptyString;
     k_vars := []; k_methods := [Some "Foo"] |}.

(** A class with a method [get] followed by a friend declaration, whose
    [memberdef] is of the kind [friend]. *)
Definition friend_xml : element :=
  with_kind "memberdef" "friend"
    [leaf "type" "friend class"; leaf "definition" "friend class Pal";
     leaf "name" "Pal";
     node "briefdescription" [leaf "para" "A friend."];
     node "detaileddescription" []].
Definition class_with_friend : element :=
  node "doxygen"
    [node "compounddef"
       [leaf "compoundname" "Cls";
        with_kind "sectiondef" "public-func"
          [function_xml "get" "int" [] [leaf "para" "Gets the value."]
             [leaf "para" "Reads it."]];
        with_kind "sectiondef" "friend" [friend_xml];
        Element "location" {[ "file" := "/src/cls.h" ]} None []]].
Definition friend_files (path : string) : result element :=
  if String.eqb path "cls.xml" then Ok class_with_friend else Raise IOError.


(** A section that already has [Foo], [Foo1] and [Foo2]. *)
Definition three_foos : gmap pyname nat :=
  {[ Some "Foo" := 0; Some "Foo1" := 1; Some "Foo2" := 2 ]}.

(** The class of the specification without any method in its index
    entry. *)
Definition class_without_methods : class_data :=
  {| sections := example_sections;
     kls_name := "ns::Cls";
     members_methods := [];
     members_variables := [Some "a"; Some "b"];
     file_name := "cls.h";
     namespace := "ns" |}.

(** ** [setup]

    [rc.doxygen_config] is a reference to a configuration on the heap;
    [rc_params] is a dictionary of the call's own, so only its items
    matter.  [None] when the reference is not allocated. *)
Definition setup (doxygen_config : nat) (package builddir sourcedir : config_value)
    (h : gmap nat config) : option (gmap nat config) :=
  let rc_params : config :=
    {[ "PROJECT_NAME" := package;
       "OUTPUT_DIRECTORY" := builddir;
       "INPUT" := sourcedir ]} in
  target ← h !! doxygen_config;
  Some (<[doxygen_config := rc_params ∪ target]> h).

(** A class whose first section holds an enumeration: dOxygen writes the
    section of the public types before the section of the methods. *)
Definition enum_xml : element :=
  with_kind "memberdef" "enum"
    [leaf "name" "Colour";
     node "briefdescription" [leaf "para" "The colours."];
     node "detaileddescription" []].
Definition class_with_enum : element :=
  node "doxygen"
    [node "compounddef"
       [leaf "compoundname" "Cls";
        with_kind "sectiondef" "public-type" [enum_xml];
        with_kind "sectiondef" "public-func"
          [function_xml "get" "int" [] [leaf "para" "Gets the value."]
             [leaf "para" "Reads it."]];
        Element "location" {[ "file" := "/src/cls.h" ]} None []]].
Definition enum_files (path : string) : result element :=
  if String.eqb path "cls.xml" then Ok class_with_enum else Raise IOError.

(** A class dictionary whose section of the methods has no entry under
    the name of the class: the class declares no constructor. *)
Definition class_without_ctor : class_data :=
  {| sections :=
       {[ "public-func" :=
            {[ Some "get" := method_member "Gets the value." "Reads it." "int" ]} ]};
     kls_name := "ns::Cls";
     members_methods := [Some "get"];
     members_variables := [];
     file_name := "cls.h";
     namespace := "ns" |}.

(** A namespace with three functions named [add]. *)
Definition member_xml (name refid : string) : element :=
  Element "member" {[ "kind" := "function"; "refid" := refid ]} None
    [leaf "name" name].
Definition overloads_namespace : element :=
  with_kind "compound" "namespace"
    [leaf "name" "arith";
     member_xml "add" "id_add_a";
     member_xml "add" "id_add_b";
     member_xml "add" "id_add_c"].

(** The file of the namespace [arith], with the function [add]. *)
Definition arith_namespace : element :=
  node "doxygen"
    [node "compounddef" [with_kind "sectiondef" "func" [add_fragment]]].
Definition arith_files (path : string) : result element :=
  if String.eqb path "namespacearith.xml" then Ok arith_namespace
  else Raise IOError.
Definition add_entry : func_entry :=
  {| f_file_name := "namespacearith.xml"; f_refid := "id_add";
     f_namespace := Some "arith" |}.

(** A documented class with a constructor and a method, its file as
    dOxygen writes it under the build directory, and a run whose index
    and registry know the class. *)
Definition documented_class : element :=
  node "doxygen"
    [node "compounddef"
       [leaf "compoundname" "Cls";
        with_kind "sectiondef" "public-func"
          [function_xml "Cls" EmptyString [] [leaf "para" "Constructor."]
             [leaf "para" "Builds the class."];
           function_xml "get" "int" [] [leaf "para" "Gets the value."]
             [leaf "para" "Reads it."]];
        Element "location" {[ "file" := "/src/cls.h" ]} None []]].
Definition documented_files (path : string) : result element :=
  if String.eqb path "build/xml/cls.xml" then Ok documented_class
  else Raise IOError.
Definition indexed_run : run :=
  {| classes :=
       {[ "Cls" := {| k_file_name := "cls"; k_namespace := EmptyString;
                      k_vars := []; k_methods := [Some "Cls"; Some "get"] |} ]};
     env :=
       {[ "mod" :=
            {[ "Cls" := {| d_methods := Some [("get", []); ("set", [])];
                           d_docstrings := None; d_docstring := None |};
               "add" := empty_description ]} ]};
     out := [] |}.

(** ** [dox_dict2str]

    The text of the doxyfile: a line [OPTION = value] for each item of the
    configuration, in the order of the dictionary, with [YES] and [NO] for
    the booleans; the text is stripped at the end.  [upper] is
    [str.upper()] on the letters of ASCII. *)

Definition upper_char (c : ascii) : ascii :=
  let n := nat_of_ascii c in
  if (97 <=? n) && (n <=? 122) then ascii_of_nat (n - 32) else c.
Fixpoint upper (s : string) : string :=
  match s with
  | EmptyString => EmptyString
  | String c s' => String (upper_char c) (upper s')
  end.

(** The value as the line shows it. *)
Definition dox_value (value : config_value) : string :=
  match value with
  | CBool true => "YES"
  | CBool false => "NO"
  | CStr s => s
  end.

(** [new_line.format(option=key.upper(), value=_value)]. *)
Definition new_line (key : string) (value : config_value) : string :=
  upper key +:+ " = " +:+ dox_value value +:+ nl.

Definition dox_dict2str (dox_dict : config) : string :=
  let s :=
    fold_left (fun s kv => s +:+ new_line kv.1 kv.2) (map_to_list dox_dict)
      EmptyString in
  strip s.

(** A configuration with a boolean and a key in lower case. *)
Definition example_config : config :=
  {[ "generate_latex" := CBool false; "INPUT" := CStr "src" ]}.

(** Two classes named [Cls], one in the namespace [a] and one in the
    namespace [b]. *)
Definition compound_xml (name refid : string) (members : list element)
  : element :=
  Element "compound" {[ "kind" := "class"; "refid" := refid ]} None
    (leaf "name" name :: members).
Definition cls_in_a : element :=
  compound_xml "a::Cls" "classa_1_1Cls"
    [Element "member" {[ "kind" := "function" ]} None [leaf "name" "get"]].
Definition cls_in_b : element :=
  compound_xml "b::Cls" "classb_1_1Cls"
    [Element "member" {[ "kind" := "variable" ]} None [leaf "name" "size"]].

(** The [memberdef] of a variable. *)
Definition variable_xml (name ty : string) (brief detailed : list element)
  : element :=
  with_kind "memberdef" "variable"
    [leaf "type" ty; leaf "definition" (ty +:+ " " +:+ name); leaf "name" name;
     node "briefdescription" brief; node "detaileddescription" detailed].
Definition count_xml : element :=
  variable_xml "count" "int" [leaf "para" "The count."]
    [leaf "para" "Counts the items."].

(** * Properties *)

(** ** The result monad *)

Lemma bind_Ok {A B} (m : result A) (k : A -> result B) (b : B) :
  (m ≫= k) = Ok b -> exists a, m = Ok a /\ k a = Ok b.
Proof. destruct m as [a|e]; cbn; [eauto | discriminate]. Qed.

Lemma getitem_Some {K V} `{Countable K} (d : gmap K V) (k : K) (v : V) :
  d !! k = Some v -> getitem d k = Ok v.
Proof. intros Hv. unfold getitem. rewrite Hv. reflexivity. Qed.

Lemma getitem_None {K V} `{Countable K} (d : gmap K V) (k : K) :
  d !! k = None -> getitem d k = Raise KeyError.
Proof. intros Hv. unfold getitem. rewrite Hv. reflexivity. Qed.

Lemma bind_Ok_intro {A B} (m : result A) (k : A -> result B) (a : A) :
  m = Ok a -> (m ≫= k) = k a.
Proof. intros ->. reflexivity. Qed.

Lemma bind_assoc_result {A B C} (m : result A) (f : A -> result B)
    (g : B -> result C) :
  ((m ≫= f) ≫= g) = (m ≫= fun a => f a ≫= g).
Proof. destruct m; reflexivity. Qed.

Lemma for_loop_app {A S} (body : S -> A -> result S) (l1 l2 : list A) (s : S) :
  for_loop body (l1 ++ l2) s = (for_loop body l1 s ≫= for_loop body l2).
Proof.
  revert s; induction l1 as [|x l1 IH]; intros s; cbn; [reflexivity|].
  destruct (body s x) as [s'|e]; cbn; [apply IH | reflexivity].
Qed.

(** A loop whose body fails on some item, whatever the state, fails. *)
Lemma for_loop_fails {A S} (body : S -> A -> result S) (l : list A) (x : A) :
  In x l -> (forall s, exists e, body s x = Raise e) ->
  forall s, exists e, for_loop body l s = Raise e.
Proof.
  intros Hin Hx. induction l as [|y l IH]; [destruct Hin|].
  intros s. cbn. destruct Hin as [->|Hin].
  - destruct (Hx s) as [e ->]. cbn. eauto.
  - destruct (body s y) as [s'|e]; cbn; [apply IH; exact Hin | eauto].
Qed.

(** An invariant of the body is an invariant of the loop. *)
Lemma for_loop_invariant {A S} (body : S -> A -> result S) (P : S -> Prop)
    (l : list A) (s s' : S) :
  (forall s x s', P s -> body s x = Ok s' -> P s') ->
  P s -> for_loop body l s = Ok s' -> P s'.
Proof.
  intros Hbody. revert s. induction l as [|x l IH]; intros s Hs Hloop.
  - injection Hloop as <-. exact Hs.
  - cbn [for_loop] in Hloop. apply bind_Ok in Hloop as (s1 & Hx & Hloop).
    exact (IH s1 (Hbody s x s1 Hs Hx) Hloop).
Qed.

(** The exception of a sequence of steps is the exception of one of
    them. *)
Lemma bind_Raise {A B} (m : result A) (k : A -> result B) (e : exn) :
  (m ≫= k) = Raise e -> m = Raise e \/ exists a, m = Ok a /\ k a = Raise e.
Proof.
  destruct m as [a|e']; cbn; intros H.
  - right. eauto.
  - left. congruence.
Qed.

Lemma getitem_Raise {K V} `{Countable K} (d : gmap K V) (k : K) (e : exn) :
  getitem d k = Raise e -> e = KeyError.
Proof. unfold getitem. destruct (d !! k); congruence. Qed.

Lemma getitem_Ok {K V} `{Countable K} (d : gmap K V) (k : K) (v : V) :
  getitem d k = Ok v -> d !! k = Some v.
Proof. unfold getitem. destruct (d !! k); congruence. Qed.

Lemma field_Raise {A} (f : option A) (e : exn) :
  field f = Raise e -> e = KeyError.
Proof. destruct f; cbn; congruence. Qed.

Lemma field_Ok {A} (f : option A) (a : A) : field f = Ok a -> f = Some a.
Proof. destruct f; cbn; congruence. Qed.

Lemma for_loop_Raise {A S} (body : S -> A -> result S) (P : exn -> Prop)
    (l : list A) (s : S) (e : exn) :
  (forall s x e, x ∈ l -> body s x = Raise e -> P e) ->
  for_loop body l s = Raise e -> P e.
Proof.
  revert s. induction l as [|x l IH]; intros s Hbody H; [discriminate|].
  cbn [for_loop] in H. apply bind_Raise in H as [H | (s' & _ & H)].
  - exact (Hbody s x e (list_elem_of_here _ _) H).
  - apply (IH s'); [|exact H].
    intros s0 y e0 Hy. apply Hbody, list_elem_of_further, Hy.
Qed.

(** ** C8: a class that the index does not know *)

(** C8. When the class index has no entry for the name of a class of
    [rc.classes], the body of the loop over the classes raises nothing: it
    prints the diagnostic, leaves the registry as it is (so no
    ['docstrings'] entry is added) and the loop goes on with the classes
    that remain. *)
Theorem execute_class_not_in_index
    (fill : TextWrapper -> string -> string)
    (read_xml : string -> result element) (build_dir : string)
    (st : run) (c : api_tuple) (rest : list api_tuple) :
  classes st !! item0 c = None ->
  let st' :=
    print ("Couldn't find class " +:+ item0 c +:+ " in xml. Skipping it - "
             +:+ "it will not appear in wrapper docstrings.") st in
  execute_class fill read_xml build_dir st c = Ok st'
  /\ env st' = env st
  /\ classes st' = classes st
  /\ for_loop (execute_class fill read_xml build_dir) (c :: rest) st
     = for_loop (execute_class fill read_xml build_dir) rest st'.
Proof.
  intros Hmiss st'.
  assert (Hstep : execute_class fill read_xml build_dir st c = Ok st').
  { unfold execute_class. rewrite Hmiss. reflexivity. }
  split; [exact Hstep|].
  split; [reflexivity|].
  split; [reflexivity|].
  cbn [for_loop]. rewrite Hstep. reflexivity.
Qed.

(** ** C10: [merge_configs] *)

(** C10. On a heap that holds the dictionaries [o] and [n] under [old]
    and [new], [merge_configs old new] returns a reference [d] that was
    not allocated before; the dictionary under [d] has the keys of [o]
    and of [n], the value of [n] for every key of [n] and the value of
    [o] for every other key; every reference allocated before the call,
    [old] and [new] among them, holds what it held. *)
Theorem merge_configs_fresh_union
    (old new : nat) (h : gmap nat config) (o n : config) :
  h !! old = Some o ->
  h !! new = Some n ->
  exists (d : nat) (h' : gmap nat config) (m : config),
    merge_configs old new h = Some (d, h')
    /\ h !! d = None
    /\ h' !! d = Some m
    /\ dom m = dom o ∪ dom n
    /\ (forall k v, n !! k = Some v -> m !! k = Some v)
    /\ (forall k, n !! k = None -> m !! k = o !! k)
    /\ (forall r, r <> d -> h' !! r = h !! r)
    /\ h' !! old = Some o
    /\ h' !! new = Some n.
Proof.
  intros Hold Hnew.
  set (d := fresh (dom h)).
  assert (Hd : h !! d = None).
  { apply not_elem_of_dom. apply is_fresh. }
  assert (Hdo : d <> old) by (intros ->; congruence).
  assert (Hdn : d <> new) by (intros ->; congruence).
  exists d, (<[d := n ∪ o]> (<[d := o]> h)), (n ∪ o).
  split.
  { unfold merge_configs, dict_copy. rewrite Hold. cbn. fold d.
    unfold dict_update. rewrite lookup_insert_eq. cbn.
    rewrite lookup_insert_ne by exact Hdn. rewrite Hnew. reflexivity. }
  split; [exact Hd|].
  split; [apply lookup_insert_eq|].
  split; [rewrite dom_union_L; apply (comm_L (∪))|].
  split; [intros k v Hk; apply lookup_union_Some_l; exact Hk|].
  split; [intros k Hk; apply lookup_union_r; exact Hk|].
  assert (Hframe : forall r, r <> d ->
            <[d := n ∪ o]> (<[d := o]> h) !! r = h !! r).
  { intros r Hr. rewrite !lookup_insert_ne by congruence. reflexivity. }
  split; [exact Hframe|].
  split; [rewrite Hframe by congruence; exact Hold
         |rewrite Hframe by congruence; exact Hnew].
Qed.

(** ** [_parse_func]: the descriptions of the parameters *)

Lemma find_text_Some (t : string) (e c : element) :
  find t e = Some c -> find_text t e = Ok (text c).
Proof. intros H. unfold find_text. rewrite H. reflexivity. Qed.

Lemma declared_Some (p : element) (n : pyname) (t : option string) :
  declared p = Some (n, t) ->
  find_text "declname" p = Ok n /\ find_text "type" p = Ok t.
Proof.
  unfold declared. intros H.
  destruct (find "declname" p) as [d|] eqn:Hd; [|discriminate].
  destruct (find "type" p) as [ty|] eqn:Ht; [|discriminate].
  cbn in H. injection H as <- <-.
  split; apply find_text_Some; assumption.
Qed.

Lemma listed_Some (i : element) (n : pyname) (d : option string)
    (arg_dict : gmap pyname (option string)) :
  listed i = Some (n, d) ->
  _parse_func_item arg_dict i = Ok (<[n := d]> arg_dict).
Proof.
  unfold listed, _parse_func_item. intros H.
  destruct (find "parameternamelist" i) as [names|]; [|discriminate].
  cbn in H |- *. unfold find_text.
  destruct (find "parametername" names) as [pn|]; [|discriminate].
  cbn in H |- *.
  destruct (find "parameterdescription" i) as [descr|]; [|discriminate].
  cbn in H |- *.
  destruct (find "para" descr) as [p|]; [|discriminate].
  cbn in H |- *. injection H as <- <-. reflexivity.
Qed.

Lemma parse_func_param_None (p : element) (n : pyname) (t : option string)
    (args0 : gmap pyname arg_entry) :
  declared p = Some (n, t) ->
  _parse_func_param None args0 p
  = Ok (<[n := {| a_type := t; a_desc := None |}]> args0).
Proof.
  intros Hp. destruct (declared_Some _ _ _ Hp) as [Hn Ht].
  unfold _parse_func_param. rewrite Hn. cbn. rewrite Ht. reflexivity.
Qed.

Lemma parse_func_param_Some (p : element) (n : pyname) (t d : option string)
    (ad : gmap pyname (option string)) (args0 : gmap pyname arg_entry) :
  declared p = Some (n, t) ->
  ad !! n = Some d ->
  _parse_func_param (Some ad) args0 p
  = Ok (<[n := {| a_type := t; a_desc := Some d |}]> args0).
Proof.
  intros Hp Hd. destruct (declared_Some _ _ _ Hp) as [Hn Ht].
  unfold _parse_func_param. rewrite Hn. cbn. rewrite Ht. cbn.
  unfold getitem. rewrite Hd. reflexivity.
Qed.

(** Without [arg_dict] the loop over the parameters succeeds and no entry
    has the key ['desc']. *)
Lemma parse_func_params_no_desc (params : list element)
    (args0 : gmap pyname arg_entry) :
  Forall (fun p => is_Some (declared p)) params ->
  (forall k e, args0 !! k = Some e -> a_desc e = None) ->
  exists args,
    for_loop (_parse_func_param None) params args0 = Ok args
    /\ (forall k e, args !! k = Some e -> a_desc e = None).
Proof.
  intros Hwf. revert args0.
  induction Hwf as [|p params [[n t] Hp] _ IH]; intros args0 H0.
  - exists args0. split; [reflexivity | exact H0].
  - cbn [for_loop]. rewrite (parse_func_param_None _ _ _ _ Hp). cbn.
    apply IH. intros k e.
    destruct (decide (n = k)) as [->|Hne].
    + rewrite lookup_insert_eq. intros [= <-]. reflexivity.
    + rewrite lookup_insert_ne by exact Hne. apply H0.
Qed.

(** C5. For a function fragment with a well-formed signature whose
    detailed description does not have exactly two paragraphs, the parser
    returns a dictionary; [arg_dict] is [None] (absent, not an empty
    dictionary), so no entry of ['args'] has the key ['desc']; the
    detailed description is the text of the paragraph when there is
    exactly one, and the empty string for any other number. *)
Theorem parse_func_without_param_descriptions
    (f_xml mem_dd : element) :
  find "detaileddescription" f_xml = Some mem_dd ->
  signature_ok f_xml ->
  List.length (findall "para" mem_dd) <> 2 ->
  let mem_ddstr :=
    match findall "para" mem_dd with
    | [p0] => text p0
    | _ => Some EmptyString
    end in
  exists md,
    _parse_func f_xml = Ok md
    /\ _parse_func_detailed f_xml = Ok (mem_ddstr, None)
    /\ detaileddescription md = Some mem_ddstr
    /\ (forall a k e,
          args md = Some (Some a) -> a !! k = Some e -> a_desc e = None).
Proof.
  intros Hdd (Hty & Hargs & Hparams) Hlen mem_ddstr.
  assert (Hdet : _parse_func_detailed f_xml = Ok (mem_ddstr, None)).
  { unfold _parse_func_detailed. rewrite Hdd. cbn. subst mem_ddstr.
    destruct (findall "para" mem_dd) as [|p0 [|p1 [|p2 l]]];
      try reflexivity.
    exfalso. apply Hlen. reflexivity. }
  destruct Hty as [ty Hty]. destruct Hargs as [astr Hargs].
  destruct (parse_func_params_no_desc (findall "param" f_xml) ∅ Hparams)
    as (a & Hloop & Hnone).
  { intros k e. rewrite lookup_empty. discriminate. }
  eexists. split.
  { unfold _parse_func. rewrite Hdet. cbn.
    rewrite (find_text_Some _ _ _ Hty). cbn.
    rewrite Hloop. cbn.
    rewrite (find_text_Some _ _ _ Hargs). cbn. reflexivity. }
  split; [exact Hdet|].
  split; [reflexivity|].
  cbn. intros a' k e Ha'.
  destruct (decide (size a = 0)); [discriminate|].
  injection Ha' as <-. apply Hnone.
Qed.

(** *** Two paragraphs: the parameter list *)

Lemma fold_insert_notin {K V} `{Countable K} (l : list (K * V))
    (acc : gmap K V) (k : K) :
  k ∉ l.*1 ->
  fold_left (fun d kv => <[kv.1 := kv.2]> d) l acc !! k = acc !! k.
Proof.
  revert acc; induction l as [|[k' v] l IH]; intros acc Hk; cbn;
    [reflexivity|].
  cbn in Hk. apply not_elem_of_cons in Hk as [Hne Hk].
  rewrite IH by exact Hk. apply lookup_insert_ne. congruence.
Qed.

Lemma fold_insert_last {K V} `{Countable K} (l1 l2 : list (K * V))
    (acc : gmap K V) (k : K) (v : V) :
  k ∉ l2.*1 ->
  fold_left (fun d kv => <[kv.1 := kv.2]> d) (l1 ++ (k, v) :: l2) acc !! k
  = Some v.
Proof.
  intros Hk. rewrite fold_left_app. cbn.
  rewrite fold_insert_notin by exact Hk. apply lookup_insert_eq.
Qed.

Lemma fold_insert_in {K V} `{Countable K} (l : list (K * V))
    (acc : gmap K V) (k : K) :
  k ∈ l.*1 ->
  is_Some (fold_left (fun d kv => <[kv.1 := kv.2]> d) l acc !! k).
Proof.
  revert acc; induction l as [|[k' v] l IH]; intros acc Hk; cbn in *.
  - apply elem_of_nil in Hk. destruct Hk.
  - destruct (decide (k ∈ l.*1)) as [Hin|Hnot]; [apply IH; exact Hin|].
    apply elem_of_cons in Hk as [->|Hk]; [|contradiction].
    rewrite fold_insert_notin by exact Hnot.
    rewrite lookup_insert_eq. eauto.
Qed.

(** The loop over the items of the list is the dictionary of the items. *)
Lemma parse_func_items (items : list element)
    (acc : gmap pyname (option string)) :
  Forall (fun i => is_Some (listed i)) items ->
  for_loop _parse_func_item items acc
  = Ok (fold_left (fun d kv => <[kv.1 := kv.2]> d) (omap listed items) acc).
Proof.
  intros Hwf. revert acc.
  induction Hwf as [|i items [[n d] Hi] _ IH]; intros acc; cbn;
    [reflexivity|].
  rewrite (listed_Some _ _ _ _ Hi). cbn. rewrite Hi. cbn. apply IH.
Qed.

(** With [arg_dict] the loop over the parameters succeeds when the
    dictionary has the name of every parameter, and every entry then
    carries the description found under its name. *)
Lemma parse_func_params_desc (ad : gmap pyname (option string))
    (params : list element) (args0 : gmap pyname arg_entry) :
  Forall (fun p => exists n t, declared p = Some (n, t) /\ is_Some (ad !! n))
    params ->
  exists args,
    for_loop (_parse_func_param (Some ad)) params args0 = Ok args
    /\ (forall p n t, p ∈ params -> declared p = Some (n, t) ->
          exists e d, args !! n = Some e /\ ad !! n = Some d
                      /\ a_desc e = Some d).
Proof.
  intros Hwf.
  pose (good := fun (a : gmap pyname arg_entry) (n : pyname) =>
          exists e d, a !! n = Some e /\ ad !! n = Some d /\ a_desc e = Some d).
  cut (exists args,
         for_loop (_parse_func_param (Some ad)) params args0 = Ok args
         /\ (forall n, good args0 n -> good args n)
         /\ (forall p n t, p ∈ params -> declared p = Some (n, t) ->
               good args n)).
  { intros (args & Hl & _ & Hg). exists args. split; [exact Hl|exact Hg]. }
  revert args0.
  induction Hwf as [|p params (n & t & Hp & [d Hd]) _ IH]; intros args0.
  - exists args0. split; [reflexivity|]. split; [auto|].
    intros p n t Hin. apply elem_of_nil in Hin. destruct Hin.
  - cbn [for_loop]. rewrite (parse_func_param_Some _ _ _ _ _ _ Hp Hd). cbn.
    set (args1 := <[n := {| a_type := t; a_desc := Some d |}]> args0).
    assert (Hn : good args1 n).
    { exists {| a_type := t; a_desc := Some d |}, d.
      split; [apply lookup_insert_eq|]. split; [exact Hd|reflexivity]. }
    assert (Hkeep : forall m, good args0 m -> good args1 m).
    { intros m Hm. destruct (decide (n = m)) as [<-|Hne]; [exact Hn|].
      destruct Hm as (e & d' & He & Hd' & Hdesc). exists e, d'.
      split; [|split; assumption].
      unfold args1. rewrite lookup_insert_ne by exact Hne. exact He. }
    destruct (IH args1) as (args & Hl & Hg1 & Hg2).
    exists args. split; [exact Hl|]. split; [auto|].
    intros p' n' t' Hin Hp'.
    apply elem_of_cons in Hin as [->|Hin].
    + rewrite Hp in Hp'. injection Hp' as <- <-. apply Hg1, Hn.
    + eapply Hg2; eassumption.
Qed.

(** C4, as amended.  For a function fragment with a well-formed
    signature whose detailed description has exactly two paragraphs, the
    second with a parameter list of well-formed items that names every
    declared parameter, the parser returns a dictionary, and for every
    item of the list that is the last one with its name and names a
    declared parameter, the entry of ['args'] under that name has the
    description of the item under ['desc']. *)
Theorem parse_func_param_descriptions
    (f_xml mem_dd p0 arg_para plist : element) :
  find "detaileddescription" f_xml = Some mem_dd ->
  findall "para" mem_dd = [p0; arg_para] ->
  find "parameterlist" arg_para = Some plist ->
  Forall (fun i => is_Some (listed i)) (findall "parameteritem" plist) ->
  signature_ok f_xml ->
  (forall p n t, p ∈ findall "param" f_xml -> declared p = Some (n, t) ->
     exists i d, i ∈ findall "parameteritem" plist /\ listed i = Some (n, d)) ->
  exists md,
    _parse_func f_xml = Ok md
    /\ detaileddescription md = Some (text p0)
    /\ (forall l1 i l2 n d,
          findall "parameteritem" plist = l1 ++ i :: l2 ->
          listed i = Some (n, d) ->
          (forall j d', j ∈ l2 -> listed j <> Some (n, d')) ->
          (exists p t, p ∈ findall "param" f_xml /\ declared p = Some (n, t)) ->
          exists a e,
            args md = Some (Some a) /\ a !! n = Some e /\ a_desc e = Some d).
Proof.
  intros Hdd Hparas Hplist Hitems (Hty & Hargs & Hparams) Hcover.
  set (items := findall "parameteritem" plist) in *.
  set (ad := fold_left (fun d kv => <[kv.1 := kv.2]> d) (omap listed items)
               (∅ : gmap pyname (option string))).
  assert (Hdet : _parse_func_detailed f_xml = Ok (text p0, Some ad)).
  { unfold _parse_func_detailed. rewrite Hdd. cbn. rewrite Hparas.
    unfold _parse_func_arg_dict. rewrite Hplist. cbn. fold items.
    rewrite (parse_func_items items ∅ Hitems). reflexivity. }
  assert (Hlisted : forall i n d, i ∈ items -> listed i = Some (n, d) ->
            n ∈ (omap listed items).*1).
  { intros i n d Hin Hi. apply list_elem_of_fmap. exists (n, d).
    split; [reflexivity|]. apply list_elem_of_omap. exists i. auto. }
  assert (Hwf : Forall (fun p => exists n t, declared p = Some (n, t)
                                   /\ is_Some (ad !! n))
                  (findall "param" f_xml)).
  { apply Forall_forall. intros p Hin.
    rewrite Forall_forall in Hparams.
    destruct (Hparams p Hin) as [[n t] Hp]. exists n, t. split; [exact Hp|].
    destruct (Hcover p n t Hin Hp) as (i & d & Hi & Hl).
    apply fold_insert_in. eapply Hlisted; eassumption. }
  destruct (parse_func_params_desc ad (findall "param" f_xml) ∅ Hwf)
    as (a & Hloop & Hgood).
  destruct Hty as [ty Hty]. destruct Hargs as [astr Hargs].
  eexists. split.
  { unfold _parse_func. rewrite Hdet. cbn.
    rewrite (find_text_Some _ _ _ Hty). cbn.
    rewrite Hloop. cbn.
    rewrite (find_text_Some _ _ _ Hargs). cbn. reflexivity. }
  split; [reflexivity|].
  intros l1 i l2 n d Hsplit Hi Hlast (p & t & Hin & Hp).
  destruct (Hgood p n t Hin Hp) as (e & d' & He & Hd' & Hdesc).
  assert (Had : ad !! n = Some d).
  { unfold ad. rewrite Hsplit, omap_app. cbn. rewrite Hi.
    apply fold_insert_last. intros Hn.
    apply list_elem_of_fmap in Hn as ([n' d''] & Heq & Hn). cbn in Heq. subst n'.
    apply list_elem_of_omap in Hn as (j & Hj & Hlj).
    exact (Hlast j d'' Hj Hlj). }
  rewrite Had in Hd'. injection Hd' as <-.
  exists a, e. split; [|split; assumption].
  cbn. destruct (decide (size a = 0)) as [Hz|]; [|reflexivity].
  apply map_size_empty_iff in Hz. subst a.
  rewrite lookup_empty in He. discriminate.
Qed.

(** C4: a name of the parameter list that is no declared parameter.  The
    detailed description of [neg_fragment] has two paragraphs and the
    second carries a parameter list that lists [z]; the parser returns a
    dictionary, and no entry of its ['args'] carries the description of
    [z]: ['args'] has no key [z]. *)
Lemma parse_func_listed_name_not_stored :
  (exists p0 arg_para,
     findall "para" (node "detaileddescription"
                       [leaf "para" "Negates a number.";
                        node "para" [neg_parameterlist]]) = [p0; arg_para]
     /\ find "parameterlist" arg_para = Some neg_parameterlist)
  /\ listed (parameteritem_xml "z" "not a parameter")
     = Some (Some "z", Some "not a parameter")
  /\ (exists md a, _parse_func neg_fragment = Ok md
                   /\ args md = Some (Some a)
                   /\ a !! Some "z" = None)
  /\ ~ (exists md a e, _parse_func neg_fragment = Ok md
                       /\ args md = Some (Some a)
                       /\ a !! Some "z" = Some e
                       /\ a_desc e = Some (Some "not a parameter")).
Proof.
  assert (H : exists md a, _parse_func neg_fragment = Ok md
                           /\ args md = Some (Some a)
                           /\ a !! Some "z" = None).
  { eexists. eexists. split; [vm_compute; reflexivity|].
    split; [reflexivity|]. vm_compute. reflexivity. }
  split; [eexists; eexists; split; reflexivity|].
  split; [reflexivity|].
  split; [exact H|].
  destruct H as (md & a & Hmd & Ha & Hz).
  intros (md' & a' & e & Hmd' & Ha' & He & _).
  rewrite Hmd in Hmd'. injection Hmd' as <-.
  rewrite Ha in Ha'. injection Ha' as <-.
  rewrite Hz in He. discriminate.
Qed.

(** A declared parameter that the list does not name: the lookup of
    [arg_dict[arg_name]] raises [KeyError]. *)
Lemma parse_func_undocumented_parameter :
  _parse_func sub_fragment = Raise KeyError.
Proof. vm_compute. reflexivity. Qed.

Lemma parse_func_param_descriptions_witness :
  exists md,
    _parse_func add_fragment = Ok md
    /\ detaileddescription md = Some (Some "Adds two numbers.")
    /\ (forall l1 i l2 n d,
          findall "parameteritem" add_parameterlist = l1 ++ i :: l2 ->
          listed i = Some (n, d) ->
          (forall j d', j ∈ l2 -> listed j <> Some (n, d')) ->
          (exists p t, p ∈ findall "param" add_fragment
                       /\ declared p = Some (n, t)) ->
          exists a e,
            args md = Some (Some a) /\ a !! n = Some e /\ a_desc e = Some d).
Proof.
  apply (parse_func_param_descriptions add_fragment
           (node "detaileddescription"
              [leaf "para" "Adds two numbers."; node "para" [add_parameterlist]])
           (leaf "para" "Adds two numbers.")
           (node "para" [add_parameterlist]) add_parameterlist).
  - reflexivity.
  - reflexivity.
  - reflexivity.
  - repeat constructor; eexists; reflexivity.
  - split; [eexists; reflexivity|]. split; [eexists; reflexivity|].
    repeat constructor; eexists; reflexivity.
  - intros p n t Hin Hp.
    change (findall "param" add_fragment)
      with [param_xml "int" "x"; param_xml "int" "y"] in Hin.
    apply elem_of_cons in Hin as [->|Hin].
    + injection Hp as <- <-.
      exists (parameteritem_xml "x" "the first term"), (Some "the first term").
      split; [apply list_elem_of_here | reflexivity].
    + apply elem_of_cons in Hin as [->|Hin];
        [|apply elem_of_nil in Hin; destruct Hin].
      injection Hp as <- <-.
      exists (parameteritem_xml "y" "the second term"), (Some "the second term").
      split; [apply list_elem_of_further, list_elem_of_here | reflexivity].
Defined.

Lemma parse_func_without_param_descriptions_witness :
  exists md,
    _parse_func one_para_fragment = Ok md
    /\ _parse_func_detailed one_para_fragment
       = Ok (Some "Scales the value.", None)
    /\ detaileddescription md = Some (Some "Scales the value.")
    /\ (forall a k e,
          args md = Some (Some a) -> a !! k = Some e -> a_desc e = None).
Proof.
  apply (parse_func_without_param_descriptions one_para_fragment one_para_detail).
  - reflexivity.
  - split; [eexists; reflexivity|]. split; [eexists; reflexivity|].
    repeat constructor; eexists; reflexivity.
  - cbn. lia.
Defined.

Lemma execute_class_not_in_index_witness :
  classes empty_index_run !! item0 cls_symbol = None
  /\ execute_class greedy_fill no_files "build" empty_index_run cls_symbol
     = Ok (print ("Couldn't find class " +:+ item0 cls_symbol
                    +:+ " in xml. Skipping it - "
                    +:+ "it will not appear in wrapper docstrings.")
             empty_index_run).
Proof.
  split; [reflexivity|].
  apply (execute_class_not_in_index greedy_fill no_files "build"
           empty_index_run cls_symbol []).
  reflexivity.
Defined.

Lemma merge_configs_fresh_union_witness :
  exists (d : nat) (h' : gmap nat config) (m : config),
    merge_configs 0 1 example_heap = Some (d, h')
    /\ example_heap !! d = None
    /\ h' !! d = Some m
    /\ dom m = dom ({[ "PROJECT_NAME" := CStr "project";
                       "GENERATE_LATEX" := CStr "NO" ]} : config)
               ∪ dom ({[ "GENERATE_LATEX" := CBool true;
                         "EXTRACT_ALL" := CBool false ]} : config)
    /\ (forall k v,
          ({[ "GENERATE_LATEX" := CBool true;
              "EXTRACT_ALL" := CBool false ]} : config) !! k = Some v ->
          m !! k = Some v)
    /\ (forall k,
          ({[ "GENERATE_LATEX" := CBool true;
              "EXTRACT_ALL" := CBool false ]} : config) !! k = None ->
          m !! k = ({[ "PROJECT_NAME" := CStr "project";
                       "GENERATE_LATEX" := CStr "NO" ]} : config) !! k)
    /\ (forall r, r <> d -> h' !! r = example_heap !! r)
    /\ h' !! 0 = Some ({[ "PROJECT_NAME" := CStr "project";
                          "GENERATE_LATEX" := CStr "NO" ]} : config)
    /\ h' !! 1 = Some ({[ "GENERATE_LATEX" := CBool true;
                          "EXTRACT_ALL" := CBool false ]} : config).
Proof.
  apply (merge_configs_fresh_union 0 1 example_heap); reflexivity.
Defined.

(** ** Strings *)

Lemma app_cons_str (x : ascii) (a b : string) :
  String x a +:+ b = String x (a +:+ b).
Proof. reflexivity. Qed.

Lemma app_assoc_str (a b c : string) : (a +:+ b) +:+ c = a +:+ (b +:+ c).
Proof.
  induction a as [|x a IH]; [reflexivity|].
  rewrite !app_cons_str, IH. reflexivity.
Qed.

Lemma app_nil_r_str (a : string) : a +:+ EmptyString = a.
Proof.
  induction a as [|x a IH]; [reflexivity|].
  rewrite app_cons_str, IH. reflexivity.
Qed.

Lemma app_length_str (a b : string) :
  String.length (a +:+ b) = String.length a + String.length b.
Proof.
  induction a as [|x a IH]; [reflexivity|].
  rewrite app_cons_str. cbn. rewrite IH. reflexivity.
Qed.

Lemma app_eq_nil_str (a b : string) :
  a +:+ b = EmptyString -> a = EmptyString /\ b = EmptyString.
Proof.
  destruct a; [intros H; split; [reflexivity | exact H]|].
  rewrite app_cons_str. discriminate.
Qed.

(** Only the empty string has no line. *)
Lemma splitlines_go_nil (cur s : string) :
  splitlines_go cur s = [] -> cur = EmptyString /\ s = EmptyString.
Proof.
  revert cur. induction s as [|c s IH]; intros cur; cbn.
  - destruct cur; [auto | discriminate].
  - destruct (Nat.eqb (nat_of_ascii c) 10); [discriminate|].
    destruct (Nat.eqb (nat_of_ascii c) 13).
    + destruct s as [|c' s']; [discriminate|].
      destruct (Nat.eqb (nat_of_ascii c') 10); discriminate.
    + intros H. apply IH in H as [H _]. discriminate.
Qed.

Lemma splitlines_nonempty (s : string) :
  s <> EmptyString -> exists l0 more, splitlines s = l0 :: more.
Proof.
  intros Hs. unfold splitlines.
  destruct (splitlines_go EmptyString s) as [|l0 more] eqn:E; [|eauto].
  apply splitlines_go_nil in E as [_ E]. contradiction.
Qed.

(** ** [func_docstr]: the loops only append *)

Section FuncDocstr.

Variable fill : TextWrapper -> string -> string.
Variable wrapper : TextWrapper.

Lemma fold_fill_appends (ls : list string) (msg t : string) :
  fold_left (fun msg l => msg +:+ fill wrapper l) ls (msg +:+ t)
  = msg +:+ fold_left (fun msg l => msg +:+ fill wrapper l) ls t.
Proof.
  revert t; induction ls as [|l ls IH]; intros t; cbn; [reflexivity|].
  rewrite app_assoc_str. apply IH.
Qed.

Lemma add_param_appends (msg p : string) :
  p <> EmptyString ->
  exists t,
    func_docstr_add_param fill wrapper EmptyString p = Ok t
    /\ func_docstr_add_param fill wrapper msg p = Ok (msg +:+ t).
Proof.
  intros Hp. unfold func_docstr_add_param.
  destruct (splitlines_nonempty p Hp) as (l0 & more & ->). cbn.
  eexists. split; [reflexivity|].
  rewrite !app_assoc_str, fold_fill_appends.
  destruct (negb (List.length more =? 0));
    rewrite ?app_assoc_str; reflexivity.
Qed.

Lemma add_ret_appends (msg r : string) :
  r <> EmptyString ->
  exists t,
    func_docstr_add_ret fill wrapper EmptyString r = Ok t
    /\ func_docstr_add_ret fill wrapper msg r = Ok (msg +:+ t).
Proof.
  intros Hr. unfold func_docstr_add_ret.
  destruct (splitlines_nonempty r Hr) as (l0 & more & ->). cbn.
  eexists. split; [reflexivity|].
  rewrite !app_assoc_str, fold_fill_appends.
  rewrite ?app_assoc_str; reflexivity.
Qed.

Lemma add_params_append (ps : list string) (msg : string) :
  Forall (fun p => p <> EmptyString) ps ->
  exists body,
    for_loop (func_docstr_add_param fill wrapper) ps EmptyString = Ok body
    /\ for_loop (func_docstr_add_param fill wrapper) ps msg = Ok (msg +:+ body).
Proof.
  intros Hps. revert msg.
  induction Hps as [|p ps Hp _ IH]; intros msg.
  - exists EmptyString. split; [reflexivity|]. cbn. rewrite app_nil_r_str.
    reflexivity.
  - destruct (add_param_appends msg p Hp) as (t & Ht0 & Ht).
    cbn [for_loop]. rewrite Ht0, Ht. cbn.
    destruct (IH t) as (b & Hb0 & Hb1). destruct (IH (msg +:+ t)) as (b' & Hb0' & Hb).
    rewrite Hb0 in Hb0'. injection Hb0' as <-.
    rewrite Hb1, Hb. exists (t +:+ b). split; [reflexivity|].
    rewrite app_assoc_str. reflexivity.
Qed.

Lemma add_rets_append (rs : list string) (msg : string) :
  Forall (fun r => r <> EmptyString) rs ->
  exists body,
    for_loop (func_docstr_add_ret fill wrapper) rs EmptyString = Ok body
    /\ for_loop (func_docstr_add_ret fill wrapper) rs msg = Ok (msg +:+ body).
Proof.
  intros Hrs. revert msg.
  induction Hrs as [|r rs Hr _ IH]; intros msg.
  - exists EmptyString. split; [reflexivity|]. cbn. rewrite app_nil_r_str.
    reflexivity.
  - destruct (add_ret_appends msg r Hr) as (t & Ht0 & Ht).
    cbn [for_loop]. rewrite Ht0, Ht. cbn.
    destruct (IH t) as (b & Hb0 & Hb1). destruct (IH (msg +:+ t)) as (b' & Hb0' & Hb).
    rewrite Hb0 in Hb0'. injection Hb0' as <-.
    rewrite Hb1, Hb. exists (t +:+ b). split; [reflexivity|].
    rewrite app_assoc_str. reflexivity.
Qed.

End FuncDocstr.

Lemma func_docstr_params_nonempty (a : option (gmap pyname arg_entry)) :
  Forall (fun p => p <> EmptyString) (func_docstr_params a).
Proof.
  destruct a as [a|]; cbn.
  - apply Forall_forall. intros p Hin.
    apply list_elem_of_fmap in Hin as ([k e] & -> & _).
    unfold func_docstr_param. cbn.
    destruct (a_desc e); intros Hnil;
      repeat (apply app_eq_nil_str in Hnil as [? Hnil]; try discriminate).
  - repeat constructor. discriminate.
Qed.

Lemma func_docstr_rets_nonempty (r : option string) :
  Forall (fun p => p <> EmptyString) (func_docstr_rets r).
Proof. destruct r; repeat constructor; discriminate. Qed.

(** ** C6: the literal [None] *)

(** C6. Let [func_dict] be a function dictionary whose descriptions are
    texts, and let the wrapper leave the word [None] as it is.  When
    ['args'] is [None], the text between the header of the Parameters
    section and the header of the Returns section is the line [None]
    followed by an empty line; when ['ret_type'] is [None], the text after
    the header of the Returns section is the line [None] followed by an
    empty line. *)
Theorem func_docstr_none_sections
    (fill : TextWrapper -> string -> string) (func_dict : member)
    (is_method : bool) (brief detailed : string) :
  let wrapper := if is_method then wrap_64 else wrap_68 in
  let intro :=
    fill wrapper (strip (join (nl +:+ nl) [brief; detailed])) +:+ nl +:+ nl in
  let params_head :=
    fill wrapper "Parameters" +:+ nl +:+ fill wrapper "----------" +:+ nl in
  let returns_head :=
    fill wrapper "Returns" +:+ nl +:+ fill wrapper "-------" +:+ nl in
  fill wrapper "None" = "None" ->
  briefdescription func_dict = Some brief ->
  detaileddescription func_dict = Some (Some detailed) ->
  (args func_dict = Some None ->
   forall returning, ret_type func_dict = Some returning ->
   exists returns_body,
     for_loop (func_docstr_add_ret fill wrapper) (func_docstr_rets returning)
       EmptyString = Ok returns_body
     /\ func_docstr fill func_dict is_method
        = Ok (intro +:+ params_head +:+ ("None" +:+ nl +:+ nl)
                +:+ returns_head +:+ returns_body))
  /\ (ret_type func_dict = Some None ->
      forall a, args func_dict = Some a ->
      exists params_body,
        for_loop (func_docstr_add_param fill wrapper) (func_docstr_params a)
          EmptyString = Ok params_body
        /\ func_docstr fill func_dict is_method
           = Ok (intro +:+ params_head +:+ params_body
                   +:+ returns_head +:+ ("None" +:+ nl +:+ nl))).
Proof.
  intros wrapper intro params_head returns_head Hnone Hbrief Hdet.
  assert (Hgen : forall a returning,
            args func_dict = Some a -> ret_type func_dict = Some returning ->
            exists params_body returns_body,
              for_loop (func_docstr_add_param fill wrapper)
                (func_docstr_params a) EmptyString = Ok params_body
              /\ for_loop (func_docstr_add_ret fill wrapper)
                   (func_docstr_rets returning) EmptyString = Ok returns_body
              /\ func_docstr fill func_dict is_method
                 = Ok (intro +:+ params_head +:+ params_body
                         +:+ returns_head +:+ returns_body)).
  { intros a returning Ha Hr.
    unfold func_docstr. fold wrapper.
    rewrite Hdet, Hbrief, Ha, Hr. cbn [field as_str mbind result_bind].
    set (msg1 := ((((fill wrapper (strip (join (nl +:+ nl) [brief; detailed]))
                       +:+ nl +:+ nl) +:+ fill wrapper "Parameters") +:+ nl)
                    +:+ fill wrapper "----------") +:+ nl).
    destruct (add_params_append fill wrapper (func_docstr_params a) msg1
                (func_docstr_params_nonempty a)) as (pb & Hpb0 & Hpb).
    rewrite Hpb. cbn [mbind result_bind].
    set (msg2 := ((((msg1 +:+ pb) +:+ fill wrapper "Returns") +:+ nl)
                    +:+ fill wrapper "-------") +:+ nl).
    destruct (add_rets_append fill wrapper (func_docstr_rets returning) msg2
                (func_docstr_rets_nonempty returning)) as (rb & Hrb0 & Hrb).
    rewrite Hrb. exists pb, rb. split; [exact Hpb0|]. split; [exact Hrb0|].
    f_equal. unfold msg2, msg1, intro, params_head, returns_head.
    rewrite !app_assoc_str. reflexivity. }
  split.
  - intros Ha returning Hr.
    destruct (Hgen None returning Ha Hr) as (pb & rb & Hpb & Hrb & Hdoc).
    exists rb. split; [exact Hrb|]. rewrite Hdoc.
    change (Ok ((fill wrapper "None" +:+ nl) +:+ nl) = Ok pb) in Hpb.
    rewrite Hnone in Hpb. injection Hpb as <-. reflexivity.
  - intros Hr a Ha.
    destruct (Hgen a None Ha Hr) as (pb & rb & Hpb & Hrb & Hdoc).
    exists pb. split; [exact Hpb|]. rewrite Hdoc.
    change (Ok ((fill wrapper "None" +:+ nl) +:+ nl) = Ok rb) in Hrb.
    rewrite Hnone in Hrb. injection Hrb as <-. reflexivity.
Qed.

Lemma func_docstr_none_sections_witness :
  greedy_fill wrap_64 "None" = "None"
  /\ args ctor_member = Some None
  /\ ret_type ctor_member = Some None
  /\ func_docstr greedy_fill ctor_member true
     = Ok ((greedy_fill wrap_64
              (strip (join (nl +:+ nl) ["Constructor."; "Builds the class."]))
              +:+ nl +:+ nl)
             +:+ (greedy_fill wrap_64 "Parameters" +:+ nl
                    +:+ greedy_fill wrap_64 "----------" +:+ nl)
             +:+ ("None" +:+ nl +:+ nl)
             +:+ (greedy_fill wrap_64 "Returns" +:+ nl
                    +:+ greedy_fill wrap_64 "-------" +:+ nl)
             +:+ ("None" +:+ nl +:+ nl)).
Proof.
  split; [reflexivity|]. split; [reflexivity|]. split; [reflexivity|].
  destruct (func_docstr_none_sections greedy_fill ctor_member true
              "Constructor." "Builds the class.")
    as [Hargs _]; [reflexivity | reflexivity | reflexivity|].
  destruct (Hargs eq_refl None eq_refl) as (rb & Hrb & Hdoc).
  rewrite Hdoc. f_equal.
  vm_compute in Hrb. injection Hrb as <-. reflexivity.
Defined.

(** ** Sorting and ordering the methods *)

Lemma name_leb_total (a b : pyname) : name_leb a b = true \/ name_leb b a = true.
Proof.
  destruct a as [a|], b as [b|]; cbn; auto. apply String.leb_total.
Qed.

Lemma sort_insert_perm (x : pyname) (l : list pyname) :
  sort_insert x l ≡ₚ x :: l.
Proof.
  induction l as [|y l IH]; cbn; [reflexivity|].
  destruct (name_leb x y); [reflexivity|].
  rewrite IH. apply Permutation_swap.
Qed.

(** [py_sort] rearranges its list *)
Lemma py_sort_perm (l : list pyname) : py_sort l ≡ₚ l.
Proof.
  induction l as [|x l IH]; cbn; [reflexivity|].
  rewrite sort_insert_perm, IH. reflexivity.
Qed.

Lemma sort_insert_sorted (x : pyname) (l : list pyname) :
  Sorted (fun a b => name_leb a b = true) l ->
  Sorted (fun a b => name_leb a b = true) (sort_insert x l).
Proof.
  induction l as [|y l IH]; intros Hs; cbn.
  - repeat constructor.
  - destruct (name_leb x y) eqn:Hxy.
    + constructor; [exact Hs|]. constructor. exact Hxy.
    + apply Sorted_inv in Hs as [Hs Hhd].
      constructor; [apply IH; exact Hs|].
      destruct l as [|z l]; cbn.
      * constructor. destruct (name_leb_total x y); congruence.
      * destruct (name_leb x z).
        -- constructor. destruct (name_leb_total x y); congruence.
        -- constructor. apply HdRel_inv in Hhd. exact Hhd.
Qed.

(** into ascending order. *)
Lemma py_sort_sorted (l : list pyname) :
  Sorted (fun a b => name_leb a b = true) (py_sort l).
Proof.
  induction l as [|x l IH]; cbn; [constructor|].
  apply sort_insert_sorted, IH.
Qed.

Lemma py_pop_Ok {A} (l r : list A) (x : A) :
  py_pop l = Ok (x, r) -> l = r ++ [x].
Proof.
  unfold py_pop. destruct (List.rev l) as [|y t] eqn:E; [discriminate|].
  intros [= <- <-].
  rewrite <- (rev_involutive l), E. reflexivity.
Qed.

Lemma py_pop_app {A} (init : list A) (last : A) :
  py_pop (init ++ [last]) = Ok (last, init).
Proof.
  unfold py_pop. rewrite rev_app_distr. cbn. rewrite rev_involutive.
  reflexivity.
Qed.

(** The ordered list has the names of the list of methods. *)
Lemma order_methods_elem (methods ordered : list pyname) (i : pyname) :
  order_methods methods = Ok ordered -> i ∈ methods -> i ∈ ordered.
Proof.
  unfold order_methods. intros H Hin.
  destruct (py_pop (py_sort methods)) as [[last init]|e] eqn:Hpop;
    [|discriminate].
  cbn in H. injection H as <-.
  apply py_pop_Ok in Hpop.
  assert (Hi : i ∈ init ++ [last]).
  { rewrite <- Hpop. rewrite py_sort_perm. exact Hin. }
  unfold py_insert.
  apply elem_of_app in Hi as [Hi|Hi].
  - rewrite <- (firstn_skipn 1 init) in Hi.
    apply elem_of_app in Hi as [Hi|Hi].
    + apply elem_of_app. left. exact Hi.
    + apply elem_of_app. right. apply list_elem_of_further. exact Hi.
  - apply list_elem_of_singleton in Hi as ->.
    apply elem_of_app. right. apply list_elem_of_here.
Qed.

(** ** C3: a member without an entry *)

Lemma flatten_loop_notin (class_dict : class_data) (keys : list string)
    (i : pyname) (items0 items : list (pyname * member)) :
  (forall key sec, sections class_dict !! key = Some sec -> sec !! i = None) ->
  for_loop
    (fun items key =>
       sec ← getitem (sections class_dict) key;
       Ok (items ++ map_to_list sec))
    keys items0 = Ok items ->
  i ∉ items0.*1 -> i ∉ items.*1.
Proof.
  intros Hmiss. revert items0.
  induction keys as [|key keys IH]; intros items0 H H0; cbn in H.
  - injection H as <-. exact H0.
  - unfold getitem in H.
    destruct (sections class_dict !! key) as [sec|] eqn:Hsec; [|discriminate].
    cbn in H. eapply IH; [exact H|].
    rewrite fmap_app. intros Hin.
    apply elem_of_app in Hin as [Hin|Hin]; [contradiction|].
    apply list_elem_of_fmap in Hin as ([k v] & -> & Hkv).
    apply elem_of_map_to_list in Hkv. cbn in *.
    rewrite (Hmiss key sec Hsec) in Hkv. discriminate.
Qed.

Lemma flatten_groups_notin (class_dict : class_data) (keys : list string)
    (i : pyname) (d : gmap pyname member) :
  (forall key sec, sections class_dict !! key = Some sec -> sec !! i = None) ->
  flatten_groups class_dict keys = Ok d -> d !! i = None.
Proof.
  intros Hmiss H. unfold flatten_groups in H.
  apply bind_Ok in H as (items & Hloop & H). injection H as <-.
  unfold dict_of_items. rewrite fold_insert_notin; [apply lookup_empty|].
  eapply flatten_loop_notin; [exact Hmiss | exact Hloop |].
  cbn. apply not_elem_of_nil.
Qed.

Lemma split_go_nonempty (sep : string) (s : string) :
  forall skip cur, split_go sep skip cur s <> [].
Proof.
  induction s as [|c s IH]; intros skip cur; cbn [split_go]; [discriminate|].
  destruct skip as [|k]; [|apply IH].
  destruct (String.prefix sep (String c s)); [discriminate | apply IH].
Qed.

(** The last piece of a split text: [s.split(sep)] is never empty. *)
Lemma last_item_split (sep s : string) :
  exists x, last_item (split sep s) = Ok x.
Proof.
  unfold last_item, split.
  destruct (List.rev (split_go sep 0 EmptyString s)) as [|x l] eqn:Hrev; [|eauto].
  exfalso. apply (split_go_nonempty sep s 0 EmptyString).
  rewrite <- (rev_involutive (split_go _ _ _ _)), Hrev. reflexivity.
Qed.

Lemma fold_insert_lookup {K V} `{Countable K} (l : list (K * V))
    (acc : gmap K V) (k : K) (v : V) :
  fold_left (fun d kv => <[kv.1 := kv.2]> d) l acc !! k = Some v ->
  (k, v) ∈ l \/ acc !! k = Some v.
Proof.
  revert acc. induction l as [|[k' v'] l IH]; intros acc Hk; cbn in Hk; [auto|].
  apply IH in Hk as [Hk|Hk]; [left; apply list_elem_of_further, Hk|].
  cbn in Hk. destruct (decide (k' = k)) as [->|Hne].
  - rewrite lookup_insert_eq in Hk. injection Hk as ->.
    left. apply list_elem_of_here.
  - rewrite lookup_insert_ne in Hk by exact Hne. auto.
Qed.

(** The flattened dictionaries hold entries of the sections only, and
    flattening raises nothing but [KeyError]. *)
Lemma flatten_groups_entries (class_dict : class_data) (keys : list string)
    (d : gmap pyname member) (k : pyname) (m : member) :
  flatten_groups class_dict keys = Ok d ->
  d !! k = Some m ->
  exists key sec, sections class_dict !! key = Some sec /\ sec !! k = Some m.
Proof.
  unfold flatten_groups. intros H Hk.
  apply bind_Ok in H as (items & Hloop & H). injection H as <-.
  unfold dict_of_items in Hk.
  apply fold_insert_lookup in Hk as [Hk|Hk];
    [|rewrite lookup_empty in Hk; discriminate].
  assert (Hinv : forall kv, kv ∈ items ->
            exists key sec, sections class_dict !! key = Some sec
                            /\ sec !! kv.1 = Some kv.2).
  { refine (for_loop_invariant _
              (fun items : list (pyname * member) =>
                 forall kv, kv ∈ items ->
                   exists key sec, sections class_dict !! key = Some sec
                                   /\ sec !! kv.1 = Some kv.2)
              _ _ items _ _ Hloop).
    - intros items0 key items1 Hinv Hstep kv Hkv.
      apply bind_Ok in Hstep as (sec & Hsec & Hstep). injection Hstep as <-.
      apply getitem_Ok in Hsec.
      apply elem_of_app in Hkv as [Hkv|Hkv]; [exact (Hinv kv Hkv)|].
      destruct kv as [k0 m0]. apply elem_of_map_to_list in Hkv. eauto.
    - intros kv Hkv. apply elem_of_nil in Hkv. destruct Hkv. }
  exact (Hinv (k, m) Hk).
Qed.

Lemma flatten_groups_Raise (class_dict : class_data) (keys : list string)
    (e : exn) :
  flatten_groups class_dict keys = Raise e -> e = KeyError.
Proof.
  unfold flatten_groups. intros H.
  apply bind_Raise in H as [H | (items & _ & H)]; [|discriminate].
  apply for_loop_Raise with (P := fun e => e = KeyError) in H; [exact H|].
  intros items key e0 _ Hstep.
  apply bind_Raise in Hstep as [Hstep | (sec & _ & Hstep)]; [|discriminate].
  exact (getitem_Raise _ _ _ Hstep).
Qed.

(** The line of a variable whose detailed description is not [None]
    raises nothing but [KeyError]; so does the line of a method whose
    name is a text. *)
Lemma class_docstr_attribute_Raise (fill : TextWrapper -> string -> string)
    (ivars : gmap pyname member) (msg : string) (i : pyname) (e : exn) :
  (forall k m, ivars !! k = Some m -> detaileddescription m <> Some None) ->
  class_docstr_attribute fill ivars msg i = Raise e -> e = KeyError.
Proof.
  intros Htext H. unfold class_docstr_attribute in H.
  apply bind_Raise in H as [H | (iv & Hiv & H)];
    [exact (getitem_Raise _ _ _ H)|].
  apply bind_Raise in H as [H | (desc & _ & H)]; [exact (field_Raise _ _ H)|].
  apply bind_Raise in H as [H | (dd & Hdd & H)]; [exact (field_Raise _ _ H)|].
  apply getitem_Ok in Hiv. apply field_Ok in Hdd.
  destruct dd as [dd|]; [|destruct (Htext i iv Hiv Hdd)].
  cbn [as_str mbind result_bind] in H.
  apply bind_Raise in H as [H | (ty & _ & H)]; [exact (field_Raise _ _ H)|].
  discriminate.
Qed.

Lemma class_docstr_method_Raise (fill : TextWrapper -> string -> string)
    (desc_funcs : bool) (funcs : gmap pyname member) (msg : string)
    (i : pyname) (e : exn) :
  is_Some i ->
  class_docstr_method fill desc_funcs funcs msg i = Raise e -> e = KeyError.
Proof.
  intros [name ->] H. unfold class_docstr_method in H.
  apply bind_Raise in H as [H | (f & _ & H)]; [exact (getitem_Raise _ _ _ H)|].
  apply bind_Raise in H as [H | (desc & _ & H)]; [exact (field_Raise _ _ H)|].
  destruct ((String.length desc =? 0) || negb desc_funcs); discriminate.
Qed.

Lemma order_methods_perm (methods ordered : list pyname) :
  order_methods methods = Ok ordered -> ordered ≡ₚ methods.
Proof.
  unfold order_methods. intros H.
  destruct (py_pop (py_sort methods)) as [[last init]|e] eqn:Hpop;
    [|discriminate].
  cbn in H. injection H as <-. apply py_pop_Ok in Hpop.
  rewrite <- (py_sort_perm methods), Hpop. unfold py_insert.
  rewrite <- Permutation_middle, firstn_skipn.
  rewrite Permutation_app_comm. reflexivity.
Qed.

Lemma order_methods_nonempty (methods : list pyname) (i : pyname) :
  i ∈ methods -> exists ordered, order_methods methods = Ok ordered.
Proof.
  intros Hi. unfold order_methods.
  destruct (List.rev (py_sort methods)) as [|last tl] eqn:Hrev.
  - exfalso.
    assert (Hnil : py_sort methods = []).
    { rewrite <- (rev_involutive (py_sort _)), Hrev. reflexivity. }
    rewrite <- (py_sort_perm methods), Hnil in Hi.
    apply elem_of_nil in Hi. exact Hi.
  - assert (Hsort : py_sort methods = List.rev tl ++ [last]).
    { rewrite <- (rev_involutive (py_sort _)), Hrev. reflexivity. }
    rewrite Hsort, py_pop_app. cbn. eauto.
Qed.

(** A listed name without an entry makes its loop raise. *)
Lemma class_docstr_missing_member_raises
    (fill : TextWrapper -> string -> string) (class_dict : class_data)
    (desc_funcs : bool) (i : pyname) :
  i ∈ members_variables class_dict \/ i ∈ members_methods class_dict ->
  (forall key sec, sections class_dict !! key = Some sec -> sec !! i = None) ->
  exists e, class_docstr fill class_dict desc_funcs = Raise e.
Proof.
  intros Hin Hmiss. unfold class_docstr.
  destruct (last_item (split "::" (kls_name class_dict))) as [class_name|e];
    cbn; [|eauto].
  destruct (getitem (sections class_dict) "public-func") as [pub|e];
    cbn; [|eauto].
  destruct (getitem pub (Some class_name)) as [ctor|e]; cbn; [|eauto].
  destruct (field (detaileddescription ctor)) as [cls_msg|e]; cbn; [|eauto].
  destruct (fill_text fill wrap_68 cls_msg) as [msg|e]; cbn; [|eauto].
  destruct (flatten_groups class_dict
              (List.filter (str_in "attrib") (class_keys class_dict)))
    as [ivars|e] eqn:Hivars; cbn; [|eauto].
  destruct (flatten_groups class_dict
              (List.filter (str_in "func") (class_keys class_dict)))
    as [funcs|e] eqn:Hfuncs; cbn; [|eauto].
  apply (flatten_groups_notin _ _ i _ Hmiss) in Hivars.
  apply (flatten_groups_notin _ _ i _ Hmiss) in Hfuncs.
  match goal with
  | |- context [for_loop (class_docstr_attribute fill ivars) ?vs ?m] =>
      destruct (for_loop (class_docstr_attribute fill ivars) vs m)
        as [msg1|e] eqn:Hattrs
  end; cbn; [|eauto].
  destruct Hin as [Hin|Hin].
  { exfalso.
    destruct (for_loop_fails (class_docstr_attribute fill ivars)
                (members_variables class_dict) i) with (s := 
                ((((msg +:+ nl +:+ nl) +:+ fill wrap_68 "Attributes") +:+ nl)
                   +:+ fill wrap_68 "----------") +:+ nl) as [e He].
    - apply list_elem_of_In. exact Hin.
    - intros s. unfold class_docstr_attribute, getitem. rewrite Hivars.
      cbn. eauto.
    - rewrite He in Hattrs. discriminate. }
  destruct (order_methods (list_of_set (members_methods class_dict)))
    as [ordered|e] eqn:Hord; cbn; [|eauto].
  assert (Hi : i ∈ ordered).
  { eapply order_methods_elem; [exact Hord|].
    unfold list_of_set. apply elem_of_elements, elem_of_list_to_set. exact Hin. }
  match goal with
  | |- context [for_loop (class_docstr_method fill desc_funcs funcs) ordered ?m] =>
      destruct (for_loop_fails (class_docstr_method fill desc_funcs funcs)
                  ordered i) with (s := m) as [e He]
  end.
  - apply list_elem_of_In. exact Hi.
  - intros s. unfold class_docstr_method, getitem. rewrite Hfuncs.
    cbn. eauto.
  - rewrite He. cbn. eauto.
Qed.

(** C3, as amended.  When a name listed under the variables or under the
    methods of ['members'] has no entry in any section of the class
    dictionary, [class_docstr] returns no docstring: it raises an
    exception.  When, in addition, no detailed description stored in the
    class dictionary is [None] and the names of the methods are texts,
    the exception is [KeyError]. *)
Theorem class_docstr_member_without_entry
    (fill : TextWrapper -> string -> string) (class_dict : class_data)
    (desc_funcs : bool) (i : pyname) :
  i ∈ members_variables class_dict \/ i ∈ members_methods class_dict ->
  (forall key sec, sections class_dict !! key = Some sec -> sec !! i = None) ->
  (exists e, class_docstr fill class_dict desc_funcs = Raise e)
  /\ ((forall key sec k m, sections class_dict !! key = Some sec ->
         sec !! k = Some m -> detaileddescription m <> Some None) ->
      (forall k, k ∈ members_methods class_dict -> is_Some k) ->
      class_docstr fill class_dict desc_funcs = Raise KeyError).
Proof.
  intros Hin Hmiss.
  destruct (class_docstr_missing_member_raises fill class_dict desc_funcs i
              Hin Hmiss) as [e He].
  split; [eauto|]. intros Htext Hnames. rewrite He. f_equal.
  unfold class_docstr in He.
  destruct (last_item_split "::" (kls_name class_dict)) as [class_name Hcn].
  rewrite Hcn in He. cbn [mbind result_bind] in He.
  apply bind_Raise in He as [He | (pub & Hpub & He)];
    [exact (getitem_Raise _ _ _ He)|].
  apply bind_Raise in He as [He | (ctor & Hctor & He)];
    [exact (getitem_Raise _ _ _ He)|].
  apply bind_Raise in He as [He | (cls_msg & Hmsg & He)];
    [exact (field_Raise _ _ He)|].
  apply getitem_Ok in Hpub, Hctor. apply field_Ok in Hmsg.
  destruct cls_msg as [cls_msg|];
    [|destruct (Htext _ _ _ _ Hpub Hctor Hmsg)].
  cbn [fill_text mbind result_bind] in He.
  apply bind_Raise in He as [He | (ivars & Hivars & He)];
    [exact (flatten_groups_Raise _ _ _ He)|].
  apply bind_Raise in He as [He | (funcs & Hfuncs & He)];
    [exact (flatten_groups_Raise _ _ _ He)|].
  apply bind_Raise in He as [He | (msg1 & Hattrs & He)].
  { apply for_loop_Raise with (P := fun e => e = KeyError) in He; [exact He|].
    intros s x e0 _ Hx.
    apply (class_docstr_attribute_Raise fill ivars s x e0); [|exact Hx].
    intros k m Hk.
    destruct (flatten_groups_entries _ _ _ _ _ Hivars Hk) as (key & sec & Hsec & Hm).
    exact (Htext key sec k m Hsec Hm). }
  destruct Hin as [Hin|Hin].
  { exfalso.
    destruct (for_loop_fails (class_docstr_attribute fill ivars)
                (members_variables class_dict) i) with (s := 
                ((((fill wrap_68 cls_msg +:+ nl +:+ nl)
                     +:+ fill wrap_68 "Attributes") +:+ nl)
                   +:+ fill wrap_68 "----------") +:+ nl) as [e0 He0].
    - apply list_elem_of_In. exact Hin.
    - intros s. unfold class_docstr_attribute.
      rewrite (getitem_None _ _ (flatten_groups_notin _ _ i _ Hmiss Hivars)).
      cbn. eauto.
    - rewrite He0 in Hattrs. discriminate. }
  assert (Hset : i ∈ list_of_set (members_methods class_dict)).
  { unfold list_of_set. apply elem_of_elements, elem_of_list_to_set. exact Hin. }
  destruct (order_methods_nonempty _ i Hset) as [ordered Hord].
  rewrite Hord in He. cbn [mbind result_bind] in He.
  apply bind_Raise in He as [He | (msg2 & _ & He)]; [|discriminate].
  apply for_loop_Raise with (P := fun e => e = KeyError) in He; [exact He|].
  intros s x e0 Hx Hstep.
  apply (class_docstr_method_Raise fill desc_funcs funcs s x e0); [|exact Hstep].
  apply Hnames. apply order_methods_perm in Hord. rewrite Hord in Hx.
  unfold list_of_set in Hx.
  apply elem_of_elements, elem_of_list_to_set in Hx. exact Hx.
Qed.

Lemma orphan_class_listed : Some "c" ∈ members_variables orphan_class.
Proof. do 2 apply list_elem_of_further. apply list_elem_of_here. Qed.

Lemma orphan_class_no_entry (key : string) (sec : gmap pyname member) :
  sections orphan_class !! key = Some sec -> sec !! Some "c" = None.
Proof.
  intros Hsec.
  assert (Hkey : key = "public-func" \/ key = "public-attrib").
  { destruct (decide (key = "public-func")) as [|H1]; [auto|].
    destruct (decide (key = "public-attrib")) as [|H2]; [auto|].
    exfalso. unfold orphan_class, example_sections in Hsec. cbn in Hsec.
    rewrite lookup_insert_ne in Hsec by congruence.
    rewrite lookup_singleton_ne in Hsec by congruence. discriminate. }
  destruct Hkey as [-> | ->]; vm_compute in Hsec; injection Hsec as <-;
    vm_compute; reflexivity.
Qed.

(** C3: the variable [c] of [orphan_class] is listed under ['members']
    and has no entry in any section; [class_docstr] does not render it
    with an empty description, it raises [KeyError]. *)
Lemma class_docstr_orphan_raises :
  Some "c" ∈ members_variables orphan_class
  /\ (forall key sec, sections orphan_class !! key = Some sec ->
        sec !! Some "c" = None)
  /\ class_docstr greedy_fill orphan_class false = Raise KeyError
  /\ class_docstr greedy_fill orphan_class true = Raise KeyError.
Proof.
  split; [exact orphan_class_listed|].
  split; [exact orphan_class_no_entry|].
  split; vm_compute; reflexivity.
Qed.

Lemma orphan_class_texts (key : string) (sec : gmap pyname member)
    (k : pyname) (m : member) :
  sections orphan_class !! key = Some sec -> sec !! k = Some m ->
  detaileddescription m <> Some None.
Proof.
  intros Hsec Hk.
  assert (Hall : map_Forall
            (fun _ sec => map_Forall
               (fun _ m => detaileddescription m <> Some None)
               (sec : gmap pyname member))
            (sections orphan_class)).
  { unfold orphan_class, example_sections. cbn [sections].
    repeat (first [apply map_Forall_insert_2 | apply map_Forall_singleton
                  | apply map_Forall_empty]);
      try discriminate. }
  exact (Hall key sec Hsec k m Hk).
Qed.

Lemma orphan_class_method_names (k : pyname) :
  k ∈ members_methods orphan_class -> is_Some k.
Proof.
  intros Hk. unfold orphan_class in Hk. cbn [members_methods] in Hk.
  repeat (apply elem_of_cons in Hk as [-> | Hk]; [eauto|]).
  apply elem_of_nil in Hk. destruct Hk.
Qed.

Lemma class_docstr_member_without_entry_witness :
  (exists e, class_docstr greedy_fill orphan_class false = Raise e)
  /\ class_docstr greedy_fill orphan_class false = Raise KeyError.
Proof.
  destruct (class_docstr_member_without_entry greedy_fill orphan_class false
              (Some "c")) as [Hraises Hkey].
  - left. exact orphan_class_listed.
  - exact orphan_class_no_entry.
  - split; [exact Hraises|].
    exact (Hkey orphan_class_texts orphan_class_method_names).
Defined.

(** ** C2: the order of the methods *)

Lemma order_methods_last_second (methods ordered init : list pyname)
    (last : pyname) :
  order_methods methods = Ok ordered ->
  py_sort methods = init ++ [last] ->
  ordered = List.firstn 1 init ++ last :: List.skipn 1 init.
Proof.
  unfold order_methods. intros H Hsort.
  rewrite Hsort, py_pop_app in H. cbn in H. injection H as <-. reflexivity.
Qed.

(** The loop over the ordered methods adds one line per method, in the
    order of the list: the name of the method, followed by its brief
    description when [desc_funcs] asks for it. *)
Lemma class_docstr_method_lines
    (fill : TextWrapper -> string -> string) (desc_funcs : bool)
    (funcs : gmap pyname member) (ordered : list pyname) (msg msg' : string) :
  for_loop (class_docstr_method fill desc_funcs funcs) ordered msg = Ok msg' ->
  exists entries,
    Forall2 (fun i entry =>
               i = Some entry \/ exists d, entry = py_str i +:+ " : " +:+ d)
      ordered entries
    /\ msg' = msg +:+ foldr (fun entry rest => fill attrib_wrap entry +:+ nl +:+ rest)
                        EmptyString entries.
Proof.
  revert msg. induction ordered as [|i ordered IH]; intros msg H; cbn in H.
  - injection H as <-. exists []. split; [constructor|].
    cbn. rewrite app_nil_r_str. reflexivity.
  - apply bind_Ok in H as (msg1 & Hstep & Hrest).
    unfold class_docstr_method in Hstep.
    apply bind_Ok in Hstep as (f & _ & Hstep).
    apply bind_Ok in Hstep as (desc & _ & Hstep).
    apply bind_Ok in Hstep as (line & Hline & Hstep).
    injection Hstep as <-.
    destruct (IH _ Hrest) as (entries & Hall & ->).
    unfold fill_text in Hline.
    destruct ((String.length desc =? 0) || negb desc_funcs).
    + destruct i as [name|]; [|discriminate]. injection Hline as <-.
      exists (name :: entries). split; [constructor; [left; reflexivity|exact Hall]|].
      cbn. rewrite !app_assoc_str. reflexivity.
    + injection Hline as <-.
      exists ((py_str i +:+ " : " +:+ strip desc) :: entries).
      split; [constructor; [right; eexists; reflexivity|exact Hall]|].
      cbn. rewrite !app_assoc_str. reflexivity.
Qed.

(** C2. When [class_docstr] returns a docstring, the methods were
    deduplicated, sorted and reordered by [order_methods]: the name that
    sorted last stands at index 1 and the other names keep their sorted
    order, so the sorted names [bar], [foo], [~Cls] come out as [bar],
    [~Cls], [foo]; and the Methods section of the docstring, which
    stands before the Notes section, has one entry per method in that
    order. *)
Theorem class_docstr_methods_order
    (fill : TextWrapper -> string -> string) (class_dict : class_data)
    (desc_funcs : bool) (msg : string) :
  class_docstr fill class_dict desc_funcs = Ok msg ->
  exists ordered entries before,
    order_methods (list_of_set (members_methods class_dict)) = Ok ordered
    /\ (forall init last,
          py_sort (list_of_set (members_methods class_dict)) = init ++ [last] ->
          ordered = List.firstn 1 init ++ last :: List.skipn 1 init)
    /\ (py_sort (list_of_set (members_methods class_dict))
          = [Some "bar"; Some "foo"; Some "~Cls"] ->
        ordered = [Some "bar"; Some "~Cls"; Some "foo"])
    /\ Forall2 (fun i entry =>
                  i = Some entry \/ exists d, entry = py_str i +:+ " : " +:+ d)
         ordered entries
    /\ msg = before
         +:+ fill wrap_68 "Methods" +:+ nl
         +:+ fill wrap_68 "-------" +:+ nl
         +:+ foldr (fun entry rest => fill attrib_wrap entry +:+ nl +:+ rest)
               EmptyString entries
         +:+ nl
         +:+ fill wrap_68 "Notes" +:+ nl
         +:+ fill wrap_68 "-----" +:+ nl
         +:+ fill wrap_68 ("This class was defined in " +:+ file_name class_dict)
         +:+ nl +:+ nl
         +:+ fill wrap_68 ("The class is found in the " +:+ dquote
                             +:+ namespace class_dict +:+ dquote
                             +:+ " namespace").
Proof.
  intros H. unfold class_docstr in H.
  apply bind_Ok in H as (class_name & _ & H).
  apply bind_Ok in H as (pub & _ & H).
  apply bind_Ok in H as (ctor & _ & H).
  apply bind_Ok in H as (cls_msg & _ & H).
  apply bind_Ok in H as (msg0 & _ & H).
  apply bind_Ok in H as (ivars & _ & H).
  apply bind_Ok in H as (funcs & _ & H).
  apply bind_Ok in H as (msgA & _ & H).
  apply bind_Ok in H as (ordered & Hord & H).
  apply bind_Ok in H as (msgC & Hloop & H).
  injection H as <-.
  destruct (class_docstr_method_lines _ _ _ _ _ _ Hloop) as (entries & Hall & ->).
  exists ordered, entries, (msgA +:+ nl +:+ nl).
  split; [exact Hord|].
  split; [intros init last; apply order_methods_last_second; exact Hord|].
  split.
  { intros Hsort.
    apply (order_methods_last_second _ _ [Some "bar"; Some "foo"] (Some "~Cls")
             Hord Hsort). }
  split; [exact Hall|].
  rewrite !app_assoc_str. reflexivity.
Qed.

(** The class of the specification: the methods [foo], [~Cls], [bar] are
    listed as [bar], [~Cls], [foo]. *)
Lemma order_methods_example :
  py_sort (list_of_set (members_methods example_class))
  = [Some "bar"; Some "foo"; Some "~Cls"]
  /\ order_methods (list_of_set (members_methods example_class))
     = Ok [Some "bar"; Some "~Cls"; Some "foo"].
Proof. split; vm_compute; reflexivity. Qed.

Lemma class_docstr_methods_order_witness :
  exists msg,
    class_docstr greedy_fill example_class false = Ok msg
    /\ exists ordered entries before,
         order_methods (list_of_set (members_methods example_class)) = Ok ordered
         /\ (forall init last,
               py_sort (list_of_set (members_methods example_class))
               = init ++ [last] ->
               ordered = List.firstn 1 init ++ last :: List.skipn 1 init)
         /\ (py_sort (list_of_set (members_methods example_class))
               = [Some "bar"; Some "foo"; Some "~Cls"] ->
             ordered = [Some "bar"; Some "~Cls"; Some "foo"])
         /\ Forall2 (fun i entry =>
                       i = Some entry
                       \/ exists d, entry = py_str i +:+ " : " +:+ d)
              ordered entries
         /\ msg = before
              +:+ greedy_fill wrap_68 "Methods" +:+ nl
              +:+ greedy_fill wrap_68 "-------" +:+ nl
              +:+ foldr (fun entry rest =>
                           greedy_fill attrib_wrap entry +:+ nl +:+ rest)
                    EmptyString entries
              +:+ nl
              +:+ greedy_fill wrap_68 "Notes" +:+ nl
              +:+ greedy_fill wrap_68 "-----" +:+ nl
              +:+ greedy_fill wrap_68
                    ("This class was defined in " +:+ file_name example_class)
              +:+ nl +:+ nl
              +:+ greedy_fill wrap_68
                    ("The class is found in the " +:+ dquote
                       +:+ namespace example_class +:+ dquote
                       +:+ " namespace").
Proof.
  eexists. split.
  - vm_compute. reflexivity.
  - apply (class_docstr_methods_order greedy_fill example_class false).
    vm_compute. reflexivity.
Defined.

(** ** C7: the matches of a method name *)

Lemma filter_startswith (m : string) (l : list pyname) :
  (forall k, k ∈ l -> is_Some k) ->
  filter_raising (fun x => x ← attr_of x; Ok (startswith x m)) l
  = Ok (List.filter
          (fun k => match k with Some n => startswith n m | None => false end)
          l).
Proof.
  induction l as [|k l IH]; intros Hl; [reflexivity|].
  destruct (Hl k (list_elem_of_here _ _)) as [n ->].
  cbn. rewrite IH; [reflexivity|].
  intros k Hk. apply Hl, list_elem_of_further, Hk.
Qed.

Lemma for_each_getitem {V} (sec : gmap pyname V) (ks : list pyname) :
  (forall k, k ∈ ks -> is_Some (sec !! k)) ->
  exists vs,
    for_each (getitem sec) ks = Ok vs
    /\ (forall x, x ∈ vs <-> exists k, k ∈ ks /\ sec !! k = Some x).
Proof.
  induction ks as [|k ks IH]; intros Hks.
  - exists []. split; [reflexivity|]. intros x. split.
    + intros Hx. apply elem_of_nil in Hx. destruct Hx.
    + intros (k & Hk & _). apply elem_of_nil in Hk. destruct Hk.
  - destruct (Hks k (list_elem_of_here _ _)) as [v Hv].
    destruct IH as (vs & Hvs & Hiff).
    { intros k' Hk'. apply Hks, list_elem_of_further, Hk'. }
    exists (v :: vs). split.
    { cbn [for_each]. rewrite (getitem_Some _ _ _ Hv). cbn. rewrite Hvs. reflexivity. }
    intros x. rewrite elem_of_cons, Hiff. split.
    + intros [-> | (k' & Hk' & Hx)].
      * exists k. split; [apply list_elem_of_here | exact Hv].
      * exists k'. split; [apply list_elem_of_further, Hk' | exact Hx].
    + intros (k' & Hk' & Hx). apply elem_of_cons in Hk' as [-> | Hk'].
      * left. congruence.
      * right. eauto.
Qed.

(** The matches found in one section. *)
Lemma section_matches (sec : gmap pyname member) (m : string) :
  (forall k, is_Some (sec !! k) -> is_Some k) ->
  exists found,
    (m_names ← filter_raising
       (fun x => x ← attr_of x; Ok (startswith x m)) (map_to_list sec).*1;
     for_each (getitem sec) m_names) = Ok found
    /\ (forall x, x ∈ found <->
          exists name, sec !! Some name = Some x /\ startswith name m = true).
Proof.
  intros Hnames.
  assert (Hkeys : forall k, k ∈ (map_to_list sec).*1 <-> is_Some (sec !! k)).
  { intros k. rewrite list_elem_of_fmap. split.
    - intros ([k' v] & -> & Hkv). apply elem_of_map_to_list in Hkv. eauto.
    - intros [v Hv]. exists (k, v). split; [reflexivity|].
      apply elem_of_map_to_list. exact Hv. }
  rewrite filter_startswith by (intros k Hk; apply Hnames, Hkeys, Hk).
  cbn.
  set (ks := List.filter _ _).
  assert (Hks : forall k, k ∈ ks <->
            exists n, k = Some n /\ is_Some (sec !! k) /\ startswith n m = true).
  { intros k. unfold ks. rewrite list_elem_of_In, filter_In, <- list_elem_of_In.
    rewrite Hkeys. split.
    - intros [Hk Hm]. destruct k as [n|]; [|discriminate]. eauto.
    - intros (n & -> & Hk & Hm). auto. }
  destruct (for_each_getitem sec ks) as (vs & Hvs & Hiff).
  { intros k Hk. apply Hks in Hk as (n & _ & Hk & _). exact Hk. }
  exists vs. split; [exact Hvs|].
  intros x. rewrite Hiff. split.
  - intros (k & Hk & Hx). apply Hks in Hk as (n & -> & _ & Hm). eauto.
  - intros (n & Hx & Hm). exists (Some n). split; [|exact Hx].
    apply Hks. exists n. rewrite Hx. eauto.
Qed.

(** The matches found in the sections of a list of keys. *)
Lemma method_matches_spec (parsed : class_data) (keys : list string)
    (m : string) :
  (forall key sec k, key ∈ keys -> sections parsed !! key = Some sec ->
     is_Some (sec !! k) -> is_Some k) ->
  exists matches,
    method_matches parsed keys m = Ok matches
    /\ (forall x, x ∈ matches <->
          exists key sec name,
            key ∈ keys /\ sections parsed !! key = Some sec
            /\ sec !! Some name = Some x /\ startswith name m = true).
Proof.
  unfold method_matches.
  cut (forall acc,
         (forall key sec k, key ∈ keys -> sections parsed !! key = Some sec ->
            is_Some (sec !! k) -> is_Some k) ->
         exists matches,
           for_loop
             (fun matches key =>
                except_KeyError
                  (sec ← getitem (sections parsed) key;
                   m_names ← filter_raising
                     (fun x => x ← attr_of x; Ok (startswith x m))
                     (map_to_list sec).*1;
                   found ← for_each (getitem sec) m_names;
                   Ok (matches ++ found))
                  (Ok matches))
             keys acc = Ok matches
           /\ (forall x, x ∈ matches <->
                 x ∈ acc \/
                 exists key sec name,
                   key ∈ keys /\ sections parsed !! key = Some sec
                   /\ sec !! Some name = Some x /\ startswith name m = true)).
  { intros Hcut Hnames. destruct (Hcut [] Hnames) as (matches & Hl & Hiff).
    exists matches. split; [exact Hl|]. intros x. rewrite Hiff. split.
    - intros [Hx|Hx]; [apply elem_of_nil in Hx; destruct Hx | exact Hx].
    - auto. }
  induction keys as [|key keys IH]; intros acc Hnames.
  - exists acc. split; [reflexivity|]. intros x. split; [auto|].
    intros [Hx|(key & sec & name & Hk & _)]; [exact Hx|].
    apply elem_of_nil in Hk. destruct Hk.
  - assert (Hrest : forall key' sec k, key' ∈ keys ->
              sections parsed !! key' = Some sec ->
              is_Some (sec !! k) -> is_Some k).
    { intros key' sec k Hk. apply Hnames, list_elem_of_further, Hk. }
    cbn [for_loop].
    destruct (sections parsed !! key) as [sec|] eqn:Hsec.
    + destruct (section_matches sec m) as (found & Hfound & Hiff).
      { intros k. apply (Hnames key sec k (list_elem_of_here _ _) Hsec). }
      apply bind_Ok in Hfound as (names & Hfilter & Hfound).
      rewrite (getitem_Some _ _ _ Hsec). cbn [mbind result_bind].
      rewrite Hfilter. cbn [mbind result_bind].
      rewrite Hfound. cbn [except_KeyError mbind result_bind].
      destruct (IH (acc ++ found) Hrest) as (matches & Hl & Hm).
      exists matches. split; [exact Hl|].
      intros x. rewrite Hm, elem_of_app, Hiff. split.
      * intros [[Hx|(name & Hx & Hp)]|(key' & sec' & name & Hk & Hrem)].
        -- auto.
        -- right. exists key, sec, name.
           split; [apply list_elem_of_here|auto].
        -- right. exists key', sec', name.
           split; [apply list_elem_of_further, Hk|exact Hrem].
      * intros [Hx|(key' & sec' & name & Hk & Hs & Hx & Hp)]; [auto|].
        apply elem_of_cons in Hk as [-> | Hk].
        -- rewrite Hsec in Hs. injection Hs as <-. left. right. eauto.
        -- right. exists key', sec', name. auto.
    + rewrite (getitem_None _ _ Hsec). cbn [mbind result_bind except_KeyError].
      destruct (IH acc Hrest) as (matches & Hl & Hm).
      exists matches. split; [exact Hl|].
      intros x. rewrite Hm. split.
      * intros [Hx|(key' & sec' & name & Hk & Hrem)]; [auto|].
        right. exists key', sec', name.
        split; [apply list_elem_of_further, Hk|exact Hrem].
      * intros [Hx|(key' & sec' & name & Hk & Hs & Hrem)]; [auto|].
        apply elem_of_cons in Hk as [-> | Hk]; [congruence|].
        right. exists key', sec', name. auto.
Qed.











(** The method [Foo] of [overload_class] matches the entries [Foo] and
    [Foo1]: the docstring stored for it is the overload notice, an empty
    line, and the two docstrings with a line of [#] between them; the
    method [Baz] matches nothing and only the diagnostic is printed. *)
Lemma execute_method_overloaded_example :
  let keys := List.filter (str_in "func") (class_keys overload_class) in
  (exists m1 m2 d1 d2,
     method_matches overload_class keys "Foo" = Ok [m1; m2]
     /\ func_docstr greedy_fill m1 true = Ok d1
     /\ func_docstr greedy_fill m2 true = Ok d2
     /\ execute_method greedy_fill overload_class keys (fresh_docstrings, []) "Foo"
        = Ok (set_docstrings
                {| ds_class := None;
                   ds_methods :=
                     Some {[ "Foo" :=
                               (greedy_fill wrap_64 (_overload_msg "method")
                                  +:+ nl +:+ nl)
                               +:+ d1 +:+ str_repeat "#" 64 +:+ nl +:+ nl
                               +:+ d2 ]} |}
                fresh_docstrings, []))
  /\ execute_method greedy_fill overload_class keys (fresh_docstrings, []) "Baz"
     = Ok (fresh_docstrings,
           ["Couldn't find method Baz in xml. Skipping it - it will not appear in wrapper docstrings."]).
Proof.
  split.
  - eexists. eexists. eexists. eexists.
    split; [vm_compute; reflexivity|].
    split; [vm_compute; reflexivity|].
    split; [vm_compute; reflexivity|].
    vm_compute. reflexivity.
  - vm_compute. reflexivity.
Qed.


(** ** C1: the loop over the functions *)

(** With a non-empty index the test [f in x] has the tuple [f] on its
    left and a key of the index on its right, and raises [TypeError]. *)
Lemma execute_function_nonempty_index
    (fill : TextWrapper -> string -> string)
    (read_xml : string -> result element)
    (funcs : gmap pyname func_entry) (st : run) (f : api_tuple) :
  funcs <> ∅ ->
  execute_function fill read_xml funcs st f = Raise TypeError.
Proof.
  intros Hne. unfold execute_function.
  destruct (map_to_list funcs) as [|[k v] l] eqn:E.
  - apply map_to_list_empty_iff in E. contradiction.
  - cbn. destruct k; reflexivity.
Qed.

(** With an empty index there is no match; the body does not take the
    branch of the diagnostic but the branch of the overloads, and stores
    the notice as the docstring of the function. *)
Lemma execute_function_empty_index
    (fill : TextWrapper -> string -> string)
    (read_xml : string -> result element)
    (st : run) (f : api_tuple) (d : description) :
  env_get (env st) (item2 f) (item0 f) = Ok d ->
  execute_function fill read_xml ∅ st f
  = Ok (with_env
          (env_set (env st) (item2 f) (item0 f)
             (set_docstring
                ((fill wrap_68 (_overload_msg "function") +:+ nl +:+ nl)
                   +:+ EmptyString) d))
          (print "HERE OVERLOADING!" st)).
Proof.
  intros Hd. unfold execute_function.
  rewrite map_to_list_empty. cbn. rewrite Hd. reflexivity.
Qed.

(** C1, at an index without free functions: the function [add] of the
    pipeline has no match, yet nothing is skipped and the diagnostic is
    not printed: the run prints [HERE OVERLOADING!] and writes the
    overload notice under ['docstring']. *)
Theorem execute_function_without_match :
  exists env',
    execute greedy_fill global_files "build" [] [add_symbol] example_registry
    = Ok (env',
          ["doxygen: Running dOxygen";
           "doxygen: Adding dOxygen to docstrings";
           "HERE OVERLOADING!"])
    /\ (d ← env_get env' "mod" "add"; Ok (d_docstring d))
       = Ok (Some (greedy_fill wrap_68 (_overload_msg "function") +:+ nl +:+ nl)).
Proof.
  eexists. split; [vm_compute; reflexivity|]. vm_compute. reflexivity.
Qed.

(** At an index that has the function, the run ends in [TypeError]. *)
Lemma execute_function_with_match_raises :
  execute greedy_fill namespace_files "build" [] [add_symbol] example_registry
  = Raise TypeError.
Proof. vm_compute. reflexivity. Qed.

(** ** C9: the key of a member *)

Lemma pretty_N_go_length (x : N) (s : string) :
  String.length s <= String.length (pretty_N_go x s).
Proof.
  revert s. induction (N.lt_wf_0 x) as [x _ IH]. intros s.
  destruct (decide (x = 0%N)) as [->|Hx].
  - rewrite pretty_N_go_0. lia.
  - rewrite pretty_N_go_step by lia.
    etransitivity; [|apply IH; apply N.div_lt; lia]. cbn. lia.
Qed.

(** [str(i)] has a digit, and two from ten on. *)
Lemma pretty_nat_length (i : nat) :
  1 <= String.length (pretty i)
  /\ (10 <= i -> 2 <= String.length (pretty i)).
Proof.
  unfold pretty, pretty_nat, pretty, pretty_N.
  destruct (decide (N.of_nat i = 0%N)) as [Hz|Hnz].
  - split; [cbn; lia | lia].
  - rewrite pretty_N_go_step by lia. split.
    + etransitivity; [|apply pretty_N_go_length]. cbn. lia.
    + intros Hi.
      assert (0 < N.of_nat i `div` 10)%N.
      { apply N.div_str_pos. lia. }
      rewrite pretty_N_go_step by assumption.
      etransitivity; [|apply pretty_N_go_length]. cbn. lia.
Qed.

Lemma substring_0_length (m : nat) (s : string) :
  String.length (String.substring 0 m s) = Nat.min m (String.length s).
Proof.
  revert s. induction m as [|m IH]; intros s.
  - destruct s; reflexivity.
  - destruct s as [|c s]; [reflexivity|]. cbn. rewrite IH. reflexivity.
Qed.

Lemma drop_last_length (s : string) :
  String.length (drop_last s) = String.length s - 1.
Proof. unfold drop_last. rewrite substring_0_length. lia. Qed.

Lemma longest_key_bound {V} (sec_dict : gmap pyname V) (k : pyname) (v : V) :
  sec_dict !! k = Some v ->
  String.length (py_str k) <= longest_key sec_dict.
Proof.
  intros Hk. unfold longest_key.
  set (l := List.map _ _).
  assert (Hall : List.Forall (fun n => n <= list_max l) l).
  { apply list_max_le. lia. }
  rewrite List.Forall_forall in Hall. apply Hall.
  unfold l. apply in_map_iff. exists k. split; [reflexivity|].
  apply list_elem_of_In, list_elem_of_fmap. exists (k, v).
  split; [reflexivity|]. apply elem_of_map_to_list. exact Hk.
Qed.

(** The renaming loop ends within its bound, on a name that is no key. *)
Lemma mem_name_loop_ends {V} (sec_dict : gmap pyname V) (fuel i : nat)
    (s : string) :
  (longest_key sec_dict + 1 - String.length s) + (10 - i) < fuel ->
  exists key,
    mem_name_loop fuel sec_dict i (Some s) = Some (Ok (Some key))
    /\ sec_dict !! Some key = None.
Proof.
  revert i s. induction fuel as [|fuel IH]; intros i s Hfuel; [lia|].
  cbn [mem_name_loop].
  destruct (sec_dict !! Some s) as [v|] eqn:Hs; [|eauto].
  apply longest_key_bound in Hs. cbn [py_str] in Hs.
  apply IH.
  destruct (pretty_nat_length i) as [H1 H2].
  rewrite app_length_str.
  destruct (1 <? i) eqn:Hi.
  - apply Nat.ltb_lt in Hi. rewrite drop_last_length.
    destruct (le_lt_dec 10 i) as [H10|H10]; [specialize (H2 H10)|]; lia.
  - apply Nat.ltb_ge in Hi. lia.
Qed.

(** The key chosen for a member is no key of the section so far. *)
Lemma mem_key_total {V} (sec_dict : gmap pyname V) (name : string) :
  exists key,
    mem_key sec_dict (Some name) = Ok (Some key)
    /\ sec_dict !! Some key = None.
Proof.
  unfold mem_key, mem_name_fuel.
  destruct (mem_name_loop_ends sec_dict (longest_key sec_dict + 11) 1 name)
    as (key & Hloop & Hfresh); [lia|].
  rewrite Hloop. eauto.
Qed.

(** X1. For a member whose name is a text the renaming loop ends, and it
    ends on a key that the section does not have: storing the member
    under that key keeps every entry of the section, and the section
    grows by one key. *)
Lemma mem_key_keeps_entries {V} (sec_dict : gmap pyname V) (name : string)
    (r : V) :
  exists key,
    mem_key sec_dict (Some name) = Ok (Some key)
    /\ (forall k v, sec_dict !! k = Some v ->
          <[Some key := r]> sec_dict !! k = Some v)
    /\ <[Some key := r]> sec_dict !! Some key = Some r
    /\ size (<[Some key := r]> sec_dict) = S (size sec_dict).
Proof.
  destruct (mem_key_total sec_dict name) as (key & Hkey & Hfresh).
  exists key. split; [exact Hkey|]. split; [|split].
  - intros k v Hk. rewrite lookup_insert_ne; [exact Hk|]. congruence.
  - apply lookup_insert_eq.
  - apply map_size_insert_None. exact Hfresh.
Qed.

(** A name that is no key is kept; the first duplicate of a name gets the
    suffix 1 and the next one the suffix 2. *)
Lemma mem_key_first_names {V} (sec_dict : gmap pyname V) (name : string) :
  (sec_dict !! Some name = None -> mem_key sec_dict (Some name) = Ok (Some name))
  /\ (is_Some (sec_dict !! Some name) ->
      sec_dict !! Some (name +:+ "1") = None ->
      mem_key sec_dict (Some name) = Ok (Some (name +:+ "1")))
  /\ (is_Some (sec_dict !! Some name) ->
      is_Some (sec_dict !! Some (name +:+ "1")) ->
      sec_dict !! Some (drop_last (name +:+ "1") +:+ "2") = None ->
      mem_key sec_dict (Some name)
      = Ok (Some (drop_last (name +:+ "1") +:+ "2"))).
Proof.
  unfold mem_key, mem_name_fuel.
  replace (longest_key sec_dict + 11) with (S (S (S (longest_key sec_dict + 8))))
    by lia.
  split; [|split].
  - intros H. cbn [mem_name_loop]. rewrite H. reflexivity.
  - intros [v H] H1. cbn [mem_name_loop]. rewrite H.
    change (pretty 1) with "1". cbn [Nat.ltb Nat.leb]. rewrite H1. reflexivity.
  - intros [v H] [v1 H1] H2. cbn [mem_name_loop]. rewrite H.
    change (pretty 1) with "1". cbn [Nat.ltb Nat.leb]. rewrite H1.
    change (pretty 2) with "2". rewrite H2. reflexivity.
Qed.

Lemma drop_last_snoc (s : string) (c : ascii) :
  drop_last (s +:+ String c EmptyString) = s.
Proof.
  unfold drop_last. rewrite app_length_str. cbn [String.length].
  replace (String.length s + 1 - 1) with (String.length s) by lia.
  induction s as [|x s IH]; [reflexivity|].
  rewrite app_cons_str. cbn. rewrite IH. reflexivity.
Qed.

Lemma pretty_digit (j : nat) :
  j < 10 -> exists c, pretty j = String c EmptyString.
Proof.
  intros Hj.
  do 10 (destruct j as [|j]; [eexists; reflexivity|]). lia.
Qed.

Lemma mem_name_loop_numbering {V} (sec_dict : gmap pyname V) (name : string)
    (k : nat) :
  k <= 10 ->
  (forall j, 1 <= j < k -> is_Some (sec_dict !! Some (name +:+ pretty j))) ->
  sec_dict !! Some (name +:+ pretty k) = None ->
  forall n i fuel,
    k = n + i -> 1 <= i -> n < fuel ->
    mem_name_loop fuel sec_dict (S i) (Some (name +:+ pretty i))
    = Some (Ok (Some (name +:+ pretty k))).
Proof.
  intros Hk Hused Hfree. induction n as [|n IH]; intros i fuel Hki Hi Hfuel.
  - cbn in Hki. subst i. destruct fuel as [|fuel]; [lia|].
    cbn [mem_name_loop]. rewrite Hfree. reflexivity.
  - destruct fuel as [|fuel]; [lia|]. cbn [mem_name_loop].
    destruct (Hused i) as [v ->]; [lia|].
    assert (H1 : (1 <? S i) = true) by (apply Nat.ltb_lt; lia).
    rewrite H1.
    destruct (pretty_digit i) as [c Hc]; [lia|].
    rewrite Hc at 1. rewrite drop_last_snoc.
    apply IH; lia.
Qed.

(** X2. The duplicates of a name are numbered from 1 up to 10: when the name
    and its variants with the suffixes below [k] are keys and the variant
    with the suffix [k] is not, the member is stored under that variant. *)
Lemma mem_key_numbering {V} (sec_dict : gmap pyname V) (name : string)
    (k : nat) :
  1 <= k <= 10 ->
  is_Some (sec_dict !! Some name) ->
  (forall j, 1 <= j < k -> is_Some (sec_dict !! Some (name +:+ pretty j))) ->
  sec_dict !! Some (name +:+ pretty k) = None ->
  mem_key sec_dict (Some name) = Ok (Some (name +:+ pretty k)).
Proof.
  intros Hk [v Hname] Hused Hfree. unfold mem_key, mem_name_fuel.
  replace (longest_key sec_dict + 11) with (S (longest_key sec_dict + 10))
    by lia.
  cbn [mem_name_loop]. rewrite Hname. cbn [Nat.ltb Nat.leb].
  rewrite (mem_name_loop_numbering sec_dict name k) with (n := k - 1);
    [reflexivity | lia | exact Hused | exact Hfree | lia | lia | lia].
Qed.

(** C9, at a section with twelve members named [Foo]: [parse_class]
    keeps the twelve descriptions under twelve keys, the first eleven
    under [Foo], [Foo1], ..., [Foo10]; the twelfth is not stored under
    [Foo11], the name with the suffix 11, but under [Foo111].  And at a
    class whose method [get] is followed by a friend declaration: the
    brief description and the definition of [get] are overwritten with
    those of the friend. *)
Theorem parse_class_suffix_and_overwrite :
  (exists cd sec,
     parse_class twelve_files cls_entry = Ok cd
     /\ sections cd !! "public-func" = Some sec
     /\ size sec = 12
     /\ (briefdescription <$> sec !! Some "Foo") = Some (Some "Overload 0")
     /\ (briefdescription <$> sec !! Some "Foo1") = Some (Some "Overload 1")
     /\ (briefdescription <$> sec !! Some "Foo10") = Some (Some "Overload 10")
     /\ sec !! Some "Foo11" = None
     /\ (briefdescription <$> sec !! Some "Foo111") = Some (Some "Overload 11"))
  /\ (exists cd sec got,
        parse_class friend_files cls_entry = Ok cd
        /\ sections cd !! "public-func" = Some sec
        /\ sec !! Some "get" = Some got
        /\ briefdescription got = Some "A friend."
        /\ definition got = Some (Some "friend class Pal")).
Proof.
  split.
  - eexists. eexists. split; [vm_compute; reflexivity|].
    split; [vm_compute; reflexivity|].
    repeat split; vm_compute; reflexivity.
  - eexists. eexists. eexists. split; [vm_compute; reflexivity|].
    split; [vm_compute; reflexivity|].
    repeat split; vm_compute; reflexivity.
Qed.

(** * Further properties of the module *)

(** ** The key of a member, continued *)

Lemma mem_key_numbering_witness :
  mem_key three_foos (Some "Foo") = Ok (Some ("Foo" +:+ pretty 3)).
Proof.
  apply (mem_key_numbering three_foos "Foo" 3).
  - lia.
  - eexists. vm_compute. reflexivity.
  - intros j Hj. assert (Hcases : j = 1 \/ j = 2) by lia.
    destruct Hcases as [-> | ->]; eexists; vm_compute; reflexivity.
  - vm_compute. reflexivity.
Defined.

(** ** The methods that [class_docstr] lists *)

Lemma py_insert_perm {A} (i : nat) (x : A) (l : list A) :
  py_insert i x l ≡ₚ x :: l.
Proof.
  unfold py_insert. rewrite <- Permutation_middle.
  rewrite firstn_skipn. reflexivity.
Qed.

(** X5. The list of methods that [class_docstr] walks has every name of the
    index once, however often the index lists it (an overloaded method is
    listed once per overload), and no other name. *)
Theorem order_methods_distinct (methods : list pyname) :
  methods <> [] ->
  exists ordered,
    order_methods (list_of_set methods) = Ok ordered
    /\ NoDup ordered
    /\ (forall i, i ∈ ordered <-> i ∈ methods).
Proof.
  intros Hne. unfold order_methods.
  assert (Hperm : py_sort (list_of_set methods) ≡ₚ list_of_set methods)
    by apply py_sort_perm.
  destruct (List.rev (py_sort (list_of_set methods))) as [|last tl] eqn:Hrev.
  - exfalso.
    assert (Hnil : py_sort (list_of_set methods) = []).
    { rewrite <- (rev_involutive (py_sort _)), Hrev. reflexivity. }
    rewrite Hnil in Hperm. symmetry in Hperm.
    apply Permutation_nil_r in Hperm.
    destruct methods as [|m methods]; [contradiction|].
    assert (Hm : m ∈ list_of_set (m :: methods)).
    { unfold list_of_set. apply elem_of_elements, elem_of_list_to_set.
      apply list_elem_of_here. }
    rewrite Hperm in Hm. apply elem_of_nil in Hm. exact Hm.
  - assert (Hsort : py_sort (list_of_set methods) = List.rev tl ++ [last]).
    { rewrite <- (rev_involutive (py_sort _)), Hrev. reflexivity. }
    rewrite Hsort, py_pop_app. cbn.
    exists (py_insert 1 last (List.rev tl)). split; [reflexivity|].
    assert (Hord : py_insert 1 last (List.rev tl) ≡ₚ list_of_set methods).
    { rewrite py_insert_perm, <- Hperm, Hsort.
      rewrite Permutation_app_comm. reflexivity. }
    split.
    + rewrite Hord. unfold list_of_set. apply NoDup_elements.
    + intros i. rewrite Hord. unfold list_of_set.
      rewrite elem_of_elements, elem_of_list_to_set. reflexivity.
Qed.

Lemma order_methods_distinct_witness :
  exists ordered,
    order_methods (list_of_set [Some "Foo"; Some "Foo"; Some "Bar"]) = Ok ordered
    /\ NoDup ordered
    /\ (forall i, i ∈ ordered <-> i ∈ [Some "Foo"; Some "Foo"; Some "Bar"]).
Proof.
  apply (order_methods_distinct [Some "Foo"; Some "Foo"; Some "Bar"]).
  discriminate.
Defined.

(** X6. A class whose index entry lists no method cannot be rendered:
    [methods.pop()] finds the list empty, and [class_docstr] returns no
    docstring. *)
Theorem class_docstr_without_methods
    (fill : TextWrapper -> string -> string) (class_dict : class_data)
    (desc_funcs : bool) :
  members_methods class_dict = [] ->
  exists e, class_docstr fill class_dict desc_funcs = Raise e.
Proof.
  intros Hnone.
  destruct (class_docstr fill class_dict desc_funcs) as [msg|e] eqn:H;
    [|eauto].
  exfalso. unfold class_docstr in H.
  apply bind_Ok in H as (class_name & _ & H).
  apply bind_Ok in H as (pub & _ & H).
  apply bind_Ok in H as (ctor & _ & H).
  apply bind_Ok in H as (cls_msg & _ & H).
  apply bind_Ok in H as (msg0 & _ & H).
  apply bind_Ok in H as (ivars & _ & H).
  apply bind_Ok in H as (funcs & _ & H).
  apply bind_Ok in H as (msgA & _ & H).
  apply bind_Ok in H as (ordered & Hord & _).
  rewrite Hnone in Hord. vm_compute in Hord. discriminate.
Qed.

Lemma class_docstr_without_methods_witness :
  members_methods class_without_methods = []
  /\ class_docstr greedy_fill class_without_methods false = Raise IndexError.
Proof.
  split; [reflexivity|].
  destruct (class_docstr_without_methods greedy_fill class_without_methods
              false eq_refl) as [e He].
  rewrite He. f_equal. vm_compute in He. injection He as <-. reflexivity.
Defined.

(** ** [parse_class]: one entry for each member *)

(** The key that the renaming loop chooses is no key of the section. *)
Lemma mem_key_fresh {V} (sec_dict : gmap pyname V) (mem_name key : pyname) :
  mem_key sec_dict mem_name = Ok key -> sec_dict !! key = None.
Proof.
  destruct mem_name as [name|].
  - destruct (mem_key_total sec_dict name) as (k & Hk & Hfresh).
    rewrite Hk. intros H. injection H as <-. exact Hfresh.
  - unfold mem_key, mem_name_fuel.
    replace (longest_key sec_dict + 11) with (S (longest_key sec_dict + 10))
      by lia.
    cbn [mem_name_loop].
    destruct (sec_dict !! None) as [v|] eqn:Hnone; [discriminate|].
    intros H. injection H as <-. exact Hnone.
Qed.

Lemma insert_keeps_allocated (objs : gmap nat member) (r r0 : nat) (m : member) :
  is_Some (objs !! r0) -> is_Some (<[r := m]> objs !! r0).
Proof.
  intros H. destruct (decide (r = r0)) as [->|Hne].
  - rewrite lookup_insert_eq. eauto.
  - rewrite lookup_insert_ne by exact Hne. exact H.
Qed.

(** A pass of the loop over the members stores a reference to an
    allocated dictionary under a key that the section did not have. *)
Lemma parse_class_member_stores (objs objs' : class_parse)
    (sec_dict sec_dict' : gmap pyname nat) (mem : element) :
  parse_class_member (objs, sec_dict) mem = Ok (objs', sec_dict') ->
  exists key r,
    sec_dict !! key = None
    /\ sec_dict' = <[key := r]> sec_dict
    /\ is_Some (objects objs' !! r)
    /\ (forall r0, is_Some (objects objs !! r0) ->
          is_Some (objects objs' !! r0)).
Proof.
  unfold parse_class_member. intros H.
  apply bind_Ok in H as (m_kind & _ & H).
  apply bind_Ok in H as (objs1 & Hobjs & H).
  apply bind_Ok in H as (r & Hr & H).
  apply bind_Ok in H as (the_dict & _ & H).
  apply bind_Ok in H as (the_dict' & _ & H).
  apply bind_Ok in H as (mem_name & _ & H).
  apply bind_Ok in H as (key & Hkey & H).
  injection H as <- <-.
  exists key, r. split; [exact (mem_key_fresh _ _ _ Hkey)|].
  split; [reflexivity|]. cbn [objects].
  split; [rewrite lookup_insert_eq; eauto|].
  intros r0 Hr0. apply insert_keeps_allocated.
  destruct (String.eqb m_kind "function").
  - apply bind_Ok in Hobjs as (m & _ & Hobjs). injection Hobjs as <-.
    cbn [new_object objects]. apply insert_keeps_allocated. exact Hr0.
  - destruct (String.eqb m_kind "variable").
    + apply bind_Ok in Hobjs as (m & _ & Hobjs). injection Hobjs as <-.
      cbn [new_object objects]. apply insert_keeps_allocated. exact Hr0.
    + injection Hobjs as <-. exact Hr0.
Qed.

(** The loop over the members of a section adds one key for each member:
    no pass replaces an entry. *)
Lemma parse_class_members_stored (mems : list element) :
  forall (objs objs' : class_parse) (sec_dict sec_dict' : gmap pyname nat),
  for_loop parse_class_member mems (objs, sec_dict) = Ok (objs', sec_dict') ->
  size sec_dict' = size sec_dict + List.length mems
  /\ (forall r0, is_Some (objects objs !! r0) -> is_Some (objects objs' !! r0))
  /\ ((forall k r, sec_dict !! k = Some r -> is_Some (objects objs !! r)) ->
      forall k r, sec_dict' !! k = Some r -> is_Some (objects objs' !! r)).
Proof.
  induction mems as [|mem mems IH]; intros objs objs' sec_dict sec_dict' H.
  - injection H as <- <-. cbn. split; [lia|]. split; auto.
  - cbn [for_loop] in H. apply bind_Ok in H as ([objs1 sd1] & Hmem & H).
    apply parse_class_member_stores in Hmem
      as (key & r & Hfresh & -> & Hr & Hmono).
    apply IH in H as (Hsize & Hmono' & Hvalid).
    split; [|split].
    + rewrite Hsize, (map_size_insert_None _ _ _ Hfresh). cbn. lia.
    + auto.
    + intros Hsec. apply Hvalid. intros k r1 Hk.
      destruct (decide (key = k)) as [->|Hne].
      * rewrite lookup_insert_eq in Hk. injection Hk as <-. exact Hr.
      * rewrite lookup_insert_ne in Hk by exact Hne. eauto.
Qed.

Lemma for_loop_invariant_in {A S} (body : S -> A -> result S) (P : S -> Prop)
    (l : list A) (s s' : S) :
  (forall s x s', x ∈ l -> P s -> body s x = Ok s' -> P s') ->
  P s -> for_loop body l s = Ok s' -> P s'.
Proof.
  revert s. induction l as [|x l IH]; intros s Hbody Hs Hloop.
  - injection Hloop as <-. exact Hs.
  - cbn [for_loop] in Hloop. apply bind_Ok in Hloop as (s1 & Hx & Hloop).
    apply (IH s1); [|exact (Hbody s x s1 (list_elem_of_here _ _) Hs Hx)|exact Hloop].
    intros s2 y s3 Hy. apply Hbody, list_elem_of_further, Hy.
Qed.

Lemma deref_size (objs : class_parse) (sec_dict : gmap pyname nat) :
  (forall k r, sec_dict !! k = Some r -> is_Some (objects objs !! r)) ->
  size (deref objs sec_dict) = size sec_dict.
Proof.
  intros Hvalid. rewrite <- !size_dom. f_equal.
  apply set_eq. intros k. rewrite !elem_of_dom. unfold deref.
  rewrite lookup_omap. destruct (sec_dict !! k) as [r|] eqn:Hk; cbn.
  - split; [eauto|]. intros _. exact (Hvalid k r Hk).
  - split; intros [x Hx]; discriminate.
Qed.

(** X3. Every section of the dictionary that [parse_class] returns comes from
    a [sectiondef] of its kind in the file and has as many entries as that
    [sectiondef] has members: the renaming of the duplicates loses no
    member. *)
Theorem parse_class_sections_complete
    (read_xml : string -> result element) (class_dict : kls_entry)
    (croot compd_def : element) (data : class_data) :
  read_xml (k_file_name class_dict +:+ ".xml") = Ok croot ->
  find "compounddef" croot = Some compd_def ->
  parse_class read_xml class_dict = Ok data ->
  forall kind sec,
    sections data !! kind = Some sec ->
    exists sdef,
      sdef ∈ iter "sectiondef" compd_def
      /\ attrib sdef !! "kind" = Some kind
      /\ size sec = List.length (iter "memberdef" sdef).
Proof.
  intros Hread Hcompd H kind sec Hsec.
  unfold parse_class in H. rewrite Hread in H. cbn [mbind result_bind] in H.
  rewrite Hcompd in H. cbn [attr_of mbind result_bind] in H.
  apply bind_Ok in H as ([objs secs] & Hloop & H).
  apply bind_Ok in H as (name & _ & H).
  apply bind_Ok in H as (loc & _ & H).
  apply bind_Ok in H as (file & _ & H).
  apply bind_Ok in H as (c_fn & _ & H).
  apply bind_Ok in H as (name' & _ & H).
  injection H as <-. cbn [sections] in Hsec.
  rewrite lookup_fmap in Hsec.
  apply fmap_Some in Hsec as (sd & Hsd & ->).
  change (foldr delete secs meta_keys !! kind = Some sd) in Hsd.
  apply lookup_foldr_delete_Some in Hsd as [_ Hsd].
  assert (Hinv : forall kind sd, secs !! kind = Some sd ->
            (forall k r, sd !! k = Some r -> is_Some (objects objs !! r))
            /\ exists sdef,
                 sdef ∈ iter "sectiondef" compd_def
                 /\ attrib sdef !! "kind" = Some kind
                 /\ size sd = List.length (iter "memberdef" sdef)).
  { refine (for_loop_invariant_in parse_class_section
              (fun s : class_parse * gmap string (gmap pyname nat) =>
                 forall kind sd, s.2 !! kind = Some sd ->
                   (forall k r, sd !! k = Some r -> is_Some (objects s.1 !! r))
                   /\ exists sdef,
                        sdef ∈ iter "sectiondef" compd_def
                        /\ attrib sdef !! "kind" = Some kind
                        /\ size sd = List.length (iter "memberdef" sdef))
              _ _ (objs, secs) _ _ Hloop).
    - intros [objs0 data0] sdef [objs1 data1] Hin Hinv Hstep.
      unfold parse_class_section in Hstep.
      apply bind_Ok in Hstep as (sec_name & Hname & Hstep).
      apply bind_Ok in Hstep as ([objs2 sd2] & Hmems & Hstep).
      injection Hstep as <- <-.
      apply parse_class_members_stored in Hmems as (Hsize & Hmono & Hvalid).
      unfold getitem in Hname.
      destruct (attrib sdef !! "kind") as [k0|] eqn:Hk0; [|discriminate].
      injection Hname as ->.
      intros kind' sd' Hlook. cbn [fst snd] in *.
      destruct (decide (sec_name = kind')) as [->|Hne].
      + rewrite lookup_insert_eq in Hlook. injection Hlook as <-. split.
        * apply Hvalid. intros k r Hk. rewrite lookup_empty in Hk. discriminate.
        * exists sdef. split; [exact Hin|]. split; [exact Hk0|].
          rewrite Hsize, map_size_empty. reflexivity.
      + rewrite lookup_insert_ne in Hlook by exact Hne.
        destruct (Hinv kind' sd' Hlook) as (Hv & Hex). split; [|exact Hex].
        intros k r Hk. apply Hmono. exact (Hv k r Hk).
    - intros kind' sd' Hlook. cbn in Hlook. rewrite lookup_empty in Hlook.
      discriminate. }
  destruct (Hinv kind sd Hsd) as (Hvalid & sdef & Hin & Hkind & Hsize).
  exists sdef. split; [exact Hin|]. split; [exact Hkind|].
  rewrite deref_size by exact Hvalid. exact Hsize.
Qed.

Lemma parse_class_sections_complete_witness :
  exists compd_def data sec,
    find "compounddef" class_with_friend = Some compd_def
    /\ parse_class friend_files cls_entry = Ok data
    /\ sections data !! "public-func" = Some sec
    /\ exists sdef,
         sdef ∈ iter "sectiondef" compd_def
         /\ attrib sdef !! "kind" = Some "public-func"
         /\ size sec = List.length (iter "memberdef" sdef).
Proof.
  eexists. eexists. eexists. split; [vm_compute; reflexivity|].
  split; [vm_compute; reflexivity|].
  split; [vm_compute; reflexivity|].
  eapply (parse_class_sections_complete friend_files cls_entry class_with_friend).
  - reflexivity.
  - vm_compute. reflexivity.
  - vm_compute. reflexivity.
  - vm_compute. reflexivity.
Defined.

(** ** [parse_class]: a first member that is neither function nor variable *)

Lemma parse_class_member_unbound (objs : gmap nat member)
    (sec_dict : gmap pyname nat) (mem : element) (m_kind : string) :
  attrib mem !! "kind" = Some m_kind ->
  m_kind <> "function" -> m_kind <> "variable" ->
  parse_class_member ({| objects := objs; mem_dict_var := None |}, sec_dict) mem
  = Raise NameError.
Proof.
  intros Hkind Hf Hv. unfold parse_class_member.
  rewrite (getitem_Some _ _ _ Hkind). cbn [mbind result_bind].
  apply String.eqb_neq in Hf, Hv. rewrite Hf, Hv. reflexivity.
Qed.

(** X4. When the first member of the first section of a class is neither a
    function nor a variable (an enumeration, a typedef, a friend), the
    variable [mem_dict] is read before it is bound: [parse_class] raises
    [NameError] and returns no dictionary, whatever the rest of the file
    holds. *)
Theorem parse_class_first_member_of_other_kind
    (read_xml : string -> result element) (class_dict : kls_entry)
    (croot compd_def sec mem : element) (secs mems : list element)
    (sec_kind m_kind : string) :
  read_xml (k_file_name class_dict +:+ ".xml") = Ok croot ->
  find "compounddef" croot = Some compd_def ->
  iter "sectiondef" compd_def = sec :: secs ->
  attrib sec !! "kind" = Some sec_kind ->
  iter "memberdef" sec = mem :: mems ->
  attrib mem !! "kind" = Some m_kind ->
  m_kind <> "function" -> m_kind <> "variable" ->
  parse_class read_xml class_dict = Raise NameError.
Proof.
  intros Hread Hcompd Hsecs Hsec Hmems Hkind Hf Hv.
  unfold parse_class. rewrite Hread. cbn [mbind result_bind].
  rewrite Hcompd. cbn [attr_of mbind result_bind].
  rewrite Hsecs. cbn [for_loop].
  assert (Hfirst : parse_class_section
                     ({| objects := ∅; mem_dict_var := None |}, ∅) sec
                   = Raise NameError).
  { unfold parse_class_section.
    rewrite (getitem_Some _ _ _ Hsec). cbn [mbind result_bind].
    rewrite Hmems. cbn [for_loop].
    rewrite (parse_class_member_unbound _ _ _ _ Hkind Hf Hv). reflexivity. }
  rewrite Hfirst. reflexivity.
Qed.

Lemma parse_class_first_member_of_other_kind_witness :
  parse_class enum_files cls_entry = Raise NameError.
Proof.
  eapply (parse_class_first_member_of_other_kind enum_files cls_entry
            class_with_enum _ _ enum_xml _ _ "public-type" "enum").
  - reflexivity.
  - vm_compute. reflexivity.
  - vm_compute. reflexivity.
  - vm_compute. reflexivity.
  - vm_compute. reflexivity.
  - vm_compute. reflexivity.
  - discriminate.
  - discriminate.
Defined.

(** ** [class_docstr]: the entry of the constructor *)

(** X7. [class_docstr] takes the text of the class from the entry that the
    section ['public-func'] has under the name of the class.  Without
    that section, or without that entry in it, it raises [KeyError]: a
    class that declares no public constructor gets no docstring. *)
Theorem class_docstr_without_constructor
    (fill : TextWrapper -> string -> string) (class_dict : class_data)
    (desc_funcs : bool) (class_name : string) :
  last_item (split "::" (kls_name class_dict)) = Ok class_name ->
  (forall pub, sections class_dict !! "public-func" = Some pub ->
     pub !! Some class_name = None) ->
  class_docstr fill class_dict desc_funcs = Raise KeyError.
Proof.
  intros Hname Hctor. unfold class_docstr.
  rewrite Hname. cbn [mbind result_bind].
  destruct (sections class_dict !! "public-func") as [pub|] eqn:Hpub.
  - rewrite (getitem_Some _ _ _ Hpub). cbn [mbind result_bind].
    rewrite (getitem_None _ _ (Hctor pub eq_refl)). reflexivity.
  - rewrite (getitem_None _ _ Hpub). reflexivity.
Qed.

Lemma class_docstr_without_constructor_witness :
  class_docstr greedy_fill class_without_ctor false = Raise KeyError.
Proof.
  apply (class_docstr_without_constructor greedy_fill class_without_ctor
           false "Cls").
  - vm_compute. reflexivity.
  - intros pub Hpub. vm_compute in Hpub. injection Hpub as <-.
    vm_compute. reflexivity.
Defined.

(** ** [execute]: the loop over the functions *)

(** X11. Once the index has a free function, the run cannot document any
    function of the pipeline: the first pass of the loop over
    [rc.functions] tests [f in x] with the tuple [f] on the left of a key
    of the index, and [execute] ends in [TypeError]. *)
Theorem execute_functions_with_index_raise
    (fill : TextWrapper -> string -> string)
    (read_xml : string -> result element) (build_dir : string)
    (rc_classes rc_functions : list api_tuple) (rc_env : registry)
    (classes : gmap string kls_entry) (funcs : gmap pyname func_entry)
    (st : run) :
  parse_index_xml read_xml
    ((build_dir +:+ sep +:+ "xml") +:+ sep +:+ "index.xml") = Ok (classes, funcs) ->
  for_loop (execute_class fill read_xml build_dir) rc_classes
    {| classes := classes; env := rc_env;
       out := ["doxygen: Running dOxygen";
               "doxygen: Adding dOxygen to docstrings"] |} = Ok st ->
  funcs <> ∅ ->
  rc_functions <> [] ->
  execute fill read_xml build_dir rc_classes rc_functions rc_env
  = Raise TypeError.
Proof.
  intros Hindex Hclasses Hfuncs Hfs. unfold execute.
  rewrite Hindex. cbn [mbind result_bind].
  change (["doxygen: Running dOxygen"] ++ ["doxygen: Adding dOxygen to docstrings"])
    with ["doxygen: Running dOxygen"; "doxygen: Adding dOxygen to docstrings"].
  rewrite Hclasses. cbn [mbind result_bind].
  destruct rc_functions as [|f fs]; [contradiction|].
  cbn [for_loop].
  rewrite (execute_function_nonempty_index fill read_xml funcs st f Hfuncs).
  reflexivity.
Qed.

Lemma execute_functions_with_index_raise_witness :
  execute greedy_fill namespace_files "build" [] [add_symbol] example_registry
  = Raise TypeError.
Proof.
  eapply (execute_functions_with_index_raise greedy_fill namespace_files
            "build" [] [add_symbol] example_registry).
  - vm_compute. reflexivity.
  - reflexivity.
  - intros H. apply (f_equal (fun m => m !! Some "add")) in H.
    vm_compute in H. discriminate.
  - discriminate.
Defined.

(** ** From [parse_function] to [func_docstr] *)

(** [_parse_func] sets the four keys of a function. *)
Lemma parse_func_keys (f_xml : element) (m : member) :
  _parse_func f_xml = Ok m ->
  is_Some (detaileddescription m) /\ is_Some (ret_type m)
  /\ is_Some (args m) /\ is_Some (arg_string m)
  /\ briefdescription m = None /\ definition m = None /\ type_ m = None.
Proof.
  unfold _parse_func. intros H.
  apply bind_Ok in H as ([dd ad] & _ & H).
  apply bind_Ok in H as (ret & _ & H).
  apply bind_Ok in H as (a & _ & H).
  apply bind_Ok in H as (s & _ & H).
  injection H as <-. cbn. repeat split; eauto.
Qed.

(** [_parse_common] sets ['briefdescription'] and ['definition'] and
    keeps the other keys. *)
Lemma parse_common_keys (xml : element) (the_dict m : member) :
  _parse_common xml the_dict = Ok m ->
  is_Some (briefdescription m) /\ is_Some (definition m)
  /\ detaileddescription m = detaileddescription the_dict
  /\ ret_type m = ret_type the_dict
  /\ type_ m = type_ the_dict
  /\ args m = args the_dict
  /\ arg_string m = arg_string the_dict.
Proof.
  unfold _parse_common. intros H.
  apply bind_Ok in H as (def & _ & H).
  injection H as <-. cbn. repeat split; eauto.
Qed.

(** A function dictionary with its keys and a text as its detailed
    description is rendered. *)
Lemma func_docstr_renders (fill : TextWrapper -> string -> string)
    (func_dict : member) (is_method : bool) (brief detailed : string)
    (a : option (gmap pyname arg_entry)) (returning : option string) :
  briefdescription func_dict = Some brief ->
  detaileddescription func_dict = Some (Some detailed) ->
  args func_dict = Some a ->
  ret_type func_dict = Some returning ->
  exists doc, func_docstr fill func_dict is_method = Ok doc.
Proof.
  intros Hbrief Hdet Ha Hr. unfold func_docstr.
  set (wrapper := if is_method then wrap_64 else wrap_68).
  rewrite Hdet, Hbrief, Ha, Hr. cbn [field as_str mbind result_bind].
  match goal with
  | |- context [for_loop (func_docstr_add_param fill wrapper) _ ?msg] =>
      destruct (add_params_append fill wrapper (func_docstr_params a) msg
                  (func_docstr_params_nonempty a)) as (pb & _ & Hpb)
  end.
  rewrite Hpb. cbn [mbind result_bind].
  match goal with
  | |- context [for_loop (func_docstr_add_ret fill wrapper) _ ?msg] =>
      destruct (add_rets_append fill wrapper (func_docstr_rets returning) msg
                  (func_docstr_rets_nonempty returning)) as (rb & _ & Hrb)
  end.
  rewrite Hrb. eauto.
Qed.

(** Without a text as its detailed description the two descriptions
    cannot be joined. *)
Lemma func_docstr_without_text (fill : TextWrapper -> string -> string)
    (func_dict : member) (is_method : bool) :
  is_Some (briefdescription func_dict) ->
  detaileddescription func_dict = Some None ->
  func_docstr fill func_dict is_method = Raise TypeError.
Proof.
  intros [brief Hbrief] Hdet. unfold func_docstr.
  rewrite Hdet, Hbrief. reflexivity.
Qed.

(** X8. Every dictionary that [parse_function] returns has the keys that
    [func_docstr] reads, so rendering it raises no [KeyError]: it gives a
    docstring when the detailed description that was stored is a text, and
    raises [TypeError] when it is [None], which is what the parser stores
    for a first paragraph without a text of its own, as a paragraph that
    starts with markup. *)
Theorem parse_function_renders
    (fill : TextWrapper -> string -> string)
    (read_xml : string -> result element) (func_dict : func_entry)
    (parsed : member) (is_method : bool) :
  parse_function read_xml func_dict = Ok parsed ->
  exists detailed,
    detaileddescription parsed = Some detailed
    /\ match detailed with
       | Some _ => exists doc, func_docstr fill parsed is_method = Ok doc
       | None => func_docstr fill parsed is_method = Raise TypeError
       end.
Proof.
  unfold parse_function. intros H.
  apply bind_Ok in H as (root & _ & H).
  apply bind_Ok in H as (compd_def & _ & H).
  apply bind_Ok in H as (secs & _ & H).
  apply bind_Ok in H as (func_sec & _ & H).
  apply bind_Ok in H as (funs & _ & H).
  apply bind_Ok in H as (this_func & _ & H).
  apply bind_Ok in H as (ret_dict & Hfunc & Hcommon).
  apply parse_func_keys in Hfunc
    as ([detailed Hdet] & [returning Hret] & [a Ha] & _).
  apply parse_common_keys in Hcommon
    as ([brief Hbrief] & _ & Hdet' & Hret' & _ & Ha' & _).
  rewrite Hdet in Hdet'. rewrite Hret in Hret'. rewrite Ha in Ha'.
  exists detailed. split; [exact Hdet'|].
  destruct detailed as [detailed|].
  - exact (func_docstr_renders fill parsed is_method brief detailed a returning
             Hbrief Hdet' Ha' Hret').
  - apply func_docstr_without_text; [eauto | exact Hdet'].
Qed.

Lemma parse_function_renders_witness :
  exists parsed,
    parse_function arith_files add_entry = Ok parsed
    /\ exists detailed,
         detaileddescription parsed = Some detailed
         /\ match detailed with
            | Some _ => exists doc, func_docstr greedy_fill parsed false = Ok doc
            | None => func_docstr greedy_fill parsed false = Raise TypeError
            end.
Proof.
  eexists. split; [vm_compute; reflexivity|].
  apply (parse_function_renders greedy_fill arith_files add_entry).
  vm_compute. reflexivity.
Defined.

(** ** [execute]: what the pass over a class changes *)

Lemma env_get_env_set_ne (env : registry) (m n m' n' : string)
    (d : description) :
  m' <> m \/ n' <> n ->
  env_get (env_set env m n d) m' n' = env_get env m' n'.
Proof.
  intros Hne. unfold env_get, env_set.
  destruct (env !! m) as [mm|] eqn:Hm; [|reflexivity].
  destruct (decide (m' = m)) as [->|Hmm].
  - rewrite (getitem_Some _ _ _ (lookup_insert_eq env m _)).
    rewrite (getitem_Some _ _ _ Hm). cbn [mbind result_bind].
    unfold getitem. rewrite lookup_insert_ne; [reflexivity|].
    destruct Hne; congruence.
  - unfold getitem at 2 4. rewrite lookup_insert_ne by congruence. reflexivity.
Qed.

Lemma env_get_env_set_eq (env : registry) (m n : string) (d0 d : description) :
  env_get env m n = Ok d0 ->
  env_get (env_set env m n d) m n = Ok d.
Proof.
  unfold env_get, env_set. intros H.
  apply bind_Ok in H as (mm & Hm & _).
  unfold getitem in Hm. destruct (env !! m) as [mm'|] eqn:E; [|discriminate].
  rewrite (getitem_Some _ _ _ (lookup_insert_eq env m _)).
  cbn [mbind result_bind]. apply getitem_Some, lookup_insert_eq.
Qed.

Lemma store_method_keeps (m m_ds : string) (d d' : description) :
  store_method m m_ds d = Ok d' ->
  d_methods d' = d_methods d /\ d_docstring d' = d_docstring d.
Proof.
  unfold store_method. intros H.
  apply bind_Ok in H as (ds & _ & H).
  apply bind_Ok in H as (meths & _ & H).
  injection H as <-. split; reflexivity.
Qed.

Lemma execute_method_keeps (fill : TextWrapper -> string -> string)
    (parsed : class_data) (func_grp_keys : list string)
    (st st' : description * list string) (m : string) :
  execute_method fill parsed func_grp_keys st m = Ok st' ->
  d_methods st'.1 = d_methods st.1 /\ d_docstring st'.1 = d_docstring st.1.
Proof.
  destruct st as [d printed]. unfold execute_method. intros H.
  apply bind_Ok in H as (matches & _ & H).
  destruct (List.length matches =? 1).
  - apply bind_Ok in H as (m0 & _ & H).
    apply bind_Ok in H as (m_ds & _ & H).
    apply bind_Ok in H as (d1 & Hstore & H).
    injection H as <-. exact (store_method_keeps _ _ _ _ Hstore).
  - destruct (1 <? List.length matches).
    + apply bind_Ok in H as (ds_list & _ & H).
      apply bind_Ok in H as (d1 & Hstore & H).
      injection H as <-. exact (store_method_keeps _ _ _ _ Hstore).
    + injection H as <-. split; reflexivity.
Qed.

(** What a pass of the loop over the classes does to the index and the
    registry, when it returns. *)
Lemma execute_class_Ok (fill : TextWrapper -> string -> string)
    (read_xml : string -> result element) (build_dir : string)
    (st st' : run) (c : api_tuple) (this_kls : kls_entry) :
  classes st !! item0 c = Some this_kls ->
  execute_class fill read_xml build_dir st c = Ok st' ->
  exists d d',
    env_get (env st) (item2 c) (item0 c) = Ok d
    /\ d_methods d' = d_methods d
    /\ d_docstring d' = d_docstring d
    /\ env st' = env_set (env st) (item2 c) (item0 c) d'
    /\ classes st'
       = <[item0 c :=
             {| k_file_name :=
                  (build_dir +:+ sep +:+ "xml" +:+ sep) +:+ k_file_name this_kls;
                k_namespace := k_namespace this_kls;
                k_vars := k_vars this_kls;
                k_methods := k_methods this_kls |}]> (classes st).
Proof.
  intros Hkls H. unfold execute_class in H. rewrite Hkls in H.
  apply bind_Ok in H as (parsed & _ & H).
  apply bind_Ok in H as (d & Hd & H).
  apply bind_Ok in H as (cls_ds & _ & H).
  apply bind_Ok in H as (ds & _ & H).
  apply bind_Ok in H as (methods & _ & H).
  apply bind_Ok in H as ([d' printed] & Hloop & H).
  injection H as <-. cbn in Hd.
  exists d, d'. split; [exact Hd|].
  apply (for_loop_invariant _
           (fun s => d_methods s.1 = d_methods d
                     /\ d_docstring s.1 = d_docstring d)) in Hloop.
  - destruct Hloop as [Hm Hs]. repeat split; assumption.
  - intros s x s' [Hm Hs] Hx.
    apply execute_method_keeps in Hx as [Hm' Hs']. split; congruence.
  - cbn. destruct (d_docstrings d); split; reflexivity.
Qed.

(** X9. A pass of the loop over the classes that returns changes one entry
    of the registry at most, the description of its class, and of that
    description neither the methods nor the key ['docstring']: it writes
    under ['docstrings'] only. *)
Theorem execute_class_registry_frame
    (fill : TextWrapper -> string -> string)
    (read_xml : string -> result element) (build_dir : string)
    (st st' : run) (c : api_tuple) :
  execute_class fill read_xml build_dir st c = Ok st' ->
  (forall mod_ name,
     mod_ <> item2 c \/ name <> item0 c ->
     env_get (env st') mod_ name = env_get (env st) mod_ name)
  /\ (forall d, env_get (env st) (item2 c) (item0 c) = Ok d ->
        exists d', env_get (env st') (item2 c) (item0 c) = Ok d'
                   /\ d_methods d' = d_methods d
                   /\ d_docstring d' = d_docstring d).
Proof.
  intros H.
  destruct (classes st !! item0 c) as [this_kls|] eqn:Hkls.
  - destruct (execute_class_Ok fill read_xml build_dir st st' c this_kls Hkls H)
      as (d & d' & Hd & Hm & Hs & Henv & _).
    rewrite Henv. split.
    + intros mod_ name Hne. apply env_get_env_set_ne. exact Hne.
    + intros d0 Hd0. rewrite Hd in Hd0. injection Hd0 as <-.
      exists d'. split; [exact (env_get_env_set_eq _ _ _ _ _ Hd) | auto].
  - unfold execute_class in H. rewrite Hkls in H. injection H as <-.
    split; [reflexivity|]. intros d Hd. exists d. auto.
Qed.

Lemma execute_class_registry_frame_witness :
  exists st',
    execute_class greedy_fill documented_files "build" indexed_run cls_symbol
    = Ok st'
    /\ (forall mod_ name,
          mod_ <> item2 cls_symbol \/ name <> item0 cls_symbol ->
          env_get (env st') mod_ name = env_get (env indexed_run) mod_ name)
    /\ (forall d,
          env_get (env indexed_run) (item2 cls_symbol) (item0 cls_symbol) = Ok d ->
          exists d', env_get (env st') (item2 cls_symbol) (item0 cls_symbol) = Ok d'
                     /\ d_methods d' = d_methods d
                     /\ d_docstring d' = d_docstring d).
Proof.
  eexists. split; [vm_compute; reflexivity|].
  apply (execute_class_registry_frame greedy_fill documented_files "build"
           indexed_run).
  vm_compute. reflexivity.
Defined.

(** X10. The pass over a class writes the path of the file into the entry of
    the index itself: after it the entry holds the file name with the
    directory of the XML before it.  A second pass over the same class,
    as for a class that [rc.classes] lists twice, adds the directory
    again, and fails as the reading of that file fails. *)
Theorem execute_class_prefixes_file_name
    (fill : TextWrapper -> string -> string)
    (read_xml : string -> result element) (build_dir : string)
    (st st' : run) (c : api_tuple) (this_kls : kls_entry) :
  classes st !! item0 c = Some this_kls ->
  execute_class fill read_xml build_dir st c = Ok st' ->
  let prepend_fn := build_dir +:+ sep +:+ "xml" +:+ sep in
  classes st'
  = <[item0 c := {| k_file_name := prepend_fn +:+ k_file_name this_kls;
                    k_namespace := k_namespace this_kls;
                    k_vars := k_vars this_kls;
                    k_methods := k_methods this_kls |}]> (classes st)
  /\ (forall e,
        read_xml ((prepend_fn +:+ (prepend_fn +:+ k_file_name this_kls)) +:+ ".xml")
        = Raise e ->
        execute_class fill read_xml build_dir st' c = Raise e).
Proof.
  intros Hkls H prepend_fn.
  destruct (execute_class_Ok fill read_xml build_dir st st' c this_kls Hkls H)
    as (d & d' & _ & _ & _ & _ & Hclasses).
  split; [exact Hclasses|].
  intros e Hread. unfold execute_class.
  rewrite Hclasses, lookup_insert_eq.
  unfold parse_class. cbn [k_file_name]. fold prepend_fn.
  rewrite Hread. reflexivity.
Qed.

Lemma execute_class_prefixes_file_name_witness :
  exists st',
    execute_class greedy_fill documented_files "build" indexed_run cls_symbol
    = Ok st'
    /\ (classes st' !! "Cls"
        = Some {| k_file_name := "build/xml/cls"; k_namespace := EmptyString;
                  k_vars := []; k_methods := [Some "Cls"; Some "get"] |})
    /\ execute_class greedy_fill documented_files "build" st' cls_symbol
       = Raise IOError.
Proof.
  eexists. split; [vm_compute; reflexivity|].
  match goal with
  | |- classes ?s !! _ = _ /\ _ =>
      destruct (execute_class_prefixes_file_name greedy_fill documented_files
                  "build" indexed_run s cls_symbol
                  {| k_file_name := "cls"; k_namespace := EmptyString;
                     k_vars := []; k_methods := [Some "Cls"; Some "get"] |})
        as [Hclasses Hsecond]
  end.
  - reflexivity.
  - vm_compute. reflexivity.
  - split.
    + vm_compute. reflexivity.
    + apply Hsecond. reflexivity.
Defined.

(** ** [parse_index_xml]: the functions of a namespace *)

Lemma pretty_nat_nonempty (j : nat) : pretty j <> EmptyString.
Proof.
  intros H. destruct (pretty_nat_length j) as [Hlen _].
  rewrite H in Hlen. cbn in Hlen. lia.
Qed.

Lemma numbered_name_inj (name : string) (i j : nat) :
  name +:+ pretty i = name +:+ pretty j -> i = j.
Proof.
  intros H. apply (String.app_inj name) in H.
  apply (inj pretty) in H. exact H.
Qed.

Lemma numbered_name_ne (name : string) (j : nat) :
  name +:+ pretty j <> name.
Proof.
  intros H. rewrite <- (app_nil_r_str name) in H at 2.
  apply (String.app_inj name) in H. exact (pretty_nat_nonempty j H).
Qed.

(** A pass of the inner loop on a function whose name has been seen [m]
    times. *)
Lemma index_function_seen (fn : string) (ns : pyname) (name r : string)
    (m : nat) (funcs : gmap pyname func_entry) (k : element) :
  find_text "name" k = Ok (Some name) ->
  attrib k !! "refid" = Some r ->
  index_function fn ns ({[ Some name := m ]}, funcs) k
  = Ok ({[ Some name := S m ]},
        <[Some (name +:+ pretty m) :=
            {| f_file_name := fn; f_refid := r; f_namespace := ns |}]> funcs).
Proof.
  intros Hname Hrefid. unfold index_function.
  rewrite Hname. cbn [mbind result_bind].
  rewrite (getitem_Some _ _ _ Hrefid). cbn [mbind result_bind].
  rewrite lookup_singleton_eq. cbn [as_str mbind result_bind].
  rewrite insert_singleton_eq. reflexivity.
Qed.

Lemma index_function_first (fn : string) (ns : pyname) (name r : string)
    (funcs : gmap pyname func_entry) (k : element) :
  find_text "name" k = Ok (Some name) ->
  attrib k !! "refid" = Some r ->
  index_function fn ns (∅, funcs) k
  = Ok ({[ Some name := 1 ]},
        <[Some name :=
            {| f_file_name := fn; f_refid := r; f_namespace := ns |}]> funcs).
Proof.
  intros Hname Hrefid. unfold index_function.
  rewrite Hname. cbn [mbind result_bind].
  rewrite (getitem_Some _ _ _ Hrefid). cbn [mbind result_bind].
  rewrite lookup_empty. reflexivity.
Qed.

Lemma index_functions_seen (fn : string) (ns : pyname) (name : string)
    (ks : list element) (refids : list string) :
  Forall2 (fun k r => find_text "name" k = Ok (Some name)
                      /\ attrib k !! "refid" = Some r) ks refids ->
  forall (m : nat) (funcs : gmap pyname func_entry),
  exists cnts funcs',
    for_loop (index_function fn ns) ks ({[ Some name := m ]}, funcs)
    = Ok (cnts, funcs')
    /\ (forall j r, refids !! j = Some r ->
          funcs' !! Some (name +:+ pretty (m + j))
          = Some {| f_file_name := fn; f_refid := r; f_namespace := ns |})
    /\ (forall key,
          (forall j, j < List.length refids ->
             key <> Some (name +:+ pretty (m + j))) ->
          funcs' !! key = funcs !! key).
Proof.
  induction 1 as [|k r ks refids [Hname Hrefid] _ IH]; intros m funcs.
  - exists {[ Some name := m ]}, funcs. split; [reflexivity|].
    split; [intros j r Hj; discriminate | reflexivity].
  - cbn [for_loop]. rewrite (index_function_seen fn ns name r m funcs k Hname Hrefid).
    cbn [mbind result_bind].
    destruct (IH (S m) (<[Some (name +:+ pretty m) :=
                {| f_file_name := fn; f_refid := r; f_namespace := ns |}]> funcs))
      as (cnts & funcs' & Hloop & Hkeys & Hframe).
    exists cnts, funcs'. split; [exact Hloop|]. split.
    + intros [|j] r' Hj.
      * cbn in Hj. injection Hj as <-. rewrite Nat.add_0_r.
        rewrite Hframe; [apply lookup_insert_eq|].
        intros j _ Heq. injection Heq as Heq.
        apply numbered_name_inj in Heq. lia.
      * cbn in Hj. replace (m + S j) with (S m + j) by lia.
        apply Hkeys. exact Hj.
    + intros key Hkey. rewrite Hframe.
      * apply lookup_insert_ne. intros <-.
        apply (Hkey 0); [cbn; lia|]. rewrite Nat.add_0_r. reflexivity.
      * intros j Hj. replace (S m + j) with (m + S j) by lia.
        apply Hkey. cbn. lia.
Qed.

(** X12. When all the functions of a namespace have the same name, they
    are indexed under the name, the name with the suffix 1, the name with
    the suffix 2 and so on, in the order of the file, each with its own
    [refid]; an entry that an earlier namespace left under one of these
    keys is replaced, and every other entry of the index is kept. *)
Theorem index_namespace_numbers_overloads
    (funcs : gmap pyname func_entry) (i : element) (ns_name : pyname)
    (name : string) (ks : list element) (refids : list string) :
  find_text "name" i = Ok ns_name ->
  of_kind "function" (iter "member" i) = Ok ks ->
  Forall2 (fun k r => find_text "name" k = Ok (Some name)
                      /\ attrib k !! "refid" = Some r) ks refids ->
  let entry r :=
    {| f_file_name := "namespace" +:+ py_str ns_name +:+ ".xml";
       f_refid := r; f_namespace := ns_name |} in
  exists funcs',
    index_namespace funcs i = Ok funcs'
    /\ (forall r, refids !! 0 = Some r -> funcs' !! Some name = Some (entry r))
    /\ (forall j r, 1 <= j -> refids !! j = Some r ->
          funcs' !! Some (name +:+ pretty j) = Some (entry r))
    /\ (forall key,
          key <> Some name ->
          (forall j, 1 <= j < List.length refids ->
             key <> Some (name +:+ pretty j)) ->
          funcs' !! key = funcs !! key).
Proof.
  intros Hns Hks Hall entry. unfold index_namespace.
  rewrite Hns. cbn [mbind result_bind]. rewrite Hks. cbn [mbind result_bind].
  set (fn := "namespace" +:+ py_str ns_name +:+ ".xml").
  destruct Hall as [|k r ks refids [Hname Hrefid] Hall].
  - exists funcs. split; [reflexivity|].
    split; [intros r Hr; discriminate|].
    split; [intros j r _ Hr; discriminate | reflexivity].
  - cbn [for_loop].
    rewrite (index_function_first fn ns_name name r funcs k Hname Hrefid).
    cbn [mbind result_bind].
    destruct (index_functions_seen fn ns_name name ks refids Hall 1
                (<[Some name := {| f_file_name := fn; f_refid := r;
                                   f_namespace := ns_name |}]> funcs))
      as (cnts & funcs' & Hloop & Hkeys & Hframe).
    rewrite Hloop. cbn [mbind result_bind].
    exists funcs'. split; [reflexivity|]. split; [|split].
    + intros r' Hr. cbn in Hr. injection Hr as <-.
      rewrite Hframe; [apply lookup_insert_eq|].
      intros j _ Heq. injection Heq as Heq.
      symmetry in Heq. exact (numbered_name_ne name (1 + j) Heq).
    + intros [|j] r' Hj Hr; [lia|]. cbn in Hr.
      apply (Hkeys j r' Hr).
    + intros key Hname' Hkey. rewrite Hframe.
      * apply lookup_insert_ne. congruence.
      * intros j Hj. apply Hkey. cbn. lia.
Qed.

Lemma index_namespace_numbers_overloads_witness :
  exists funcs',
    index_namespace ∅ overloads_namespace = Ok funcs'
    /\ (forall r, ["id_add_a"; "id_add_b"; "id_add_c"] !! 0 = Some r ->
          funcs' !! Some "add"
          = Some {| f_file_name := "namespace" +:+ py_str (Some "arith") +:+ ".xml";
                    f_refid := r; f_namespace := Some "arith" |})
    /\ (forall j r, 1 <= j ->
          ["id_add_a"; "id_add_b"; "id_add_c"] !! j = Some r ->
          funcs' !! Some ("add" +:+ pretty j)
          = Some {| f_file_name := "namespace" +:+ py_str (Some "arith") +:+ ".xml";
                    f_refid := r; f_namespace := Some "arith" |})
    /\ (forall key,
          key <> Some "add" ->
          (forall j, 1 <= j < 3 -> key <> Some ("add" +:+ pretty j)) ->
          funcs' !! key = (∅ : gmap pyname func_entry) !! key).
Proof.
  apply (index_namespace_numbers_overloads ∅ overloads_namespace (Some "arith")
           "add"
           [member_xml "add" "id_add_a"; member_xml "add" "id_add_b";
            member_xml "add" "id_add_c"]
           ["id_add_a"; "id_add_b"; "id_add_c"]).
  - vm_compute. reflexivity.
  - vm_compute. reflexivity.
  - repeat constructor.
Defined.

(** ** [setup] *)

(** X14. [setup] writes into the configuration that [rc.doxygen_config]
    refers to, not into a copy: after the call that dictionary has the
    package, the build directory and the source directory of the run under
    ['PROJECT_NAME'], ['OUTPUT_DIRECTORY'] and ['INPUT'], whatever it held
    there, and every other option as before; no other dictionary
    changes. *)
Theorem setup_updates_in_place
    (doxygen_config : nat) (package builddir sourcedir : config_value)
    (h : gmap nat config) (target : config) :
  h !! doxygen_config = Some target ->
  exists updated : config,
    setup doxygen_config package builddir sourcedir h
    = Some (<[doxygen_config := updated]> h)
    /\ updated !! "PROJECT_NAME" = Some package
    /\ updated !! "OUTPUT_DIRECTORY" = Some builddir
    /\ updated !! "INPUT" = Some sourcedir
    /\ (forall k, k <> "PROJECT_NAME" -> k <> "OUTPUT_DIRECTORY" -> k <> "INPUT" ->
          updated !! k = target !! k).
Proof.
  intros Htarget. unfold setup. rewrite Htarget. cbn [mbind option_bind].
  eexists. split; [reflexivity|].
  split; [apply lookup_union_Some_l; reflexivity|].
  split; [apply lookup_union_Some_l; reflexivity|].
  split; [apply lookup_union_Some_l; reflexivity|].
  intros k H1 H2 H3. apply lookup_union_r.
  rewrite !lookup_insert_ne by congruence.
  apply lookup_singleton_ne. congruence.
Qed.

Lemma setup_updates_in_place_witness :
  exists updated : config,
    setup 0 (CStr "pkg") (CStr "build") (CStr "src") example_heap
    = Some (<[0 := updated]> example_heap)
    /\ updated !! "PROJECT_NAME" = Some (CStr "pkg")
    /\ updated !! "OUTPUT_DIRECTORY" = Some (CStr "build")
    /\ updated !! "INPUT" = Some (CStr "src")
    /\ (forall k, k <> "PROJECT_NAME" -> k <> "OUTPUT_DIRECTORY" -> k <> "INPUT" ->
          updated !! k
          = ({[ "PROJECT_NAME" := CStr "project";
                "GENERATE_LATEX" := CStr "NO" ]} : config) !! k).
Proof.
  apply (setup_updates_in_place 0 (CStr "pkg") (CStr "build") (CStr "src")
           example_heap).
  reflexivity.
Defined.

(** X15. The configuration of a run is made by [merge_configs] from the
    defaults and the options of the user, and [setup] then writes into
    it.  The two dictionaries that were merged stay as they were; in the
    merged one the three options of [setup] are forced, and for every
    other option the value of the user comes before the default. *)
Theorem setup_after_merge_configs
    (old new : nat) (package builddir sourcedir : config_value)
    (h : gmap nat config) (o n : config) :
  h !! old = Some o ->
  h !! new = Some n ->
  exists (d : nat) (h1 h2 : gmap nat config) (m : config),
    merge_configs old new h = Some (d, h1)
    /\ setup d package builddir sourcedir h1 = Some h2
    /\ h2 !! old = Some o
    /\ h2 !! new = Some n
    /\ h2 !! d = Some m
    /\ m !! "PROJECT_NAME" = Some package
    /\ m !! "OUTPUT_DIRECTORY" = Some builddir
    /\ m !! "INPUT" = Some sourcedir
    /\ (forall k, k <> "PROJECT_NAME" -> k <> "OUTPUT_DIRECTORY" -> k <> "INPUT" ->
          m !! k = match n !! k with Some v => Some v | None => o !! k end).
Proof.
  intros Hold Hnew.
  set (d := fresh (dom h)).
  assert (Hd : h !! d = None).
  { apply not_elem_of_dom. apply is_fresh. }
  assert (Hdo : d <> old) by (intros ->; congruence).
  assert (Hdn : d <> new) by (intros ->; congruence).
  set (h1 := <[d := n ∪ o]> (<[d := o]> h)).
  assert (Hmerge : merge_configs old new h = Some (d, h1)).
  { unfold merge_configs, dict_copy. rewrite Hold. cbn. fold d.
    unfold dict_update. rewrite lookup_insert_eq. cbn.
    rewrite lookup_insert_ne by exact Hdn. rewrite Hnew. reflexivity. }
  assert (Hh1 : h1 !! d = Some (n ∪ o)) by apply lookup_insert_eq.
  exists d, h1. unfold setup. rewrite Hh1. cbn [mbind option_bind].
  eexists. eexists. split; [exact Hmerge|]. split; [reflexivity|].
  split; [unfold h1; rewrite !lookup_insert_ne by congruence; exact Hold|].
  split; [unfold h1; rewrite !lookup_insert_ne by congruence; exact Hnew|].
  split; [apply lookup_insert_eq|].
  split; [apply lookup_union_Some_l; reflexivity|].
  split; [apply lookup_union_Some_l; reflexivity|].
  split; [apply lookup_union_Some_l; reflexivity|].
  intros k H1 H2 H3. rewrite lookup_union_r.
  - destruct (n !! k) as [v|] eqn:Hk.
    + apply lookup_union_Some_l. exact Hk.
    + apply lookup_union_r. exact Hk.
  - rewrite !lookup_insert_ne by congruence.
    apply lookup_singleton_ne. congruence.
Qed.

Lemma setup_after_merge_configs_witness :
  exists (d : nat) (h1 h2 : gmap nat config) (m : config),
    merge_configs 0 1 example_heap = Some (d, h1)
    /\ setup d (CStr "pkg") (CStr "build") (CStr "src") h1 = Some h2
    /\ h2 !! 0 = Some ({[ "PROJECT_NAME" := CStr "project";
                          "GENERATE_LATEX" := CStr "NO" ]} : config)
    /\ h2 !! 1 = Some ({[ "GENERATE_LATEX" := CBool true;
                          "EXTRACT_ALL" := CBool false ]} : config)
    /\ h2 !! d = Some m
    /\ m !! "PROJECT_NAME" = Some (CStr "pkg")
    /\ m !! "OUTPUT_DIRECTORY" = Some (CStr "build")
    /\ m !! "INPUT" = Some (CStr "src")
    /\ (forall k, k <> "PROJECT_NAME" -> k <> "OUTPUT_DIRECTORY" -> k <> "INPUT" ->
          m !! k
          = match ({[ "GENERATE_LATEX" := CBool true;
                      "EXTRACT_ALL" := CBool false ]} : config) !! k with
            | Some v => Some v
            | None => ({[ "PROJECT_NAME" := CStr "project";
                          "GENERATE_LATEX" := CStr "NO" ]} : config) !! k
            end).
Proof.
  apply (setup_after_merge_configs 0 1 (CStr "pkg") (CStr "build") (CStr "src")
           example_heap); reflexivity.
Defined.

(** ** [parse_index_xml]: the path of the index *)

Lemma str_rev_onto_app (s acc : string) :
  str_rev_onto s acc = str_rev s +:+ acc.
Proof.
  unfold str_rev. revert acc. induction s as [|c s IH]; intros acc.
  - reflexivity.
  - cbn [str_rev_onto]. rewrite (IH (String c acc)), (IH (String c EmptyString)).
    rewrite app_assoc_str. reflexivity.
Qed.

Lemma str_rev_app (a b : string) :
  str_rev (a +:+ b) = str_rev b +:+ str_rev a.
Proof.
  induction a as [|c a IH].
  - cbn. rewrite app_nil_r_str. reflexivity.
  - rewrite app_cons_str. unfold str_rev at 1 3. cbn [str_rev_onto].
    rewrite !str_rev_onto_app, IH, app_assoc_str. reflexivity.
Qed.

Lemma prefix_app (p x : string) : String.prefix p (p +:+ x) = true.
Proof.
  induction p as [|c p IH]; [destruct x; reflexivity|].
  rewrite app_cons_str. cbn. destruct (ascii_dec c c); [exact IH | contradiction].
Qed.

Lemma endswith_app (a b : string) : endswith (a +:+ b) b = true.
Proof. unfold endswith. rewrite str_rev_app. apply prefix_app. Qed.

(** X13. The directory of the index, with or without a separator at its end,
    is as good as the path of the file: [parse_index_xml] reads
    [index.xml] in that directory and returns what it returns for the
    full path. *)
Theorem parse_index_xml_directory
    (read_xml : string -> result element) (dir : string) :
  dir <> EmptyString ->
  endswith dir sep = false ->
  endswith dir "index.xml" = false ->
  parse_index_xml read_xml dir
  = parse_index_xml read_xml (dir +:+ sep +:+ "index.xml")
  /\ parse_index_xml read_xml (dir +:+ sep)
     = parse_index_xml read_xml (dir +:+ sep +:+ "index.xml").
Proof.
  intros Hne Hsep Hidx.
  assert (Hfull : endswith (dir +:+ sep +:+ "index.xml") "index.xml" = true).
  { rewrite <- app_assoc_str. apply endswith_app. }
  assert (Hdir_sep : endswith (dir +:+ sep) "index.xml" = false).
  { unfold endswith. rewrite str_rev_app. reflexivity. }
  unfold parse_index_xml. rewrite Hfull, Hidx, Hsep, Hdir_sep.
  rewrite (endswith_app dir sep).
  split.
  - destruct dir; [contradiction | reflexivity].
  - destruct dir; rewrite <- ?app_assoc_str; reflexivity.
Qed.

Lemma parse_index_xml_directory_witness :
  parse_index_xml namespace_files "build/xml"
  = parse_index_xml namespace_files ("build/xml" +:+ sep +:+ "index.xml")
  /\ parse_index_xml namespace_files ("build/xml" +:+ sep)
     = parse_index_xml namespace_files ("build/xml" +:+ sep +:+ "index.xml").
Proof.
  apply (parse_index_xml_directory namespace_files "build/xml").
  - discriminate.
  - reflexivity.
  - reflexivity.
Defined.

(** ** [parse_index_xml]: the classes *)

(** X16. The index of the classes is keyed by the last component of the
    qualified name.  Two classes whose names end in the same component,
    as classes of one name in two namespaces, share a key: after both are
    indexed the key holds the entry of the second one, with its file and
    its namespace, and the first one has no entry. *)
Theorem index_class_same_name_replaces
    (classes c1 c2 : gmap string kls_entry) (kls1 kls2 : element)
    (n1 n2 key : string) :
  find_text "name" kls1 = Ok (Some n1) ->
  find_text "name" kls2 = Ok (Some n2) ->
  last_item (split "::" n1) = Ok key ->
  last_item (split "::" n2) = Ok key ->
  index_class classes kls1 = Ok c1 ->
  index_class c1 kls2 = Ok c2 ->
  exists e2,
    c2 = <[key := e2]> classes
    /\ attrib kls2 !! "refid" = Some (k_file_name e2)
    /\ k_namespace e2 = join "::" (all_but_last (split "::" n2)).
Proof.
  intros Hn1 Hn2 Hk1 Hk2 H1 H2.
  unfold index_class in H1. rewrite Hn1 in H1.
  cbn [attr_of mbind result_bind] in H1. rewrite Hk1 in H1.
  cbn [mbind result_bind] in H1.
  apply bind_Ok in H1 as (f1 & _ & H1).
  apply bind_Ok in H1 as (e1 & _ & H1).
  injection H1 as <-.
  unfold index_class in H2. rewrite Hn2 in H2.
  cbn [attr_of mbind result_bind] in H2. rewrite Hk2 in H2.
  cbn [mbind result_bind] in H2.
  apply bind_Ok in H2 as (f2 & Hf2 & H2).
  apply bind_Ok in H2 as (e2 & Hloop & H2).
  injection H2 as <-.
  exists e2. split; [apply insert_insert_eq|].
  apply (for_loop_invariant _
           (fun e => k_file_name e = f2
                     /\ k_namespace e = join "::" (all_but_last (split "::" n2))))
    in Hloop.
  - destruct Hloop as [Hfile Hns]. split; [|exact Hns].
    rewrite Hfile. unfold getitem in Hf2.
    destruct (attrib kls2 !! "refid"); [congruence | discriminate].
  - intros e mem e' [Hfile Hns] Hmem. unfold index_member in Hmem.
    apply bind_Ok in Hmem as (mem_name & _ & Hmem).
    apply bind_Ok in Hmem as (kind & _ & Hmem).
    destruct (String.eqb kind "variable"); [injection Hmem as <-; auto|].
    destruct (String.eqb kind "function"); injection Hmem as <-; auto.
  - split; reflexivity.
Qed.

Lemma index_class_same_name_replaces_witness :
  exists c1 c2 e2,
    index_class ∅ cls_in_a = Ok c1
    /\ index_class c1 cls_in_b = Ok c2
    /\ c2 = <["Cls" := e2]> ∅
    /\ attrib cls_in_b !! "refid" = Some (k_file_name e2)
    /\ k_namespace e2 = join "::" (all_but_last (split "::" "b::Cls")).
Proof.
  eexists. eexists.
  assert (H1 : index_class ∅ cls_in_a
               = Ok {[ "Cls" := {| k_file_name := "classa_1_1Cls";
                                   k_namespace := "a"; k_vars := [];
                                   k_methods := [Some "get"] |} ]})
    by (vm_compute; reflexivity).
  assert (H2 : index_class
                 {[ "Cls" := {| k_file_name := "classa_1_1Cls";
                                k_namespace := "a"; k_vars := [];
                                k_methods := [Some "get"] |} ]} cls_in_b
               = Ok {[ "Cls" := {| k_file_name := "classb_1_1Cls";
                                   k_namespace := "b";
                                   k_vars := [Some "size"];
                                   k_methods := [] |} ]})
    by (vm_compute; reflexivity).
  destruct (index_class_same_name_replaces ∅ _ _ cls_in_a cls_in_b
              "a::Cls" "b::Cls" "Cls" eq_refl eq_refl eq_refl eq_refl H1 H2)
    as (e2 & Hc2 & Hfile & Hns).
  exists e2. split; [exact H1|]. split; [exact H2|].
  split; [exact Hc2|]. split; [exact Hfile | exact Hns].
Defined.

(** ** [dox_dict2str] *)

Lemma fold_new_line_appends (l : list (string * config_value)) (acc : string) :
  fold_left (fun s kv => s +:+ new_line kv.1 kv.2) l acc
  = acc +:+ fold_left (fun s kv => s +:+ new_line kv.1 kv.2) l EmptyString.
Proof.
  revert acc. induction l as [|kv l IH]; intros acc.
  - cbn. rewrite app_nil_r_str. reflexivity.
  - cbn [fold_left]. rewrite IH, (IH (EmptyString +:+ _)).
    rewrite app_assoc_str. reflexivity.
Qed.

(** X17. Every option of the configuration has its line in the text that
    [dox_dict2str] strips: the key in upper case, [ = ] and the value,
    [YES] for [True] and [NO] for [False], followed by a newline. *)
Theorem dox_dict2str_option_line
    (dox_dict : config) (key : string) (value : config_value) :
  dox_dict !! key = Some value ->
  exists before after,
    dox_dict2str dox_dict
    = strip (before
               +:+ (upper key +:+ " = " +:+ dox_value value +:+ nl)
               +:+ after).
Proof.
  intros Hkey. apply elem_of_map_to_list in Hkey.
  apply list_elem_of_split in Hkey as (l1 & l2 & Hsplit).
  unfold dox_dict2str. rewrite Hsplit, fold_left_app. cbn [fold_left].
  rewrite fold_new_line_appends.
  eexists. eexists. unfold new_line. cbn [fst snd].
  rewrite app_assoc_str. reflexivity.
Qed.

Lemma dox_dict2str_option_line_witness :
  exists before after,
    dox_dict2str example_config
    = strip (before
               +:+ ("GENERATE_LATEX" +:+ " = " +:+ "NO" +:+ nl)
               +:+ after).
Proof.
  apply (dox_dict2str_option_line example_config "generate_latex" (CBool false)).
  reflexivity.
Defined.

(** ** From the parsed variables to [class_docstr] *)

Lemma parse_variable_keys (v_xml : element) (m : member) :
  _parse_variable v_xml = Ok m ->
  is_Some (detaileddescription m) /\ is_Some (type_ m).
Proof.
  unfold _parse_variable. intros H.
  apply bind_Ok in H as (ty & _ & H).
  injection H as <-. cbn. split; eauto.
Qed.

(** X18. The dictionary that [parse_class] makes for a variable, with
    [_parse_variable] and then [_parse_common], has the three keys that
    the loop over the attributes of [class_docstr] reads.  The line of the
    variable is added when its detailed description is a text; when the
    paragraph of that description has no text of its own the description
    is [None], and adding it to the brief description raises
    [TypeError]. *)
Theorem parsed_variable_renders
    (fill : TextWrapper -> string -> string) (v_xml : element)
    (mem_dict the_dict : member) (ivars : gmap pyname member)
    (msg : string) (i : pyname) :
  _parse_variable v_xml = Ok mem_dict ->
  _parse_common v_xml mem_dict = Ok the_dict ->
  ivars !! i = Some the_dict ->
  exists detailed,
    detaileddescription the_dict = Some detailed
    /\ match detailed with
       | Some _ =>
           exists line, class_docstr_attribute fill ivars msg i
                        = Ok (msg +:+ line +:+ nl)
       | None => class_docstr_attribute fill ivars msg i = Raise TypeError
       end.
Proof.
  intros Hvar Hcommon Hi.
  apply parse_variable_keys in Hvar as ([detailed Hdet] & [ty Hty]).
  apply parse_common_keys in Hcommon
    as ([brief Hbrief] & _ & Hdet' & _ & Hty' & _).
  rewrite Hdet in Hdet'. rewrite Hty in Hty'.
  exists detailed. split; [exact Hdet'|].
  unfold class_docstr_attribute.
  rewrite (getitem_Some _ _ _ Hi). cbn [mbind result_bind].
  rewrite Hbrief, Hdet'. cbn [field mbind result_bind].
  destruct detailed as [detailed|]; cbn [as_str mbind result_bind].
  - rewrite Hty'. cbn [field mbind result_bind]. eexists.
    rewrite app_assoc_str. reflexivity.
  - reflexivity.
Qed.

Lemma parsed_variable_renders_witness :
  exists mem_dict the_dict detailed,
    _parse_variable count_xml = Ok mem_dict
    /\ _parse_common count_xml mem_dict = Ok the_dict
    /\ detaileddescription the_dict = Some detailed
    /\ match detailed with
       | Some _ =>
           exists line,
             class_docstr_attribute greedy_fill {[ Some "count" := the_dict ]}
               "Attributes" (Some "count")
             = Ok ("Attributes" +:+ line +:+ nl)
       | None =>
           class_docstr_attribute greedy_fill {[ Some "count" := the_dict ]}
             "Attributes" (Some "count")
           = Raise TypeError
       end.
Proof.
  eexists. eexists.
  assert (Hvar : _parse_variable count_xml
                 = Ok (set_type (Some "int")
                         (set_detaileddescription (Some "Counts the items.")
                            empty_member)))
    by (vm_compute; reflexivity).
  assert (Hcommon : _parse_common count_xml
                      (set_type (Some "int")
                         (set_detaileddescription (Some "Counts the items.")
                            empty_member))
                    = Ok (set_definition (Some "int count")
                            (set_briefdescription "The count."
                               (set_type (Some "int")
                                  (set_detaileddescription
                                     (Some "Counts the items.") empty_member)))))
    by (vm_compute; reflexivity).
  destruct (parsed_variable_renders greedy_fill count_xml _ _
              {[ Some "count" :=
                   set_definition (Some "int count")
                     (set_briefdescription "The count."
                        (set_type (Some "int")
                           (set_detaileddescription
                              (Some "Counts the items.") empty_member))) ]}
              "Attributes" (Some "count") Hvar Hcommon)
    as (detailed & Hdet & Hline).
  { apply lookup_singleton_eq. }
  exists detailed. split; [exact Hvar|]. split; [exact Hcommon|].
  split; [exact Hdet | exact Hline].
Defined.
